(** * Real-time chatbot analytics dashboard: collector and aggregation core

    A shallow embedding of [collector.py] (the metric generator) and of the
    callbacks of [app.py] (snapshot formatting and chart aggregation).

    Conventions of the embedding:
    - Python [int] is [Z]; Python [float] is an IEEE 754 binary64 value,
      [spec_float] with [prec = 53] and [emax = 1024], computed with the
      operations of [SpecFloat];
    - [bytes] and [str] are [string];
    - an exception is the [Raise] branch of [result];
    - the Redis instance is a finite map from keys to byte strings, a MongoDB
      collection is the list of its documents in insertion order (the [_id]
      the store adds to a document is left out: no callback reads it);
    - the clock and the random generator are inputs of a tick: every call of
      [datetime.now()] is one [datetime] argument, every call into [random]
      consumes one raw draw;
    - a write to a store returns or raises: what happens to the writes of a
      pass is an input of the tick too. *)

From Stdlib Require Import ZArith Lia List Bool Ascii String Sorting.Sorted.
From Stdlib Require Import Floats.SpecFloat.
From stdpp Require Import base strings gmap.

Import ListNotations.
Local Open Scope string_scope.
Local Open Scope Z_scope.

(** ** Python values and exceptions *)

Inductive exn :=
| KeyError (key : string)
| ValueError (msg : string)
| TypeError (msg : string)
| OverflowError (msg : string).

Inductive result (A : Type) :=
| Ok (a : A)
| Raise (e : exn).
Arguments Ok {A} a.
Arguments Raise {A} e.

Definition rbind {A B} (x : result A) (f : A -> result B) : result B :=
  match x with
  | Ok a => f a
  | Raise e => Raise e
  end.

Notation "'do' x <- c1 ; c2" := (rbind c1 (fun x => c2))
  (at level 10, x name, c1 at level 100, c2 at level 200).

(** ** binary64 *)

Definition prec64 : Z := 53.
Definition emax64 : Z := 1024.
Definition emin64 : Z := -1074.

Abbreviation float := spec_float.

Definition fadd : float -> float -> float := SFadd prec64 emax64.
Definition fsub : float -> float -> float := SFsub prec64 emax64.
Definition fmul : float -> float -> float := SFmul prec64 emax64.
Definition fleb : float -> float -> bool := SFleb.

(** [float(n)] for an integer [n], rounded to nearest even. *)
Definition float_of_int (n : Z) : float := binary_normalize prec64 emax64 n 0 false.

(** The value of the decimal literal [D * 10^E], rounded to nearest even: the
    reading of a float literal of the source and of [float(b"...")]. *)
Definition float_of_decimal (D E : Z) : float :=
  if 0 <=? E then binary_normalize prec64 emax64 (D * 10 ^ E) 0 false
  else
    match D with
    | Z0 => S754_zero false
    | Zpos d =>
        SFdiv prec64 emax64 (S754_finite false d 0)
              (S754_finite false (Z.to_pos (10 ^ (- E))) 0)
    | Zneg d =>
        SFdiv prec64 emax64 (S754_finite true d 0)
              (S754_finite false (Z.to_pos (10 ^ (- E))) 0)
    end.

(** [int(x)] for a float [x]: truncation toward zero. *)
Definition int_of_float (x : float) : result Z :=
  match x with
  | S754_zero _ => Ok 0
  | S754_finite s m e =>
      let a := if 0 <=? e then Z.pos m * 2 ^ e else Z.pos m / 2 ^ (- e) in
      Ok (if s then - a else a)
  | S754_infinity _ => Raise (OverflowError "cannot convert float infinity to integer")
  | S754_nan => Raise (ValueError "cannot convert float NaN to integer")
  end.

(** The part of [binary_round_aux] that follows the choice of the rounded
    mantissa [m1], for a positive number. *)
Definition round_tail (prec emax m1 e1 : Z) : spec_float :=
  let '(mrs'', e'') := shr_fexp prec emax m1 e1 loc_Exact in
  match shr_m mrs'' with
  | Z0 => S754_zero false
  | Zpos m => if Z.leb e'' (Z.sub emax prec) then S754_finite false m e''
              else S754_infinity false
  | _ => S754_nan
  end.

(** The value of a finite float in units of [2^emin64], the smallest
    positive binary64 number. *)
Definition ulps (x : float) : Z :=
  match x with
  | S754_finite false m e => Z.pos m * 2 ^ (e - emin64)
  | S754_finite true m e => - (Z.pos m * 2 ^ (e - emin64))
  | _ => 0
  end.

(** A positive normal or subnormal number. *)
Definition finite_pos (x : float) : Prop :=
  exists m e, x = S754_finite false m e /\ bounded prec64 emax64 m e = true.

(** The bounds of a [uniform] draw are positive numbers whose difference
    [hi - lo], as computed, is a normal number and does not overshoot [hi]. *)
Definition band_ok (lo hi : float) : bool :=
  match lo, hi, fsub hi lo with
  | S754_finite false mlo elo, S754_finite false mhi ehi, S754_finite false mc ec =>
      bounded prec64 emax64 mlo elo && bounded prec64 emax64 mhi ehi
      && bounded prec64 emax64 mc ec
      && (Z.pos (digits2_pos mc) =? prec64)
      && (ulps lo + ulps (fsub hi lo) <=? ulps hi)
  | _, _, _ => false
  end.

(** ** The [random] module

    [randint a b] is [a + _randbelow (b - a + 1)] and [uniform a b] is
    [a + (b - a) * random()].  The Mersenne Twister itself is not modelled:
    a call receives the raw draw [r] it consumes, [_randbelow n] reduces it
    to [0 .. n-1] and [random()] to a multiple of [2^-53] below [1]. *)

Definition randbelow (n r : Z) : Z := r mod n.

Definition randint (a b r : Z) : Z := a + randbelow (b - a + 1) r.

Definition random (r : Z) : float :=
  binary_normalize prec64 emax64 (r mod 2 ^ 53) (- 53) false.

Definition uniform (a b : float) (r : Z) : float :=
  fadd a (fmul (fsub b a) (random r)).

(** ** [datetime] *)

Record datetime := mk_datetime {
  year : Z; month : Z; day : Z;
  hour : Z; minute : Z; second : Z; microsecond : Z
}.

(** Days from 1970-01-01 to the civil date [y]-[m]-[d] (proleptic Gregorian). *)
Definition days_from_civil (y m d : Z) : Z :=
  let y' := if m <=? 2 then y - 1 else y in
  let era := y' / 400 in
  let yoe := y' - era * 400 in
  let doy := (153 * (if 2 <? m then m - 3 else m + 9) + 2) / 5 + d - 1 in
  let doe := yoe * 365 + yoe / 4 - yoe / 100 + doy in
  era * 146097 + doe - 719468.

(** The civil date of a day number. *)
Definition civil_from_days (z : Z) : Z * Z * Z :=
  let z' := z + 719468 in
  let era := z' / 146097 in
  let doe := z' - era * 146097 in
  let yoe := (doe - doe / 1460 + doe / 36524 - doe / 146096) / 365 in
  let doy := doe - (365 * yoe + yoe / 4 - yoe / 100) in
  let mp := (5 * doy + 2) / 153 in
  let d := doy - (153 * mp + 2) / 5 + 1 in
  let m := if mp <? 10 then mp + 3 else mp - 9 in
  (if m <=? 2 then yoe + era * 400 + 1 else yoe + era * 400, m, d).

(** [datetime.weekday()]: Monday is 0, Sunday is 6. *)
Definition weekday (t : datetime) : Z :=
  (days_from_civil (year t) (month t) (day t) + 3) mod 7.

(** Microseconds of a naive [datetime] since 1970-01-01T00:00. *)
Definition to_micros (t : datetime) : Z :=
  (((days_from_civil (year t) (month t) (day t) * 24 + hour t) * 60
    + minute t) * 60 + second t) * 1000000 + microsecond t.

(** A BSON date is a number of milliseconds since the epoch: the driver
    drops the microseconds below the millisecond. *)
Definition bson_date (t : datetime) : Z := to_micros t / 1000.

(** ** Decimal text of an integer: [str(n)], [repr(n)] *)

Fixpoint digits_of_pos (fuel : nat) (n : Z) (acc : string) : string :=
  match fuel with
  | O => acc
  | S fuel' =>
      let acc' := String (ascii_of_nat (48 + Z.to_nat (n mod 10))) acc in
      if n <? 10 then acc' else digits_of_pos fuel' (n / 10) acc'
  end.

(** A number below [2^k] has at most [k] decimal digits. *)
Definition str_of_nonneg (n : Z) : string :=
  digits_of_pos (S (Z.to_nat (Z.log2 n))) n "".

Definition str_of_Z (n : Z) : string :=
  if n <? 0 then String "-" (str_of_nonneg (- n)) else str_of_nonneg n.

(** ** Stored values and documents *)

#[warnings="-register-all"]
Inductive value :=
| VNull
| VInt (n : Z)
| VFloat (x : float)
| VStr (s : string)
| VDate (ms : Z)
| VDoc (fields : list (string * value)).

Abbreviation document := (list (string * value)).

Fixpoint field (k : string) (d : document) : option value :=
  match d with
  | [] => None
  | (k', v) :: d' => if String.eqb k k' then Some v else field k d'
  end.

(** ** collector.py *)

Record database := mk_database {
  message_logs : list document;
  user_activity : list document;
  api_costs : list document;
  rate_limits : list document
}.

Record AnalyticsCollector := mk_collector {
  redis_client : gmap string string;
  db : database;
  message_count : Z;
  active_users : Z;
  api_cost : float;
  rate_limit : Z
}.

(** The counters and stores at the end of [__init__], over the given stores. *)
Definition init (redis : gmap string string) (d : database) : AnalyticsCollector :=
  mk_collector redis d 0 1 (float_of_decimal 10 (-2)) 100.

Definition business_hours (h : Z) : bool := (9 <=? h) && (h <=? 17).
Definition evening_peak (h : Z) : bool := (18 <=? h) && (h <=? 22).

(** [messages] of [collect_messages]: the delta of a pass at hour [h]. *)
Definition messages (h r : Z) : Z :=
  if business_hours h then randint 5 15 r
  else if evening_peak h then randint 8 20 r
  else randint 0 5 r.

(** The body of a loop runs inside [try: ... except Exception:], and the
    handler only logs and sleeps: what the pass did before a statement
    raised stays done.  The statements that can raise are the two writes,
    which come after the update of the counter.  [writes] is what happens to
    them in a pass: both return; [redis_client.set] raises, and [insert_one]
    is not reached; or [insert_one] raises after the key was set.  These are
    also the states that another thread, or the dashboard, sees in the
    middle of a pass. *)
Inductive writes :=
| Written
| SetRaises
| InsertRaises.

(** [redis_client.set(k, v)] *)
Definition redis_set (w : writes) (k v : string) (redis : gmap string string)
  : gmap string string :=
  match w with
  | SetRaises => redis
  | Written | InsertRaises => <[ k := v ]> redis
  end.

(** [collection.insert_one(doc)] *)
Definition insert_one (w : writes) (collection : list document) (doc : document)
  : list document :=
  match w with
  | Written => (collection ++ [doc])%list
  | SetRaises | InsertRaises => collection
  end.

(** One pass through the body of [collect_messages]: [t1] and [t2] are the
    two readings of the clock, [r] the draw of [randint], [w] what happens
    to the writes. *)
Definition collect_messages_tick (self : AnalyticsCollector)
    (t1 t2 : datetime) (r : Z) (w : writes) : AnalyticsCollector :=
  let h := hour t1 in
  let messages := messages h r in
  let count' := message_count self + messages in
  let redis' := redis_set w "total_messages" (str_of_Z count') (redis_client self) in
  let d := db self in
  let logs' := insert_one w (message_logs d)
    [("timestamp", VDate (bson_date t2)); ("count", VInt messages)] in
  mk_collector redis'
    (mk_database logs' (user_activity d) (api_costs d) (rate_limits d))
    count' (active_users self) (api_cost self) (rate_limit self).

(** [base_users] of [collect_user_activity], after the weekend adjustment. *)
Definition base_users (h wd : Z) : result Z :=
  let base := if business_hours h then 20
              else if evening_peak h then 30
              else 10 in
  if 5 <=? wd
  then int_of_float (fmul (float_of_int base) (float_of_decimal 7 (-1)))
  else Ok base.

(** One pass through the body of [collect_user_activity]: three readings of
    the clock, one draw, and what happens to the writes.  [Raise] is for
    [int], which comes before [active_users] is assigned. *)
Definition collect_user_activity_tick (self : AnalyticsCollector)
    (t1 t2 t3 : datetime) (r : Z) (w : writes) : result AnalyticsCollector :=
  let h := hour t1 in
  let wd := weekday t2 in
  do base <- base_users h wd;
  let users' := base + randint (-5) 5 r in
  let redis' := redis_set w "active_users" (str_of_Z users') (redis_client self) in
  let d := db self in
  let activity' := insert_one w (user_activity d)
    [("timestamp", VDate (bson_date t3)); ("count", VInt users')] in
  Ok (mk_collector redis'
        (mk_database (message_logs d) activity' (api_costs d) (rate_limits d))
        (message_count self) users' (api_cost self) (rate_limit self)).

(** [rate_change] of [collect_rate_limits]. *)
Definition rate_change (h r : Z) : Z :=
  if business_hours h then randint (-3) 1 r
  else if evening_peak h then randint (-5) 0 r
  else randint 0 2 r.

(** One pass through the body of [collect_rate_limits]. *)
Definition collect_rate_limits_tick (self : AnalyticsCollector)
    (t1 t2 : datetime) (r : Z) (w : writes) : AnalyticsCollector :=
  let h := hour t1 in
  let rate_change := rate_change h r in
  let limit' := Z.max 80 (Z.min 100 (rate_limit self + rate_change)) in
  let redis' := redis_set w "rate_limit" (str_of_Z limit') (redis_client self) in
  let d := db self in
  let limits' := insert_one w (rate_limits d)
    [("timestamp", VDate (bson_date t2)); ("remaining", VInt limit')] in
  mk_collector redis'
    (mk_database (message_logs d) (user_activity d) (api_costs d) limits')
    (message_count self) (active_users self) (api_cost self) limit'.

(** [cost_increment] of [collect_api_costs]. *)
Definition cost_increment (h r : Z) : float :=
  if business_hours h
  then uniform (float_of_decimal 5 (-2)) (float_of_decimal 15 (-2)) r
  else if evening_peak h
  then uniform (float_of_decimal 8 (-2)) (float_of_decimal 20 (-2)) r
  else uniform (float_of_decimal 2 (-2)) (float_of_decimal 8 (-2)) r.

Section Collector.

(** [repr] of a float, the text Redis receives for [api_cost]: the shortest
    decimal that reads back as the same float.  It is a parameter of the
    model, and nothing is assumed of it. *)
Variable repr_float : float -> string.

(** One pass through the body of [collect_api_costs]. *)
Definition collect_api_costs_tick (self : AnalyticsCollector)
    (t1 t2 : datetime) (r : Z) (w : writes) : AnalyticsCollector :=
  let h := hour t1 in
  let cost' := fadd (api_cost self) (cost_increment h r) in
  let redis' := redis_set w "api_cost" (repr_float cost') (redis_client self) in
  let d := db self in
  let costs' := insert_one w (api_costs d)
    [("timestamp", VDate (bson_date t2)); ("cost", VFloat cost')] in
  mk_collector redis'
    (mk_database (message_logs d) (user_activity d) costs' (rate_limits d))
    (message_count self) (active_users self) cost' (rate_limit self).

End Collector.

(** The generator loops, over the inputs of their successive passes: the
    readings of the clock, the draw, and what happens to the writes.  After
    an exception the loop goes on from the state the pass left. *)
Definition tick2 : Type := datetime * datetime * Z * writes.
Definition tick3 : Type := datetime * datetime * datetime * Z * writes.

Definition collect_messages (self : AnalyticsCollector) (ticks : list tick2)
  : AnalyticsCollector :=
  fold_left (fun s '(t1, t2, r, w) => collect_messages_tick s t1 t2 r w) ticks self.

Definition collect_user_activity (self : AnalyticsCollector) (ticks : list tick3)
  : AnalyticsCollector :=
  fold_left (fun s '(t1, t2, t3, r, w) =>
               match collect_user_activity_tick s t1 t2 t3 r w with
               | Ok s' => s'
               | Raise _ => s
               end) ticks self.

Definition collect_api_costs (repr_float : float -> string)
    (self : AnalyticsCollector) (ticks : list tick2) : AnalyticsCollector :=
  fold_left (fun s '(t1, t2, r, w) => collect_api_costs_tick repr_float s t1 t2 r w)
            ticks self.

Definition collect_rate_limits (self : AnalyticsCollector) (ticks : list tick2)
  : AnalyticsCollector :=
  fold_left (fun s '(t1, t2, r, w) => collect_rate_limits_tick s t1 t2 r w) ticks self.

(** The four loops run as threads over one collector: a step of the system
    is one pass of one of them, whatever happens to its writes. *)
Inductive step (repr_float : float -> string)
  : AnalyticsCollector -> AnalyticsCollector -> Prop :=
| step_messages s t1 t2 r w :
    step repr_float s (collect_messages_tick s t1 t2 r w)
| step_user_activity s t1 t2 t3 r w s' :
    collect_user_activity_tick s t1 t2 t3 r w = Ok s' ->
    step repr_float s s'
| step_api_costs s t1 t2 r w :
    step repr_float s (collect_api_costs_tick repr_float s t1 t2 r w)
| step_rate_limits s t1 t2 r w :
    step repr_float s (collect_rate_limits_tick s t1 t2 r w).

Inductive reachable (repr_float : float -> string)
  : AnalyticsCollector -> Prop :=
| reachable_init redis d : reachable repr_float (init redis d)
| reachable_step s s' :
    reachable repr_float s -> step repr_float s s' -> reachable repr_float s'.

(** The [cost] field of a document of [api_costs]. *)
Definition cost_field (d : document) : option float :=
  match field "cost" d with
  | Some (VFloat x) => Some x
  | _ => None
  end.

(** The [count] field of a document of [message_logs] or [user_activity]. *)
Definition count_field (d : document) : option Z :=
  match field "count" d with
  | Some (VInt n) => Some n
  | _ => None
  end.

(** The sums [x0 + d1], [x0 + d1 + d2], ... of binary64 numbers, added in
    this order. *)
Fixpoint partial_sums (x0 : float) (ds : list float) : list float :=
  match ds with
  | [] => []
  | d :: ds' => fadd x0 d :: partial_sums (fadd x0 d) ds'
  end.

(** The inputs of the passes of a loop: the increments and the deltas drawn,
    and what happened to the writes. *)
Definition cost_increments (ticks : list tick2) : list float :=
  map (fun '(t1, _, r, _) => cost_increment (hour t1) r) ticks.

Definition message_deltas (ticks : list tick2) : list Z :=
  map (fun '(t1, _, r, _) => messages (hour t1) r) ticks.

Definition outcomes (ticks : list tick2) : list writes :=
  map (fun '(_, _, _, w) => w) ticks.

(** The elements of [l] at the passes that stored their document. *)
Fixpoint stored_only {A} (ws : list writes) (l : list A) : list A :=
  match ws, l with
  | Written :: ws', x :: l' => x :: stored_only ws' l'
  | _ :: ws', _ :: l' => stored_only ws' l'
  | _, _ => []
  end.

Definition fle (x y : float) : Prop := fleb x y = true.

(** ** app.py: the historical store

    The operators of the aggregation pipelines, on BSON dates (milliseconds
    since the epoch, read in UTC). *)

(** [$hour]: 0 to 23. *)
Definition mongo_hour (ms : Z) : Z := (ms / 3600000) mod 24.

(** [$dayOfWeek]: 1 is Sunday, 7 is Saturday. *)
Definition mongo_dayOfWeek (ms : Z) : Z := (ms / 86400000 + 4) mod 7 + 1.

(** Decimal text of [n], padded with zeros on the left to [width] characters. *)
Fixpoint zeros (k : nat) : string :=
  match k with
  | O => ""
  | S k' => String "0" (zeros k')
  end.

Definition pad (width : nat) (n : Z) : string :=
  let s := str_of_Z n in
  zeros (width - String.length s) ++ s.

(** [$dateToString] with the format ["%Y-%m-%d %H:00"]. *)
Definition mongo_dateToString (ms : Z) : string :=
  let '(y, m, d) := civil_from_days (ms / 86400000) in
  pad 4 y ++ "-" ++ pad 2 m ++ "-" ++ pad 2 d ++ " " ++ pad 2 (mongo_hour ms) ++ ":00".

(** An expression applied to the [timestamp] field of a document: [null]
    when the field is missing or is not a date. *)
Definition on_timestamp (f : Z -> value) (d : document) : value :=
  match field "timestamp" d with
  | Some (VDate ms) => f ms
  | _ => VNull
  end.

(** [$match] on [timestamp] between [start_time] and [end_time], as BSON
    dates. *)
Definition in_window (start_time end_time : datetime) (d : document) : bool :=
  match field "timestamp" d with
  | Some (VDate ms) => (bson_date start_time <=? ms) && (ms <=? bson_date end_time)
  | _ => false
  end.

Definition match_window (start_time end_time : datetime)
    (docs : list document) : list document :=
  List.filter (in_window start_time end_time) docs.

(** Equality of stored values (floats by representation). *)
Definition float_eqb (x y : float) : bool :=
  match x, y with
  | S754_zero s, S754_zero s' => Bool.eqb s s'
  | S754_infinity s, S754_infinity s' => Bool.eqb s s'
  | S754_nan, S754_nan => true
  | S754_finite s m e, S754_finite s' m' e' =>
      Bool.eqb s s' && Pos.eqb m m' && Z.eqb e e'
  | _, _ => false
  end.

Fixpoint value_eqb (a b : value) : bool :=
  match a, b with
  | VNull, VNull => true
  | VInt n, VInt n' => Z.eqb n n'
  | VFloat x, VFloat x' => float_eqb x x'
  | VStr s, VStr s' => String.eqb s s'
  | VDate t, VDate t' => Z.eqb t t'
  | VDoc fa, VDoc fb =>
      (fix fields_eqb (l l' : list (string * value)) : bool :=
         match l, l' with
         | [], [] => true
         | (k, v) :: t, (k', v') :: t' =>
             String.eqb k k' && value_eqb v v' && fields_eqb t t'
         | _, _ => false
         end) fa fb
  | _, _ => false
  end.

(** The accumulator of a [$group] stage: [{'$sum': 1}] counts the documents
    of a group, [{'$sum': '$name'}] adds up a field. *)
Inductive sum_expr :=
| SumConst (n : Z)
| SumField (name : string).

Definition eval_sum (a : sum_expr) (d : document) : Z :=
  match a with
  | SumConst n => n
  | SumField name => match field name d with Some (VInt n) => n | _ => 0 end
  end.

Fixpoint bump (k : value) (n : Z) (groups : list (value * Z)) : list (value * Z) :=
  match groups with
  | [] => [(k, n)]
  | (k', c) :: groups' =>
      if value_eqb k k' then (k', c + n) :: groups'
      else (k', c) :: bump k n groups'
  end.

(** [$group] with one accumulator named [count]; the groups come in the
    order of their first document. *)
Definition group (key : document -> value) (acc : sum_expr)
    (docs : list document) : list document :=
  map (fun '(k, c) => [("_id", k); ("count", VInt c)])
      (fold_left (fun groups d => bump (key d) (eval_sum acc d) groups) docs []).

(** The order of [$sort] and of pandas on the values met here: by kind, then
    integers and dates by value and strings byte by byte. *)
Definition value_rank (a : value) : Z :=
  match a with
  | VNull => 0 | VInt _ => 1 | VFloat _ => 1 | VStr _ => 2 | VDoc _ => 3 | VDate _ => 4
  end.

Definition value_leb (a b : value) : bool :=
  match a, b with
  | VInt n, VInt n' => n <=? n'
  | VStr s, VStr s' => match String.compare s s' with Gt => false | _ => true end
  | VDate t, VDate t' => t <=? t'
  | _, _ => value_rank a <=? value_rank b
  end.

Fixpoint insert_by {A} (leb : A -> A -> bool) (x : A) (l : list A) : list A :=
  match l with
  | [] => [x]
  | y :: l' => if leb x y then x :: l else y :: insert_by leb x l'
  end.

Definition sort_by {A} (leb : A -> A -> bool) (l : list A) : list A :=
  fold_right (insert_by leb) [] l.

Definition id_of (d : document) : value :=
  match field "_id" d with Some v => v | None => VNull end.

(** [{'$sort': {'_id': 1}}] *)
Definition sort_by_id (docs : list document) : list document :=
  sort_by (fun d d' => value_leb (id_of d) (id_of d')) docs.

(** ** app.py: pandas and plotly

    A [DataFrame] is its index and its labelled columns.  Cells are compared
    by their value: the embedding does not follow the promotion of a column
    of integers to floats when a missing cell is filled in. *)

Record DataFrame := mk_df {
  df_index : list value;
  df_columns : list (value * list value)
}.

Definition nan : value := VFloat S754_nan.

Definition is_na (v : value) : bool :=
  match v with
  | VNull => true
  | VFloat S754_nan => true
  | _ => false
  end.

Fixpoint mapM {A B} (f : A -> result B) (l : list A) : result (list B) :=
  match l with
  | [] => Ok []
  | x :: l' => do y <- f x; do ys <- mapM f l'; Ok (y :: ys)
  end.

(** The keys of a list of records, in the order of their first appearance. *)
Definition add_keys (seen : list string) (d : document) : list string :=
  fold_left (fun acc '(k, _) =>
               if existsb (String.eqb k) acc then acc else (acc ++ [k])%list)
            d seen.

Definition range_index (n : nat) : list value :=
  map (fun i => VInt (Z.of_nat i)) (seq 0 n).

(** [pd.DataFrame(records)] *)
Definition pd_DataFrame (records : list document) : DataFrame :=
  mk_df (range_index (length records))
        (map (fun k => (VStr k,
                        map (fun d => match field k d with
                                      | Some v => v
                                      | None => nan
                                      end) records))
             (fold_left add_keys records [])).

(** [df.empty] *)
Definition df_empty (df : DataFrame) : bool :=
  match df_index df, df_columns df with
  | [], _ => true
  | _, [] => true
  | _, _ => false
  end.

Fixpoint lookup_col (k : value) (cols : list (value * list value))
  : option (list value) :=
  match cols with
  | [] => None
  | (k', c) :: cols' => if value_eqb k k' then Some c else lookup_col k cols'
  end.

(** [df[k]] *)
Definition getitem (df : DataFrame) (k : string) : result (list value) :=
  match lookup_col (VStr k) (df_columns df) with
  | Some c => Ok c
  | None => Raise (KeyError k)
  end.

Fixpoint replace_col (k : value) (c : list value) (cols : list (value * list value))
  : list (value * list value) :=
  match cols with
  | [] => [(k, c)]
  | (k', c') :: cols' =>
      if value_eqb k k' then (k', c) :: cols' else (k', c') :: replace_col k c cols'
  end.

(** [df[k] = c] *)
Definition setitem (df : DataFrame) (k : string) (c : list value) : DataFrame :=
  mk_df (df_index df) (replace_col (VStr k) c (df_columns df)).

(** [x[k]] for a sub-document [x]. *)
Definition getitem_value (x : value) (k : string) : result value :=
  match x with
  | VDoc fields =>
      match field k fields with
      | Some v => Ok v
      | None => Raise (KeyError k)
      end
  | _ => Raise (TypeError "object is not subscriptable")
  end.

(** Reading a run of decimal digits. *)
Definition digit_of (c : ascii) : option Z :=
  let n := Z.of_nat (nat_of_ascii c) in
  if (48 <=? n) && (n <=? 57) then Some (n - 48) else None.

Fixpoint digits_value (s : string) (acc : Z) : option Z :=
  match s with
  | EmptyString => Some acc
  | String c s' =>
      match digit_of c with
      | Some d => digits_value s' (acc * 10 + d)
      | None => None
      end
  end.

Definition number_at (s : string) (start len : nat) : option Z :=
  let t := substring start len s in
  if Nat.eqb (String.length t) len then digits_value t 0 else None.

(** [pd.to_datetime] on a date, or on a text of the form
    ["YYYY-MM-DD HH:MM"], the only one the callbacks produce. *)
Definition to_datetime (v : value) : result value :=
  match v with
  | VDate ms => Ok (VDate ms)
  | VStr s =>
      match number_at s 0 4, number_at s 5 2, number_at s 8 2,
            number_at s 11 2, number_at s 14 2 with
      | Some y, Some m, Some d, Some hh, Some mm =>
          if Nat.eqb (String.length s) 16
             && String.eqb (substring 4 1 s) "-" && String.eqb (substring 7 1 s) "-"
             && String.eqb (substring 10 1 s) " " && String.eqb (substring 13 1 s) ":"
             && (1 <=? m) && (m <=? 12) && (1 <=? d) && (d <=? 31)
             && (hh <? 24) && (mm <? 60)
          then Ok (VDate (((days_from_civil y m d * 24 + hh) * 60 + mm) * 60000))
          else Raise (ValueError "unknown datetime string format")
      | _, _, _, _, _ => Raise (ValueError "unknown datetime string format")
      end
  | _ => Raise (TypeError "not convertible to datetime")
  end.

Fixpoint remove_col (k : value) (cols : list (value * list value))
  : list (value * list value) :=
  match cols with
  | [] => []
  | (k', c) :: cols' =>
      if value_eqb k k' then cols' else (k', c) :: remove_col k cols'
  end.

(** [df.set_index(k)] *)
Definition set_index (df : DataFrame) (k : string) : result DataFrame :=
  do c <- getitem df k;
  Ok (mk_df c (remove_col (VStr k) (df_columns df))).

Fixpoint dedup (l : list value) : list value :=
  match l with
  | [] => []
  | x :: l' => x :: List.filter (fun y => negb (value_eqb x y)) (dedup l')
  end.

(** The sorted distinct values of a column. *)
Definition sort_uniq (l : list value) : list value := sort_by value_leb (dedup l).

Fixpoint lookup_cell (r c : value) (cells : list (value * value * value)) : value :=
  match cells with
  | [] => nan
  | (r', c', v) :: cells' =>
      if value_eqb r r' && value_eqb c c' then v else lookup_cell r c cells'
  end.

Fixpoint has_duplicate (cells : list (value * value * value)) : bool :=
  match cells with
  | [] => false
  | (r, c, _) :: cells' =>
      existsb (fun '(r', c', _) => value_eqb r r' && value_eqb c c') cells'
      || has_duplicate cells'
  end.

(** [df.pivot(index=i, columns=c, values=v)]: one row per distinct value of
    column [i], one column per distinct value of column [c], both sorted; a
    cell no record fills is NaN. *)
Definition pivot (df : DataFrame) (i c v : string) : result DataFrame :=
  do ri <- getitem df i;
  do rc <- getitem df c;
  do rv <- getitem df v;
  let cells := combine (combine ri rc) rv in
  if has_duplicate cells
  then Raise (ValueError "Index contains duplicate entries, cannot reshape")
  else
    let rows := sort_uniq ri in
    Ok (mk_df rows
              (map (fun cl => (cl, map (fun rw => lookup_cell rw cl cells) rows))
                   (sort_uniq rc))).

(** [df.fillna(x)] *)
Definition fillna (df : DataFrame) (x : value) : DataFrame :=
  mk_df (df_index df)
        (map (fun '(k, c) => (k, map (fun v => if is_na v then x else v) c))
             (df_columns df)).

(** [df.values]: the rows of the frame. *)
Definition df_values (df : DataFrame) : list (list value) :=
  map (fun i => map (fun '(_, c) => nth i c nan) (df_columns df))
      (seq 0 (length (df_index df))).

(** A plotly figure is its traces; the layout of the four figures is fixed
    and is left out. *)
Inductive trace :=
| Scatter (x y : list value)
| Heatmap (z : list (list value)) (x y : list string).

Definition Figure := list trace.

(** ** app.py: the chart callbacks *)

Definition from_micros (us : Z) : datetime :=
  let '(y, m, d) := civil_from_days (us / 86400000000) in
  let r := us mod 86400000000 in
  mk_datetime y m d (r / 3600000000) ((r / 60000000) mod 60)
              ((r / 1000000) mod 60) (r mod 1000000).

(** [t - timedelta(hours=h)] *)
Definition sub_hours (t : datetime) (h : Z) : datetime :=
  from_micros (to_micros t - h * 3600000000).

(** The pipeline of [update_message_volume], with its accumulator. *)
Definition message_volume_pipeline (acc : sum_expr)
    (start_time end_time : datetime) (collection : list document)
  : list document :=
  sort_by_id
    (group (on_timestamp (fun ms => VStr (mongo_dateToString ms))) acc
           (match_window start_time end_time collection)).

Definition update_message_volume (d : database) (now : datetime) : result Figure :=
  let collection := message_logs d in
  let end_time := now in
  let start_time := sub_hours end_time 24 in
  let results := message_volume_pipeline (SumConst 1) start_time end_time collection in
  let df := pd_DataFrame results in
  do df <- (if negb (df_empty df)
            then do ids <- getitem df "_id";
                 do ids' <- mapM to_datetime ids;
                 set_index (setitem df "_id" ids') "_id"
            else Ok df);
  let x := df_index df in
  do y <- getitem df "count";
  Ok [Scatter x y].

(** [collection.find({'timestamp': ...}).sort('timestamp', 1)] *)
Definition timestamp_of (d : document) : value :=
  match field "timestamp" d with Some v => v | None => VNull end.

Definition find_window (start_time end_time : datetime)
    (collection : list document) : list document :=
  sort_by (fun d d' => value_leb (timestamp_of d) (timestamp_of d'))
          (match_window start_time end_time collection).

(** The body shared by [update_cost_chart] and [update_rate_limit_chart]. *)
Definition raw_series_chart (collection : list document) (column : string)
    (now : datetime) : result Figure :=
  let end_time := now in
  let start_time := sub_hours end_time 24 in
  let results := find_window start_time end_time collection in
  let df := pd_DataFrame results in
  do df <- (if negb (df_empty df)
            then do ts <- getitem df "timestamp";
                 do ts' <- mapM to_datetime ts;
                 set_index (setitem df "timestamp" ts') "timestamp"
            else Ok df);
  let x := df_index df in
  do y <- getitem df column;
  Ok [Scatter x y].

Definition update_cost_chart (d : database) (now : datetime) : result Figure :=
  raw_series_chart (api_costs d) "cost" now.

Definition update_rate_limit_chart (d : database) (now : datetime) : result Figure :=
  raw_series_chart (rate_limits d) "remaining" now.

Definition day_labels : list string :=
  ["Mon"; "Tue"; "Wed"; "Thu"; "Fri"; "Sat"; "Sun"].

Definition hour_labels : list string :=
  map (fun h => pad 2 (Z.of_nat h) ++ ":00") (seq 0 24).

(** The pipeline of [update_activity_heatmap], with its accumulator. *)
Definition heatmap_pipeline (acc : sum_expr)
    (start_time end_time : datetime) (collection : list document)
  : list document :=
  group (fun d => VDoc [("hour", on_timestamp (fun ms => VInt (mongo_hour ms)) d);
                        ("day", on_timestamp (fun ms => VInt (mongo_dayOfWeek ms)) d)])
        acc
        (match_window start_time end_time collection).

Definition update_activity_heatmap (d : database) (now : datetime) : result Figure :=
  let collection := user_activity d in
  let end_time := now in
  let start_time := sub_hours end_time 24 in
  let results := heatmap_pipeline (SumConst 1) start_time end_time collection in
  let df := pd_DataFrame results in
  do df <- (if negb (df_empty df)
            then do ids <- getitem df "_id";
                 do hours <- mapM (fun x => getitem_value x "hour") ids;
                 let df := setitem df "hour" hours in
                 do ids <- getitem df "_id";
                 do days <- mapM (fun x => getitem_value x "day") ids;
                 let df := setitem df "day" days in
                 do df <- pivot df "hour" "day" "count";
                 Ok (fillna df (VInt 0))
            else Ok df);
  Ok [Heatmap (df_values df) day_labels hour_labels].

(** ** app.py: the snapshot formatter *)

(** A value read from Redis, or the integer default that replaces it. *)
Inductive pyobj :=
| PBytes (s : string)
| PInt (n : Z).

(** [redis_client.get(k) or default]: the default replaces a missing key
    and an empty value. *)
Definition get_or (redis : gmap string string) (k : string) (default : Z) : pyobj :=
  match redis !! k with
  | Some EmptyString => PInt default
  | Some s => PBytes s
  | None => PInt default
  end.

Definition is_space (c : ascii) : bool :=
  let n := nat_of_ascii c in
  Nat.eqb n 32 || (Nat.leb 9 n && Nat.leb n 13).

Fixpoint lstrip (s : string) : string :=
  match s with
  | String c s' => if is_space c then lstrip s' else s
  | EmptyString => EmptyString
  end.

Fixpoint rev_string (s acc : string) : string :=
  match s with
  | EmptyString => acc
  | String c s' => rev_string s' (String c acc)
  end.

Definition strip (s : string) : string :=
  rev_string (lstrip (rev_string (lstrip s) "")) "".

(** A run of digits in which single underscores may separate digits: its
    value and its number of digits.  [pending] tells that an underscore was
    just read. *)
Fixpoint digit_run (s : string) (acc : Z) (count : nat) (pending : bool)
  : option (Z * nat) :=
  match s with
  | EmptyString => if pending then None else Some (acc, count)
  | String c s' =>
      match digit_of c with
      | Some d => digit_run s' (acc * 10 + d) (S count) false
      | None =>
          if Ascii.eqb c "_" && negb pending && negb (Nat.eqb count 0)
          then digit_run s' acc count true
          else None
      end
  end.

(** The sign of a numeral and what follows it. *)
Definition split_sign (s : string) : bool * string :=
  match s with
  | String "-" s' => (true, s')
  | String "+" s' => (false, s')
  | _ => (false, s)
  end.

Definition invalid_int : exn := ValueError "invalid literal for int() with base 10".
Definition invalid_float : exn := ValueError "could not convert string to float".

(** [int(x)] on what [get_or] returns.  The limit of Python 3.11 on the
    number of digits of the text (4300 by default) is not modelled. *)
Definition py_int (x : pyobj) : result Z :=
  match x with
  | PInt n => Ok n
  | PBytes s =>
      let '(neg, body) := split_sign (strip s) in
      match digit_run body 0 0 false with
      | Some (n, S _) => Ok (if neg then - n else n)
      | _ => Raise invalid_int
      end
  end.

(** [s] cut at the first character that satisfies [p]: the part before it,
    and the part after it when there is one. *)
Fixpoint cut_at (p : ascii -> bool) (s : string) : string * option string :=
  match s with
  | EmptyString => (EmptyString, None)
  | String c s' =>
      if p c then (EmptyString, Some s')
      else let '(a, b) := cut_at p s' in (String c a, b)
  end.

Definition lower (c : ascii) : ascii :=
  let n := nat_of_ascii c in
  if Nat.leb 65 n && Nat.leb n 90 then ascii_of_nat (n + 32) else c.

Fixpoint lower_string (s : string) : string :=
  match s with
  | EmptyString => EmptyString
  | String c s' => String (lower c) (lower_string s')
  end.

(** A possibly empty run of digits. *)
Definition digit_run_opt (s : string) : option (Z * nat) :=
  match s with
  | EmptyString => Some (0, O)
  | _ => digit_run s 0 0 false
  end.

(** The decimal numeral [int_part.frac_part e exponent], without its sign. *)
Definition decimal_numeral (s : string) : option (Z * Z) :=
  let '(mant, expo) := cut_at (fun c => Ascii.eqb (lower c) "e") s in
  let '(ipart, fpart) := cut_at (fun c => Ascii.eqb c ".") mant in
  match digit_run_opt ipart,
        digit_run_opt (match fpart with Some f => f | None => EmptyString end) with
  | Some (i, ni), Some (f, nf) =>
      if Nat.eqb (ni + nf) 0 then None
      else
        let D := i * 10 ^ Z.of_nat nf + f in
        match expo with
        | None => Some (D, - Z.of_nat nf)
        | Some e =>
            let '(eneg, ebody) := split_sign e in
            match digit_run ebody 0 0 false with
            | Some (x, S _) => Some (D, (if eneg then - x else x) - Z.of_nat nf)
            | _ => None
            end
        end
  | _, _ => None
  end.

(** [float(x)] on what [get_or] returns. *)
Definition py_float (x : pyobj) : result float :=
  match x with
  | PInt n => Ok (float_of_int n)
  | PBytes s =>
      let '(neg, body) := split_sign (strip s) in
      let word := lower_string body in
      if String.eqb word "inf" || String.eqb word "infinity"
      then Ok (S754_infinity neg)
      else if String.eqb word "nan" then Ok S754_nan
      else
        match decimal_numeral body with
        | Some (0, _) => Ok (S754_zero neg)
        | Some (D, E) =>
            Ok (if neg then SFopp (float_of_decimal D E) else float_of_decimal D E)
        | None => Raise invalid_float
        end
  end.

(** [f"{n:,}"]: a comma before every group of three digits but the first. *)
Fixpoint add_commas (digits : string) : string :=
  match digits with
  | EmptyString => EmptyString
  | String c rest =>
      String c (if Nat.eqb (String.length rest mod 3) 0
                   && negb (Nat.eqb (String.length rest) 0)
                then String "," (add_commas rest)
                else add_commas rest)
  end.

Definition format_comma (n : Z) : string :=
  if n <? 0 then String "-" (add_commas (str_of_nonneg (- n)))
  else add_commas (str_of_nonneg n).

(** The integer nearest to [100 * m * 2^e], ties to even. *)
Definition round_hundredths (m : positive) (e : Z) : Z :=
  if 0 <=? e then Z.pos m * 2 ^ e * 100
  else
    let q := (Z.pos m * 100) / 2 ^ (- e) in
    let r := (Z.pos m * 100) mod 2 ^ (- e) in
    let half := 2 ^ (- e - 1) in
    if (half <? r) || ((r =? half) && Z.odd q) then q + 1 else q.

(** [f"{x:.2f}"] *)
Definition format_2f (x : float) : string :=
  match x with
  | S754_nan => "nan"
  | S754_infinity s => if s then "-inf" else "inf"
  | S754_zero s => if s then "-0.00" else "0.00"
  | S754_finite s m e =>
      let n := round_hundredths m e in
      (if s then "-" else "") ++ str_of_nonneg (n / 100) ++ "." ++ pad 2 (n mod 100)
  end.

Definition update_stats (redis : gmap string string) : result (list string) :=
  let total_messages := get_or redis "total_messages" 0 in
  let active_users := get_or redis "active_users" 0 in
  let api_cost := get_or redis "api_cost" 0 in
  let rate_limit := get_or redis "rate_limit" 100 in
  do a <- py_int total_messages;
  do b <- py_int active_users;
  do c <- py_float api_cost;
  do d <- py_int rate_limit;
  Ok [format_comma a; format_comma b; "$" ++ format_2f c; str_of_Z d ++ "%"].

(** ** Reading a heatmap

    Plotly draws the cell [z[i][j]] at the [j]-th label of [x] and the
    [i]-th label of [y]. *)

Definition is_zero (v : value) : bool :=
  match v with
  | VInt 0 => true
  | VFloat (S754_zero _) => true
  | _ => false
  end.

(** The labels [(x, y)] of the cells of a grid that hold a non-zero value. *)
Definition nonzero_cells (z : list (list value)) (x y : list string)
  : list (string * string) :=
  concat
    (map (fun '(i, row) =>
            concat
              (map (fun '(j, v) =>
                      if is_zero v then []
                      else [(nth j x "", nth i y "")])
                   (combine (seq 0 (length row)) row)))
         (combine (seq 0 (length z)) z)).

(** The shape of a grid: its number of rows and the lengths of its rows. *)
Definition grid_shape (z : list (list value)) : nat * list nat :=
  (length z, map (@length value) z).

(** The labels a sample taken at [t] belongs to: its day of the week,
    Monday first, and its hour. *)
Definition expected_labels (t : datetime) : string * string :=
  (nth (Z.to_nat (weekday t)) day_labels "", pad 2 (hour t) ++ ":00").

Definition sample (t : datetime) (count : Z) : document :=
  [("timestamp", VDate (bson_date t)); ("count", VInt count)].

Definition empty_db : database := mk_database [] [] [] [].

(** What the fast store holds for a key: nothing, or the text the generator
    writes for the value. *)
Definition stored_int (redis : gmap string string) (k : string)
    (default n : Z) : Prop :=
  (redis !! k = None /\ n = default) \/ redis !! k = Some (str_of_Z n).

(** The text [a.frac] of a non-negative decimal number, as [str] writes a
    float between 0.0001 and 1e16. *)
Definition fixed_text (a : Z) (frac : string) : string :=
  str_of_nonneg a ++ "." ++ frac.

(** What the fast store holds for [api_cost]: nothing, or the text
    [a.frac] of a decimal number; [x] is the binary64 number nearest to
    it. *)
Definition stored_cost (redis : gmap string string) (x : float) : Prop :=
  (redis !! "api_cost" = None /\ x = S754_zero false) \/
  exists a frac f,
    redis !! "api_cost" = Some (fixed_text a frac) /\
    0 <= a /\ frac <> EmptyString /\ digits_value frac 0 = Some f /\
    x = float_of_decimal (a * 10 ^ Z.of_nat (String.length frac) + f)
                         (- Z.of_nat (String.length frac)).

Fixpoint all_digits (s : string) : bool :=
  match s with
  | EmptyString => true
  | String c s' =>
      match digit_of c with Some _ => all_digits s' | None => false end
  end.

Fixpoint remove_commas (s : string) : string :=
  match s with
  | EmptyString => EmptyString
  | String c s' => if Ascii.eqb c "," then remove_commas s' else String c (remove_commas s')
  end.

Fixpoint no_space (s : string) : bool :=
  match s with
  | EmptyString => true
  | String c s' => negb (is_space c) && no_space s'
  end.

Definition is_digit (c : ascii) : bool :=
  match digit_of c with Some _ => true | None => false end.

(** Texts of the form [(,ddd)*], and of the form [d{1,3}(,ddd)*]. *)
Fixpoint groups_of_three (s : string) : bool :=
  match s with
  | EmptyString => true
  | String c0 (String a (String b (String c rest))) =>
      Ascii.eqb c0 "," && is_digit a && is_digit b && is_digit c
      && groups_of_three rest
  | _ => false
  end.

Definition well_grouped (s : string) : bool :=
  match s with
  | String a rest =>
      is_digit a
      && (groups_of_three rest
          || match rest with
             | String b rest2 =>
                 is_digit b
                 && (groups_of_three rest2
                     || match rest2 with
                        | String c rest3 => is_digit c && groups_of_three rest3
                        | EmptyString => false
                        end)
             | EmptyString => false
             end)
  | EmptyString => false
  end.

(** ** Checking a range of integers

    [all_from p n z] tests [p] on the [n] integers from [z] on. *)
Fixpoint all_from (p : Z -> bool) (fuel : nat) (z : Z) : bool :=
  match fuel with
  | O => true
  | S fuel' => p z && all_from p fuel' (z + 1)
  end.

(** A [datetime] whose time of day is in range. *)
Definition time_in_range (t : datetime) : Prop :=
  0 <= hour t < 24 /\ 0 <= minute t < 60 /\ 0 <= second t < 60 /\
  0 <= microsecond t < 1000000.

(** The [remaining] field of a document of [rate_limits]. *)
Definition remaining_field (d : document) : option Z :=
  match field "remaining" d with
  | Some (VInt n) => Some n
  | _ => None
  end.

(** The [timestamp] field of a document, in milliseconds. *)
Definition timestamp_ms (d : document) : option Z :=
  match field "timestamp" d with
  | Some (VDate ms) => Some ms
  | _ => None
  end.

(** The documents a run of [collect_messages] appends: those of the passes
    whose writes returned. *)
Definition message_documents (ticks : list tick2) : list document :=
  flat_map (fun '(t1, t2, r, w) =>
              insert_one w []
                [("timestamp", VDate (bson_date t2));
                 ("count", VInt (messages (hour t1) r))]) ticks.

(** The base of [collect_user_activity] at hour [h]. *)
Definition base_of_hour (h : Z) : Z :=
  if business_hours h then 20 else if evening_peak h then 30 else 10.

(** Whether a document has the field [k], and the cell pandas makes of the
    field: NaN when the document does not have it. *)
Definition has_field (k : string) (d : document) : bool :=
  match field k d with Some _ => true | None => false end.

Definition cell_of (k : string) (d : document) : value :=
  match field k d with Some v => v | None => nan end.

(** The start of the hour of a BSON date. *)
Definition hour_start (ms : Z) : Z := ms / 3600000 * 3600000.

(** Whether the year of a BSON date is one [$dateToString] writes with four
    digits. *)
Definition four_digit_year (ms : Z) : bool :=
  let '(y, _, _) := civil_from_days (ms / 86400000) in (0 <=? y) && (y <=? 9999).

(** Whether [pad width n] is [width] digits that read back as [n]. *)
Definition padded_ok (width : nat) (n : Z) : bool :=
  let s := pad width n in
  Nat.eqb (String.length s) width
  && match digits_value s 0 with Some v => v =? n | None => false end.
(** The key of the hourly buckets of [update_message_volume]. *)
Definition hour_label (d : document) : value :=
  on_timestamp (fun ms => VStr (mongo_dateToString ms)) d.

(** The number of documents of [docs] whose key is [k]. *)
Definition count_key (key : document -> value) (k : value)
    (docs : list document) : Z :=
  Z.of_nat (length (List.filter (fun d => value_eqb (key d) k) docs)).

(** What the groups hold for the key [k], and for all keys together. *)
Fixpoint tally (k : value) (groups : list (value * Z)) : Z :=
  match groups with
  | [] => 0
  | (k', c) :: groups' => (if value_eqb k' k then c else 0) + tally k groups'
  end.

Definition total (groups : list (value * Z)) : Z :=
  fold_right Z.add 0 (map snd groups).

(** The documents a [$group] stage makes of its groups. *)
Definition group_documents (groups : list (value * Z)) : list document :=
  map (fun '(k, c) => [("_id", k); ("count", VInt c)]) groups.

(** Whether a document is a sample of the hour that starts at [h]. *)
Definition in_hour (h : Z) (d : document) : bool :=
  match timestamp_ms d with
  | Some ms => hour_start ms =? h
  | None => false
  end.

(** The key of the group of the samples of hour [h] on day [w], and whether
    a document is such a sample. *)
Definition cell_key (h w : Z) : value := VDoc [("hour", VInt h); ("day", VInt w)].

Definition in_cell (h w : Z) (d : document) : bool :=
  match timestamp_ms d with
  | Some ms => (mongo_hour ms =? h) && (mongo_dayOfWeek ms =? w)
  | None => false
  end.

(* ===================================================================== *)
(** * Properties *)
(* ===================================================================== *)

(** ** Integer draws *)

Lemma randint_range (a b r : Z) : a <= b -> a <= randint a b r <= b.
Proof.
  intros Hab. unfold randint, randbelow.
  pose proof (Z.mod_pos_bound r (b - a + 1)). lia.
Qed.

Lemma weekday_range (t : datetime) : 0 <= weekday t <= 6.
Proof. unfold weekday. pose proof (Z.mod_pos_bound (days_from_civil (year t) (month t) (day t) + 3) 7). lia. Qed.

(** A successful pass of [collect_user_activity], read back. *)
Ltac invert_user_tick H :=
  unfold collect_user_activity_tick in H;
  match type of H with
  | context [base_users ?h ?wd] =>
      destruct (base_users h wd); cbn [rbind] in H;
      [injection H as <- | discriminate H]
  end.

Lemma base_users_cases (h wd : Z) :
  exists b, base_users h wd = Ok b /\ 7 <= b <= 30.
Proof.
  unfold base_users.
  destruct (5 <=? wd); destruct (business_hours h); destruct (evening_peak h);
    eexists; (split; [vm_compute; reflexivity | lia]).
Qed.

(** ** Rounding to nearest in [SpecFloat]

    The result of [binary_round] lies between the representable numbers
    around the exact value: no representable number below the value is above
    the result, none above the value is below it.  Values are compared as
    integers, in units of [2^g] for a [g] below every exponent at hand. *)

Section Rounding.
Variables prec emax : Z.
Hypothesis prec_gt_0 : 0 < prec.
Hypothesis prec_lt_emax : prec < emax.

Local Abbreviation emin := (SpecFloat.emin prec emax).
Local Abbreviation fexp := (SpecFloat.fexp prec emax).
Local Abbreviation round_tail := (round_tail prec emax).

Lemma digits2_bounds (p : positive) :
  2 ^ (Z.pos (digits2_pos p) - 1) <= Z.pos p < 2 ^ Z.pos (digits2_pos p).
Proof.
  induction p as [p IH | p IH | ]; cbn [digits2_pos].
  - rewrite Pos2Z.inj_succ.
    replace (Z.succ (Z.pos (digits2_pos p)) - 1) with (Z.succ (Z.pos (digits2_pos p) - 1)) by lia.
    rewrite !Z.pow_succ_r by lia. lia.
  - rewrite Pos2Z.inj_succ.
    replace (Z.succ (Z.pos (digits2_pos p)) - 1) with (Z.succ (Z.pos (digits2_pos p) - 1)) by lia.
    rewrite !Z.pow_succ_r by lia. lia.
  - cbn. lia.
Qed.

Lemma digits2_unique (p : positive) (k : Z) :
  2 ^ (k - 1) <= Z.pos p < 2 ^ k -> Z.pos (digits2_pos p) = k.
Proof.
  intros [Hlo Hhi]. pose proof (digits2_bounds p) as [Dlo Dhi].
  assert (0 < k) as Hk.
  { destruct (Z.lt_trichotomy k 0) as [Hn | [Hz | Hp]]; [| | exact Hp].
    - rewrite Z.pow_neg_r in Hhi by lia. lia.
    - subst k. cbn in Hhi. lia. }
  destruct (Z.lt_trichotomy (Z.pos (digits2_pos p)) k) as [Hlt | [Heq | Hgt]]; [| exact Heq |].
  - assert (2 ^ Z.pos (digits2_pos p) <= 2 ^ (k - 1)) by (apply Z.pow_le_mono_r; lia). lia.
  - assert (2 ^ k <= 2 ^ (Z.pos (digits2_pos p) - 1)) by (apply Z.pow_le_mono_r; lia). lia.
Qed.

Lemma digits2_ge (p : positive) (k : Z) :
  2 ^ (k - 1) <= Z.pos p -> k <= Z.pos (digits2_pos p).
Proof.
  intros Hlo. pose proof (digits2_bounds p) as [_ Dhi].
  destruct (Z.le_gt_cases k (Z.pos (digits2_pos p))) as [H | H]; [exact H |].
  assert (2 ^ Z.pos (digits2_pos p) <= 2 ^ (k - 1)) by (apply Z.pow_le_mono_r; lia). lia.
Qed.

Lemma digits2_le (p : positive) (k : Z) :
  0 <= k -> Z.pos p < 2 ^ k -> Z.pos (digits2_pos p) <= k.
Proof.
  intros Hk Hhi. pose proof (digits2_bounds p) as [Dlo _].
  destruct (Z.le_gt_cases (Z.pos (digits2_pos p)) k) as [H | H]; [exact H |].
  assert (2 ^ k <= 2 ^ (Z.pos (digits2_pos p) - 1)) by (apply Z.pow_le_mono_r; lia). lia.
Qed.

(** Shifting right, one bit at a time. *)
Lemma iter_pos_nat {A} (f : A -> A) (n : positive) (x : A) :
  @SpecFloat.iter_pos A f n x = @Nat.iter (Pos.to_nat n) _ f x.
Proof.
  revert x. induction n as [n IH | n IH | ]; intros x; cbn [SpecFloat.iter_pos].
  - rewrite !IH. rewrite Pos2Nat.inj_xI.
    replace (S (2 * Pos.to_nat n))%nat with (Pos.to_nat n + (Pos.to_nat n + 1))%nat by lia.
    rewrite !Nat.iter_add. reflexivity.
  - rewrite !IH. rewrite Pos2Nat.inj_xO.
    replace (2 * Pos.to_nat n)%nat with (Pos.to_nat n + Pos.to_nat n)%nat by lia.
    rewrite Nat.iter_add. reflexivity.
  - reflexivity.
Qed.

Lemma shr_1_m (mrs : shr_record) :
  0 <= shr_m mrs -> shr_m (shr_1 mrs) = shr_m mrs / 2.
Proof.
  destruct mrs as [m r s]. cbn [shr_m]. intros Hm.
  destruct m as [| [p | p |] | p]; cbn [shr_1 shr_m];
    Z.div_mod_to_equations; lia.
Qed.

Lemma shr_1_exact (mrs : shr_record) :
  0 <= shr_m mrs -> shr_r mrs = false -> shr_s mrs = false ->
  shr_m mrs mod 2 = 0 ->
  shr_r (shr_1 mrs) = false /\ shr_s (shr_1 mrs) = false.
Proof.
  destruct mrs as [m r s]. cbn [shr_m shr_r shr_s]. intros Hm -> -> Heven.
  destruct m as [| [p | p |] | p]; cbn [shr_1 shr_r shr_s orb];
    try (split; reflexivity); exfalso; Z.div_mod_to_equations; lia.
Qed.

Lemma iter_shr_1 (k : nat) (mrs : shr_record) :
  0 <= shr_m mrs ->
  shr_m (@Nat.iter k _ shr_1 mrs) = shr_m mrs / 2 ^ Z.of_nat k /\
  (shr_r mrs = false -> shr_s mrs = false ->
   shr_m mrs mod 2 ^ Z.of_nat k = 0 ->
   shr_r (@Nat.iter k _ shr_1 mrs) = false /\ shr_s (@Nat.iter k _ shr_1 mrs) = false).
Proof.
  intros Hm. induction k as [| k [IHm IHe]].
  - cbn [Nat.iter]. change (2 ^ Z.of_nat 0) with 1. rewrite Z.div_1_r. auto.
  - rewrite !Nat.iter_succ.
    assert (0 <= shr_m (@Nat.iter k _ shr_1 mrs)) as Hk.
    { rewrite IHm. apply Z.div_pos; [exact Hm | apply Z.pow_pos_nonneg; lia]. }
    assert (0 < 2 ^ Z.of_nat k) as Hpow by (apply Z.pow_pos_nonneg; lia).
    rewrite Nat2Z.inj_succ, Z.pow_succ_r by lia.
    split.
    + rewrite shr_1_m by exact Hk. rewrite IHm.
      rewrite Z.div_div by lia. f_equal. lia.
    + intros Hr Hs Hmod.
      assert (shr_m mrs mod 2 ^ Z.of_nat k = 0) as Hmodk.
      { apply Z.mod_divide in Hmod; [| lia]. destruct Hmod as [q Hq].
        apply Z.mod_divide; [lia |]. exists (q * 2). lia. }
      destruct (IHe Hr Hs Hmodk) as [Hr' Hs'].
      apply shr_1_exact; auto.
      rewrite IHm.
      apply Z.mod_divide in Hmod; [| lia]. destruct Hmod as [q Hq].
      rewrite Hq.
      replace (q * (2 * 2 ^ Z.of_nat k)) with ((q * 2) * 2 ^ Z.of_nat k) by lia.
      rewrite Z.div_mul by lia.
      rewrite Z.mul_comm, Z.mul_comm. apply Z.mod_mul. lia.
Qed.


Lemma shr_spec (mrs : shr_record) (e n : Z) :
  0 <= shr_m mrs ->
  snd (shr mrs e n) = e + Z.max 0 n /\
  shr_m (fst (shr mrs e n)) = shr_m mrs / 2 ^ Z.max 0 n /\
  (shr_r mrs = false -> shr_s mrs = false ->
   shr_m mrs mod 2 ^ Z.max 0 n = 0 ->
   shr_r (fst (shr mrs e n)) = false /\ shr_s (fst (shr mrs e n)) = false).
Proof.
  intros Hm. destruct n as [| n | n]; cbn [shr fst snd].
  - change (Z.max 0 0) with 0. change (2 ^ 0) with 1.
    rewrite Z.div_1_r. repeat split; auto; lia.
  - rewrite iter_pos_nat.
    replace (Z.max 0 (Z.pos n)) with (Z.of_nat (Pos.to_nat n)) by lia.
    destruct (iter_shr_1 (Pos.to_nat n) mrs Hm) as [H1 H2].
    repeat split; auto; try lia; apply H2; auto.
  - replace (Z.max 0 (Z.neg n)) with 0 by lia. change (2 ^ 0) with 1.
    rewrite Z.div_1_r. repeat split; auto; lia.
Qed.

Lemma round_nearest_even_cases (m : Z) (l : location) :
  round_nearest_even m l = m \/ round_nearest_even m l = m + 1.
Proof.
  destruct l as [| []]; cbn [round_nearest_even]; auto.
  destruct (Z.even m); auto.
Qed.

Lemma emin_le_fexp (x : Z) : emin <= fexp x.
Proof. unfold SpecFloat.fexp. lia. Qed.

Lemma round_tail_zero (e1 : Z) : emin <= e1 -> round_tail 0 e1 = S754_zero false.
Proof.
  intros He. unfold round_tail, shr_fexp. cbn [Zdigits2 shr_record_of_loc].
  assert (SpecFloat.fexp prec emax (0 + e1) - e1 <= 0) as Hn
    by (unfold SpecFloat.fexp; lia).
  destruct (SpecFloat.fexp prec emax (0 + e1) - e1) as [| n | n];
    [reflexivity | lia | reflexivity].
Qed.

Lemma round_tail_small (m1 : positive) (e1 : Z) :
  emin <= e1 -> Z.pos m1 < 2 ^ prec ->
  round_tail (Z.pos m1) e1 =
    if e1 <=? emax - prec then S754_finite false m1 e1 else S754_infinity false.
Proof.
  intros He Hm. unfold round_tail, shr_fexp. cbn [Zdigits2 shr_record_of_loc].
  pose proof (digits2_le m1 prec ltac:(lia) Hm) as Hd.
  assert (SpecFloat.fexp prec emax (Z.pos (digits2_pos m1) + e1) - e1 <= 0) as Hn
    by (unfold SpecFloat.fexp; lia).
  destruct (SpecFloat.fexp prec emax (Z.pos (digits2_pos m1) + e1) - e1) as [| n | n];
    [reflexivity | lia | reflexivity].
Qed.

Lemma round_tail_carry (m1 : positive) (e1 : Z) :
  emin <= e1 -> Z.pos m1 = 2 ^ prec ->
  round_tail (Z.pos m1) e1 =
    if e1 + 1 <=? emax - prec
    then S754_finite false (Z.to_pos (2 ^ (prec - 1))) (e1 + 1)
    else S754_infinity false.
Proof.
  intros He Hm. unfold round_tail, shr_fexp. cbn [Zdigits2 shr_record_of_loc].
  assert (Z.pos (digits2_pos m1) = prec + 1) as Hd.
  { apply digits2_unique. rewrite Hm. replace (prec + 1 - 1) with prec by lia.
    split; [lia |]. apply Z.pow_lt_mono_r; lia. }
  rewrite Hd.
  replace (SpecFloat.fexp prec emax (prec + 1 + e1) - e1) with 1
    by (unfold SpecFloat.fexp; lia).
  cbn [shr SpecFloat.iter_pos fst snd].
  assert (2 ^ prec = 2 * 2 ^ (prec - 1)) as Hp.
  { rewrite <- Z.pow_succ_r by lia. f_equal. lia. }
  assert (0 < 2 ^ (prec - 1)) as Hpos by (apply Z.pow_pos_nonneg; lia).
  destruct m1 as [m1 | m1 |]; cbn [shr_1 shr_m]; try lia.
  replace (Z.to_pos (2 ^ (prec - 1))) with m1 by lia.
  reflexivity.
Qed.


Lemma binary_round_aux_struct (p : positive) (e : Z) :
  e <= fexp (Z.pos (digits2_pos p) + e) ->
  exists m1,
    (m1 = Z.pos p / 2 ^ (fexp (Z.pos (digits2_pos p) + e) - e) \/
     (m1 = Z.pos p / 2 ^ (fexp (Z.pos (digits2_pos p) + e) - e) + 1 /\
      Z.pos p mod 2 ^ (fexp (Z.pos (digits2_pos p) + e) - e) <> 0)) /\
    binary_round_aux prec emax false (Z.pos p) e loc_Exact =
      round_tail m1 (fexp (Z.pos (digits2_pos p) + e)).
Proof.
  intros HA.
  set (n := fexp (Z.pos (digits2_pos p) + e) - e).
  unfold binary_round_aux, round_tail.
  unfold shr_fexp at 1. cbn [Zdigits2 shr_record_of_loc]. fold n.
  destruct (shr_spec {| shr_m := Z.pos p; shr_r := false; shr_s := false |} e n)
    as (He' & Hm' & Hex); [cbn; lia |].
  destruct (shr {| shr_m := Z.pos p; shr_r := false; shr_s := false |} e n)
    as [mrs' e'] eqn:Hshr.
  cbn [fst snd shr_m shr_r shr_s] in He', Hm', Hex.
  replace (Z.max 0 n) with n in * by lia.
  replace e' with (fexp (Z.pos (digits2_pos p) + e)) by lia.
  exists (round_nearest_even (shr_m mrs') (loc_of_shr_record mrs')).
  split; [| reflexivity].
  destruct (Z.eq_dec (Z.pos p mod 2 ^ n) 0) as [Hz | Hnz].
  - destruct (Hex eq_refl eq_refl Hz) as [Hr Hs].
    destruct mrs' as [m' r' s']. cbn [shr_m shr_r shr_s] in *. subst r' s'.
    cbn. left. exact Hm'.
  - destruct (round_nearest_even_cases (shr_m mrs') (loc_of_shr_record mrs')) as [H | H];
      rewrite H, Hm'; [left; reflexivity | right; split; [reflexivity | exact Hnz]].
Qed.

Lemma first_stage_bounds (p : positive) (e : Z) :
  e <= fexp (Z.pos (digits2_pos p) + e) ->
  let e1 := fexp (Z.pos (digits2_pos p) + e) in
  let n := e1 - e in
  let m := Z.pos p / 2 ^ n in
  0 <= m < 2 ^ prec /\ emin <= e1 /\
  (emin < e1 -> 2 ^ (prec - 1) <= m) /\
  m * 2 ^ n <= Z.pos p < (m + 1) * 2 ^ n.
Proof.
  intros HA e1 n m.
  pose proof (digits2_bounds p) as [Dlo Dhi].
  set (d := Z.pos (digits2_pos p)) in *.
  assert (0 < d) as Hd by (unfold d; lia).
  assert (0 <= n) as Hn by (unfold n, e1; lia).
  assert (0 < 2 ^ n) as Hpn by (apply Z.pow_pos_nonneg; lia).
  assert (emin <= e1) as He1 by apply emin_le_fexp.
  assert (d - prec <= n) as Hdn by (unfold n, e1, SpecFloat.fexp; lia).
  assert (m * 2 ^ n <= Z.pos p < (m + 1) * 2 ^ n) as Hdiv.
  { unfold m. pose proof (Z.div_mod (Z.pos p) (2 ^ n) ltac:(lia)).
    pose proof (Z.mod_pos_bound (Z.pos p) (2 ^ n) Hpn). nia. }
  assert (0 <= m) as Hm0 by (apply Z.div_pos; lia).
  repeat split; try tauto; try lia.
  - (* m < 2^prec *)
    destruct (Z.le_gt_cases d n) as [Hle | Hgt].
    + assert (2 ^ d <= 2 ^ n) by (apply Z.pow_le_mono_r; lia).
      assert (m = 0) by (apply Z.div_small; lia).
      assert (0 < 2 ^ prec) by (apply Z.pow_pos_nonneg; lia). lia.
    + apply Z.div_lt_upper_bound; [lia |].
      rewrite <- Z.pow_add_r by lia.
      assert (2 ^ d <= 2 ^ (n + prec)) by (apply Z.pow_le_mono_r; lia). lia.
  - (* normal numbers have a full mantissa *)
    intros Hnorm.
    assert (n = d - prec) as Hneq by (unfold n, e1, SpecFloat.fexp in *; lia).
    apply Z.div_le_lower_bound; [lia |].
    rewrite <- Z.pow_add_r by lia.
    replace (n + (prec - 1)) with (d - 1) by lia. exact Dlo.
Qed.


Lemma canonical_cases (m : positive) (e : Z) :
  canonical_mantissa prec emax m e = true ->
  emin <= e /\ Z.pos (digits2_pos m) <= prec /\
  (e = emin \/ Z.pos (digits2_pos m) = prec).
Proof.
  unfold canonical_mantissa, SpecFloat.fexp. intros H.
  apply Z.eqb_eq in H. lia.
Qed.

Lemma binary_round_aux_cases (p : positive) (e : Z) :
  e <= fexp (Z.pos (digits2_pos p) + e) ->
  let e1 := fexp (Z.pos (digits2_pos p) + e) in
  let n := e1 - e in
  let m := Z.pos p / 2 ^ n in
  let r := binary_round_aux prec emax false (Z.pos p) e loc_Exact in
  exists m1,
    (m1 = m \/ (m1 = m + 1 /\ Z.pos p mod 2 ^ n <> 0)) /\
    ((m1 = 0 /\ r = S754_zero false) \/
     exists m2 e2,
       Z.pos m2 * 2 ^ (e2 - e1) = m1 /\ e1 <= e2 /\
       canonical_mantissa prec emax m2 e2 = true /\
       r = if e2 <=? emax - prec then S754_finite false m2 e2
           else S754_infinity false).
Proof.
  intros HA. cbv zeta.
  destruct (binary_round_aux_struct p e HA) as (m1 & Hm1 & Hr).
  pose proof (first_stage_bounds p e HA) as Hb. cbv zeta in Hb.
  destruct Hb as (Hm & He1 & Hnorm & Hdiv).
  set (e1 := fexp (Z.pos (digits2_pos p) + e)) in *.
  set (n := e1 - e) in *.
  set (m := Z.pos p / 2 ^ n) in *.
  set (r := binary_round_aux prec emax false (Z.pos p) e loc_Exact) in *.
  exists m1. split; [exact Hm1 |].
  assert (0 <= m1 <= 2 ^ prec) as Hm1r by lia.
  assert (emin < e1 -> 2 ^ (prec - 1) <= m1) as Hnorm1 by (intros; lia).
  destruct m1 as [| q | q]; [left | right | lia].
  - split; [reflexivity |]. rewrite Hr. apply round_tail_zero. exact He1.
  - destruct (Z.eq_dec (Z.pos q) (2 ^ prec)) as [Hc | Hs].
    + exists (Z.to_pos (2 ^ (prec - 1))), (e1 + 1).
      assert (0 < 2 ^ (prec - 1)) as Hpos by (apply Z.pow_pos_nonneg; lia).
      assert (2 ^ prec = 2 * 2 ^ (prec - 1)) as Hp.
      { rewrite <- Z.pow_succ_r by lia. f_equal. lia. }
      rewrite Z2Pos.id by lia.
      replace (e1 + 1 - e1) with 1 by lia.
      repeat split; try lia.
      * unfold canonical_mantissa. apply Z.eqb_eq.
        assert (Z.pos (digits2_pos (Z.to_pos (2 ^ (prec - 1)))) = prec) as Hd.
        { apply digits2_unique. rewrite Z2Pos.id by lia. lia. }
        rewrite Hd. unfold SpecFloat.fexp. lia.
      * rewrite Hr. apply round_tail_carry; assumption.
    + exists q, e1. replace (e1 - e1) with 0 by lia.
      repeat split; try lia.
      * unfold canonical_mantissa. apply Z.eqb_eq.
        pose proof (digits2_le q prec ltac:(lia) ltac:(lia)) as Hd.
        destruct (Z.eq_dec e1 emin) as [Hsub | Hnsub].
        -- unfold SpecFloat.fexp. lia.
        -- assert (Z.pos (digits2_pos q) = prec) as Hd'.
           { apply digits2_unique. split; [apply Hnorm1 |]; lia. }
           rewrite Hd'. unfold SpecFloat.fexp. lia.
      * rewrite Hr. apply round_tail_small; [exact He1 | lia].
Qed.


Lemma pow2_pos (x : Z) : 0 <= x -> 0 < 2 ^ x.
Proof. intros. apply Z.pow_pos_nonneg; lia. Qed.

Lemma pow2_lt_inv (a b : Z) : 0 <= b -> 2 ^ a < 2 ^ b -> a < b.
Proof.
  intros Hb H. destruct (Z.le_gt_cases b a) as [Hle | Hgt]; [| exact Hgt].
  assert (2 ^ b <= 2 ^ a) by (apply Z.pow_le_mono_r; lia). lia.
Qed.

(** A value on a coarse grid, rewritten on a finer one. *)
Lemma pow2_split (x y g : Z) :
  g <= y -> y <= x -> 2 ^ (x - g) = 2 ^ (x - y) * 2 ^ (y - g).
Proof. intros. rewrite <- Z.pow_add_r by lia. f_equal. lia. Qed.

(** Rounding down to the grid of exponent [e1] keeps every representable
    number below the value below the result. *)
Lemma floor_keeps_below (p mx : positive) (e e1 ex g m : Z) :
  e <= e1 -> g <= e -> g <= ex -> emin <= ex ->
  Z.pos mx < 2 ^ prec ->
  m = Z.pos p / 2 ^ (e1 - e) ->
  (ex < e1 -> 2 ^ (prec - 1) <= m) ->
  Z.pos mx * 2 ^ (ex - g) <= Z.pos p * 2 ^ (e - g) ->
  Z.pos mx * 2 ^ (ex - g) <= m * 2 ^ (e1 - g).
Proof.
  intros Hee1 Hge Hgx Hex Hmx Hm Hnorm H.
  assert (0 < 2 ^ (e1 - e)) as HN by (apply pow2_pos; lia).
  assert (0 < 2 ^ (e - g)) as HP by (apply pow2_pos; lia).
  rewrite (pow2_split e1 e g) by lia.
  destruct (Z.le_gt_cases e1 ex) as [Hgrid | Hlow].
  - rewrite (pow2_split ex e1 g) in * by lia.
    rewrite (pow2_split e1 e g) in * by lia.
    assert (0 < 2 ^ (ex - e1)) as HK by (apply pow2_pos; lia).
    set (K := 2 ^ (ex - e1)) in *. set (N := 2 ^ (e1 - e)) in *.
    set (P := 2 ^ (e - g)) in *.
    assert (N * (Z.pos mx * K) <= Z.pos p) as H1 by nia.
    assert (Z.pos mx * K <= m) as H2
      by (rewrite Hm; apply Z.div_le_lower_bound; lia).
    nia.
  - specialize (Hnorm Hlow).
    assert (Z.pos mx * 2 ^ (ex - g) < 2 ^ prec * 2 ^ (ex - g)) as H1
      by (apply Z.mul_lt_mono_pos_r; [apply pow2_pos; lia | lia]).
    assert (2 ^ prec * 2 ^ (ex - g) <= 2 ^ (prec - 1) * 2 ^ (e1 - g)) as H2.
    { rewrite <- !Z.pow_add_r by lia. apply Z.pow_le_mono_r; lia. }
    rewrite (pow2_split e1 e g) in H2 by lia.
    assert (2 ^ (prec - 1) * (2 ^ (e1 - e) * 2 ^ (e - g))
            <= m * (2 ^ (e1 - e) * 2 ^ (e - g))) as H3
      by (apply Z.mul_le_mono_nonneg_r; nia).
    lia.
Qed.

(** Rounding up to the grid of exponent [e1] keeps every representable
    number above the value above the result. *)
Lemma ceil_keeps_above (p my : positive) (e e1 ey g m : Z) :
  e <= e1 -> g <= e -> g <= ey -> emin <= ey ->
  Z.pos my < 2 ^ prec ->
  m = Z.pos p / 2 ^ (e1 - e) ->
  Z.pos p mod 2 ^ (e1 - e) <> 0 ->
  (ey < e1 -> 2 ^ (prec - 1) <= m) ->
  Z.pos p * 2 ^ (e - g) <= Z.pos my * 2 ^ (ey - g) ->
  (m + 1) * 2 ^ (e1 - g) <= Z.pos my * 2 ^ (ey - g).
Proof.
  intros Hee1 Hge Hgy Hey Hmy Hm Hrem Hnorm H.
  assert (0 < 2 ^ (e1 - e)) as HN by (apply pow2_pos; lia).
  assert (0 < 2 ^ (e - g)) as HP by (apply pow2_pos; lia).
  assert (m * 2 ^ (e1 - e) < Z.pos p) as Hlt.
  { pose proof (Z.div_mod (Z.pos p) (2 ^ (e1 - e)) ltac:(lia)).
    pose proof (Z.mod_pos_bound (Z.pos p) (2 ^ (e1 - e)) HN). nia. }
  rewrite (pow2_split e1 e g) by lia.
  destruct (Z.le_gt_cases e1 ey) as [Hgrid | Hlow].
  - rewrite (pow2_split ey e1 g) in * by lia.
    rewrite (pow2_split e1 e g) in * by lia.
    assert (0 < 2 ^ (ey - e1)) as HK by (apply pow2_pos; lia).
    set (K := 2 ^ (ey - e1)) in *. set (N := 2 ^ (e1 - e)) in *.
    set (P := 2 ^ (e - g)) in *.
    assert (Z.pos p <= Z.pos my * K * N) as H1 by nia.
    assert (m < Z.pos my * K) as H2 by nia.
    nia.
  - exfalso. specialize (Hnorm Hlow).
    assert (Z.pos my * 2 ^ (ey - g) < 2 ^ prec * 2 ^ (ey - g)) as H1
      by (apply Z.mul_lt_mono_pos_r; [apply pow2_pos; lia | lia]).
    assert (2 ^ prec * 2 ^ (ey - g) <= 2 ^ (prec - 1) * 2 ^ (e1 - g)) as H2.
    { rewrite <- !Z.pow_add_r by lia. apply Z.pow_le_mono_r; lia. }
    rewrite (pow2_split e1 e g) in H2 by lia.
    assert (2 ^ (prec - 1) * (2 ^ (e1 - e) * 2 ^ (e - g))
            <= m * (2 ^ (e1 - e) * 2 ^ (e - g))) as H3
      by (apply Z.mul_le_mono_nonneg_r; nia).
    nia.
Qed.


Lemma emin_le_emax_prec : emin <= emax - prec.
Proof. unfold SpecFloat.emin. lia. Qed.

Lemma round_aux_valid (p : positive) (e : Z) :
  e <= fexp (Z.pos (digits2_pos p) + e) ->
  let r := binary_round_aux prec emax false (Z.pos p) e loc_Exact in
  r = S754_zero false \/ r = S754_infinity false \/
  exists m2 e2, r = S754_finite false m2 e2 /\ bounded prec emax m2 e2 = true.
Proof.
  intros HA. cbv zeta.
  destruct (binary_round_aux_cases p e HA) as (m1 & _ & [[_ Hr] | (m2 & e2 & _ & _ & Hc & Hr)]).
  - left. exact Hr.
  - right. rewrite Hr. destruct (Z.leb_spec e2 (emax - prec)) as [Hle | Hgt].
    + right. exists m2, e2. split; [reflexivity |].
      unfold bounded. rewrite Hc. apply Z.leb_le in Hle. rewrite Hle. reflexivity.
    + left. reflexivity.
Qed.

Lemma round_aux_down (p : positive) (e : Z) (mx : positive) (ex g : Z) :
  e <= fexp (Z.pos (digits2_pos p) + e) ->
  Z.pos mx < 2 ^ prec -> emin <= ex -> g <= ex -> g <= e ->
  Z.pos mx * 2 ^ (ex - g) <= Z.pos p * 2 ^ (e - g) ->
  let r := binary_round_aux prec emax false (Z.pos p) e loc_Exact in
  r = S754_infinity false \/
  exists m2 e2, r = S754_finite false m2 e2 /\ bounded prec emax m2 e2 = true /\
                Z.pos mx * 2 ^ (ex - g) <= Z.pos m2 * 2 ^ (e2 - g).
Proof.
  intros HA Hmx Hex Hgx Hge H. cbv zeta.
  destruct (binary_round_aux_cases p e HA) as (m1 & Hm1 & Hres).
  pose proof (first_stage_bounds p e HA) as Hb. cbv zeta in Hb.
  destruct Hb as (Hm & He1 & Hnorm & Hdiv).
  set (e1 := fexp (Z.pos (digits2_pos p) + e)) in *.
  set (m := Z.pos p / 2 ^ (e1 - e)) in *.
  assert (Z.pos mx * 2 ^ (ex - g) <= m * 2 ^ (e1 - g)) as Hfloor.
  { apply (floor_keeps_below p mx e e1 ex g m); auto; try lia; try (intros; apply Hnorm; lia). }
  assert (0 < 2 ^ (ex - g)) as HX by (apply pow2_pos; lia).
  assert (0 < 2 ^ (e1 - g)) as HE by (apply pow2_pos; lia).
  assert (0 < m) as Hmpos by nia.
  assert (m <= m1) as Hmm1 by lia.
  destruct Hres as [[Hz _] | (m2 & e2 & Hval & He2 & Hc & Hr)]; [lia |].
  rewrite Hr. destruct (Z.leb_spec e2 (emax - prec)) as [Hle | Hgt]; [right | left; reflexivity].
  exists m2, e2. split; [reflexivity |]. split.
  - unfold bounded. rewrite Hc. apply Z.leb_le in Hle. rewrite Hle. reflexivity.
  - rewrite (pow2_split e2 e1 g) by lia.
    rewrite Z.mul_assoc, Hval. nia.
Qed.

Lemma round_aux_up (p : positive) (e : Z) (my : positive) (ey g : Z) :
  e <= fexp (Z.pos (digits2_pos p) + e) ->
  Z.pos my < 2 ^ prec -> emin <= ey -> ey <= emax - prec -> g <= ey -> g <= e ->
  Z.pos p * 2 ^ (e - g) <= Z.pos my * 2 ^ (ey - g) ->
  let r := binary_round_aux prec emax false (Z.pos p) e loc_Exact in
  r = S754_zero false \/
  exists m2 e2, r = S754_finite false m2 e2 /\ bounded prec emax m2 e2 = true /\
                Z.pos m2 * 2 ^ (e2 - g) <= Z.pos my * 2 ^ (ey - g).
Proof.
  intros HA Hmy Hey Heymax Hgy Hge H. cbv zeta.
  destruct (binary_round_aux_cases p e HA) as (m1 & Hm1 & Hres).
  pose proof (first_stage_bounds p e HA) as Hb. cbv zeta in Hb.
  destruct Hb as (Hm & He1 & Hnorm & Hdiv).
  set (e1 := fexp (Z.pos (digits2_pos p) + e)) in *.
  set (m := Z.pos p / 2 ^ (e1 - e)) in *.
  assert (0 < 2 ^ (e1 - e)) as HN by (apply pow2_pos; lia).
  assert (0 < 2 ^ (e - g)) as HP by (apply pow2_pos; lia).
  assert (0 < 2 ^ (ey - g)) as HY by (apply pow2_pos; lia).
  assert (m1 * 2 ^ (e1 - g) <= Z.pos my * 2 ^ (ey - g)) as Hceil.
  { destruct Hm1 as [-> | [-> Hrem]].
    - rewrite (pow2_split e1 e g) by lia. nia.
    - apply (ceil_keeps_above p my e e1 ey g m); auto; try lia; try (intros; apply Hnorm; lia). }
  destruct Hres as [[_ Hr] | (m2 & e2 & Hval & He2 & Hc & Hr)]; [left; exact Hr | right].
  assert (Z.pos m2 * 2 ^ (e2 - g) <= Z.pos my * 2 ^ (ey - g)) as Hle2.
  { rewrite (pow2_split e2 e1 g) by lia. rewrite Z.mul_assoc, Hval. exact Hceil. }
  assert (e2 <= emax - prec) as Hno.
  { destruct (canonical_cases m2 e2 Hc) as (_ & _ & [Hsub | Hfull]).
    - pose proof emin_le_emax_prec. lia.
    - pose proof (digits2_bounds m2) as [Dlo _]. rewrite Hfull in Dlo.
      assert (0 < 2 ^ (e2 - g)) as HE2 by (apply pow2_pos; lia).
      assert (2 ^ (prec - 1) * 2 ^ (e2 - g) < 2 ^ prec * 2 ^ (ey - g)) as Hlt by nia.
      rewrite <- !Z.pow_add_r in Hlt by lia.
      apply pow2_lt_inv in Hlt; lia. }
  exists m2, e2. rewrite Hr.
  apply Z.leb_le in Hno. rewrite Hno. split; [reflexivity |]. split; [| exact Hle2].
  unfold bounded. rewrite Hc, Hno. reflexivity.
Qed.


Lemma iter_xO (m d : positive) : Z.pos (Pos.iter xO m d) = Z.pos m * 2 ^ Z.pos d.
Proof.
  induction d as [| d IH] using Pos.peano_ind.
  - cbn [Pos.iter]. lia.
  - rewrite Pos.iter_succ, Pos2Z.inj_xO, IH, Pos2Z.inj_succ, Z.pow_succ_r by lia. lia.
Qed.

Lemma shl_align_spec (mx : positive) (ex ex' : Z) :
  snd (shl_align mx ex ex') = Z.min ex ex' /\
  Z.pos (fst (shl_align mx ex ex')) = Z.pos mx * 2 ^ (ex - Z.min ex ex').
Proof.
  unfold shl_align. destruct (ex' - ex) as [| d | d] eqn:Hd; cbn [fst snd].
  - replace (Z.min ex ex') with ex by lia. rewrite Z.sub_diag. cbn. lia.
  - replace (Z.min ex ex') with ex by lia. rewrite Z.sub_diag. cbn. lia.
  - replace (Z.min ex ex') with ex' by lia. rewrite iter_xO.
    split; [reflexivity |]. f_equal. f_equal. lia.
Qed.

Lemma digits2_shift (m q : positive) (k : Z) :
  0 <= k -> Z.pos q = Z.pos m * 2 ^ k ->
  Z.pos (digits2_pos q) = Z.pos (digits2_pos m) + k.
Proof.
  intros Hk Hq. apply digits2_unique. rewrite Hq.
  pose proof (digits2_bounds m) as [Dlo Dhi].
  assert (0 < 2 ^ k) by (apply pow2_pos; lia).
  replace (Z.pos (digits2_pos m) + k - 1) with (Z.pos (digits2_pos m) - 1 + k) by lia.
  rewrite !Z.pow_add_r by lia. nia.
Qed.

Lemma binary_round_aligned (mx : positive) (ex : Z) :
  let mz := fst (shl_align mx ex (fexp (Z.pos (digits2_pos mx) + ex))) in
  let ez := snd (shl_align mx ex (fexp (Z.pos (digits2_pos mx) + ex))) in
  binary_round prec emax false mx ex =
    binary_round_aux prec emax false (Z.pos mz) ez loc_Exact /\
  ez <= fexp (Z.pos (digits2_pos mz) + ez) /\
  ez <= ex /\ Z.min ex emin <= ez /\
  Z.pos mz = Z.pos mx * 2 ^ (ex - ez).
Proof.
  cbv zeta. unfold binary_round.
  destruct (shl_align_spec mx ex (fexp (Z.pos (digits2_pos mx) + ex))) as [He Hm].
  destruct (shl_align mx ex (fexp (Z.pos (digits2_pos mx) + ex))) as [mz ez].
  cbn [fst snd] in *.
  pose proof (emin_le_fexp (Z.pos (digits2_pos mx) + ex)) as Hfe.
  rewrite <- He in Hm.
  assert (ez <= ex) as Hle by lia.
  split; [reflexivity |].
  rewrite (digits2_shift mx mz (ex - ez)) by (lia || exact Hm).
  replace (Z.pos (digits2_pos mx) + (ex - ez) + ez) with (Z.pos (digits2_pos mx) + ex) by lia.
  repeat split; first [lia | exact Hm].
Qed.

Lemma binary_round_valid (p : positive) (e : Z) :
  let r := binary_round prec emax false p e in
  r = S754_zero false \/ r = S754_infinity false \/
  exists m2 e2, r = S754_finite false m2 e2 /\ bounded prec emax m2 e2 = true.
Proof.
  cbv zeta. pose proof (binary_round_aligned p e) as H. cbv zeta in H.
  destruct H as (-> & HA & _). apply round_aux_valid. exact HA.
Qed.

Lemma binary_round_down (p : positive) (e : Z) (mx : positive) (ex g : Z) :
  Z.pos mx < 2 ^ prec -> emin <= ex -> g <= emin -> g <= e ->
  Z.pos mx * 2 ^ (ex - g) <= Z.pos p * 2 ^ (e - g) ->
  let r := binary_round prec emax false p e in
  r = S754_infinity false \/
  exists m2 e2, r = S754_finite false m2 e2 /\ bounded prec emax m2 e2 = true /\
                Z.pos mx * 2 ^ (ex - g) <= Z.pos m2 * 2 ^ (e2 - g).
Proof.
  intros Hmx Hex Hg Hge H. cbv zeta.
  pose proof (binary_round_aligned p e) as Ha. cbv zeta in Ha.
  destruct Ha as (-> & HA & Hle & Hmin & Hval).
  apply round_aux_down; auto; try lia.
  rewrite Hval, <- Z.mul_assoc, <- (pow2_split e _ g) by lia. exact H.
Qed.

Lemma binary_round_up (p : positive) (e : Z) (my : positive) (ey g : Z) :
  Z.pos my < 2 ^ prec -> emin <= ey -> ey <= emax - prec -> g <= emin -> g <= e ->
  Z.pos p * 2 ^ (e - g) <= Z.pos my * 2 ^ (ey - g) ->
  let r := binary_round prec emax false p e in
  r = S754_zero false \/
  exists m2 e2, r = S754_finite false m2 e2 /\ bounded prec emax m2 e2 = true /\
                Z.pos m2 * 2 ^ (e2 - g) <= Z.pos my * 2 ^ (ey - g).
Proof.
  intros Hmy Hey Heymax Hg Hge H. cbv zeta.
  pose proof (binary_round_aligned p e) as Ha. cbv zeta in Ha.
  destruct Ha as (-> & HA & Hle & Hmin & Hval).
  apply round_aux_up; auto; try lia.
  rewrite Hval, <- Z.mul_assoc, <- (pow2_split e _ g) by lia. exact H.
Qed.

(** The sum of two positive finite numbers is the rounding of the exact sum. *)
Lemma SFadd_pos (mx my : positive) (ex ey : Z) :
  exists s,
    SFadd prec emax (S754_finite false mx ex) (S754_finite false my ey) =
      binary_round prec emax false s (Z.min ex ey) /\
    Z.pos s = Z.pos mx * 2 ^ (ex - Z.min ex ey) + Z.pos my * 2 ^ (ey - Z.min ex ey).
Proof.
  cbn [SFadd cond_Zopp].
  destruct (shl_align_spec mx ex (Z.min ex ey)) as [_ Hx].
  destruct (shl_align_spec my ey (Z.min ex ey)) as [_ Hy].
  replace (Z.min ex (Z.min ex ey)) with (Z.min ex ey) in Hx by lia.
  replace (Z.min ey (Z.min ex ey)) with (Z.min ex ey) in Hy by lia.
  exists (fst (shl_align mx ex (Z.min ex ey)) + fst (shl_align my ey (Z.min ex ey)))%positive.
  split; [reflexivity |]. rewrite Pos2Z.inj_add, Hx, Hy. reflexivity.
Qed.

(** Order of two non-negative valid numbers, by their values. *)
Lemma SFleb_finite (mx my : positive) (ex ey g : Z) :
  bounded prec emax mx ex = true -> bounded prec emax my ey = true ->
  g <= emin ->
  Z.pos mx * 2 ^ (ex - g) <= Z.pos my * 2 ^ (ey - g) ->
  SFleb (S754_finite false mx ex) (S754_finite false my ey) = true.
Proof.
  unfold bounded. intros Hx Hy Hg H.
  apply andb_true_iff in Hx as [Hcx _]. apply andb_true_iff in Hy as [Hcy _].
  destruct (canonical_cases mx ex Hcx) as (Hex & Hdx & Hnx).
  destruct (canonical_cases my ey Hcy) as (Hey & Hdy & Hny).
  unfold SFleb, SFcompare.
  destruct (Z.compare_spec ex ey) as [Heq | Hlt | Hgt]; [| reflexivity |].
  - subst ey. assert (0 < 2 ^ (ex - g)) by (apply pow2_pos; lia).
    assert (Z.pos mx <= Z.pos my) as Hle by nia.
    change (Pos.compare_cont Eq mx my) with (Pos.compare mx my).
    destruct (Pos.compare_spec mx my); try reflexivity; lia.
  - exfalso.
    assert (Z.pos (digits2_pos mx) = prec) as Hfull by lia.
    pose proof (digits2_bounds mx) as [Dlo _]. rewrite Hfull in Dlo.
    pose proof (digits2_bounds my) as [_ Dhi].
    assert (2 ^ Z.pos (digits2_pos my) <= 2 ^ prec) by (apply Z.pow_le_mono_r; lia).
    assert (0 < 2 ^ (ex - g)) by (apply pow2_pos; lia).
    assert (0 < 2 ^ (ey - g)) by (apply pow2_pos; lia).
    assert (2 ^ (prec - 1) * 2 ^ (ex - g) < 2 ^ prec * 2 ^ (ey - g)) as Hc by nia.
    rewrite <- !Z.pow_add_r in Hc by lia.
    apply pow2_lt_inv in Hc; lia.
Qed.

End Rounding.

(** ** Division: the reading of a decimal literal *)

Section Division.
Variables prec emax : Z.
Hypothesis prec_gt_0 : 0 < prec.
Hypothesis prec_lt_emax : prec < emax.

Local Abbreviation emin := (SpecFloat.emin prec emax).
Local Abbreviation fexp := (SpecFloat.fexp prec emax).
Local Abbreviation round_tail := (round_tail prec emax).

(** [binary_round_aux] on a mantissa with a location: the mantissa is cut at
    the canonical exponent and rounded to itself or to its successor. *)
Lemma binary_round_aux_loc (p : positive) (e : Z) (l : location) :
  e <= fexp (Z.pos (digits2_pos p) + e) ->
  exists m1,
    (m1 = Z.pos p / 2 ^ (fexp (Z.pos (digits2_pos p) + e) - e) \/
     m1 = Z.pos p / 2 ^ (fexp (Z.pos (digits2_pos p) + e) - e) + 1) /\
    binary_round_aux prec emax false (Z.pos p) e l =
      round_tail m1 (fexp (Z.pos (digits2_pos p) + e)).
Proof.
  intros HA.
  set (n := fexp (Z.pos (digits2_pos p) + e) - e).
  unfold binary_round_aux, round_tail.
  unfold shr_fexp at 1. cbn [Zdigits2]. fold n.
  destruct (shr_spec (shr_record_of_loc (Z.pos p) l) e n) as (He' & Hm' & _).
  { destruct l as [| []]; cbn; lia. }
  destruct (shr (shr_record_of_loc (Z.pos p) l) e n) as [mrs' e'] eqn:Hshr.
  cbn [fst snd] in He', Hm'.
  replace (shr_m (shr_record_of_loc (Z.pos p) l)) with (Z.pos p) in Hm'
    by (destruct l as [| []]; reflexivity).
  replace (Z.max 0 n) with n in * by lia.
  replace e' with (fexp (Z.pos (digits2_pos p) + e)) by lia.
  exists (round_nearest_even (shr_m mrs') (loc_of_shr_record mrs')).
  split; [| reflexivity].
  destruct (round_nearest_even_cases (shr_m mrs') (loc_of_shr_record mrs')) as [H | H];
    rewrite H, Hm'; auto.
Qed.

(** The result of [round_tail] on a mantissa of at most [prec] bits, or on
    [2^prec]. *)
Lemma round_tail_cases (m1 : positive) (e1 : Z) :
  emin <= e1 -> Z.pos m1 <= 2 ^ prec ->
  exists m2 e2,
    Z.pos m2 * 2 ^ (e2 - e1) = Z.pos m1 /\ e1 <= e2 <= e1 + 1 /\
    Z.pos m2 < 2 ^ prec /\
    round_tail (Z.pos m1) e1
    = if e2 <=? emax - prec then S754_finite false m2 e2 else S754_infinity false.
Proof.
  intros He1 Hm1.
  assert (0 < 2 ^ (prec - 1)) as Hpos by (apply Z.pow_pos_nonneg; lia).
  assert (2 ^ prec = 2 * 2 ^ (prec - 1)) as Hp.
  { rewrite <- Z.pow_succ_r by lia. f_equal. lia. }
  destruct (Z.eq_dec (Z.pos m1) (2 ^ prec)) as [Hc | Hs].
  - exists (Z.to_pos (2 ^ (prec - 1))), (e1 + 1).
    rewrite Z2Pos.id by lia. replace (e1 + 1 - e1) with 1 by lia.
    repeat split; try lia.
    apply (round_tail_carry prec emax prec_gt_0); assumption.
  - exists m1, e1. replace (e1 - e1) with 0 by lia.
    repeat split; try lia.
    apply (round_tail_small prec emax prec_gt_0); [exact He1 | lia].
Qed.

End Division.

(** ** binary64: the generator's arithmetic on [api_cost] *)

Lemma prec64_gt_0 : 0 < prec64.
Proof. reflexivity. Qed.

Lemma prec64_lt_emax64 : prec64 < emax64.
Proof. reflexivity. Qed.

Lemma emin64_eq : SpecFloat.emin prec64 emax64 = emin64.
Proof. reflexivity. Qed.

(** The binary64 number nearest to [c / 100], for an amount of at most
    fifteen digits: its exponent is at most -8, and it is nearer to
    [c / 100] than half a hundredth of a hundredth. *)
Lemma float_of_cents (c : Z) :
  1 <= c < 10 ^ 15 ->
  exists m e,
    float_of_decimal c (-2) = S754_finite false m e /\
    e <= -8 /\
    2 * Z.abs (100 * Z.pos m - c * 2 ^ (- e)) < 2 ^ (- e).
Proof.
  intros Hc. destruct c as [| p | p]; try lia.
  unfold float_of_decimal. cbn [Z.leb Z.compare].
  change (Z.to_pos (10 ^ (- (-2)))) with 100%positive.
  unfold SFdiv, SFdiv_core_binary. cbn [Zdigits2 xorb].
  change (Z.pos (digits2_pos 100)) with 7.
  pose proof (digits2_bounds p) as [Dlo Dhi].
  set (d1 := Z.pos (digits2_pos p)) in *.
  assert (1 <= d1) as Hd1 by (unfold d1; lia).
  assert (d1 <= 50) as Hd50.
  { assert (d1 - 1 < 50); [| lia]. apply pow2_lt_inv; [lia |].
    change (2 ^ 50) with 1125899906842624. change (10 ^ 15) with 1000000000000000 in Hc. lia. }
  replace (IntDef.Z.min (SpecFloat.fexp prec64 emax64 (d1 + 0 - (7 + 0))) (0 - 0))
    with (d1 - 60)
    by (unfold SpecFloat.fexp, SpecFloat.emin, prec64, emax64;
        change IntDef.Z.min with Z.min; change IntDef.Z.max with Z.max; lia).
  replace (0 - 0 - (d1 - 60)) with (60 - d1) by lia.
  set (s := 60 - d1) in *.
  assert (10 <= s <= 59) as Hs by (unfold s; lia).
  assert (2 ^ s * 2 ^ d1 = 2 ^ 60) as Hsd.
  { rewrite <- Z.pow_add_r by lia. f_equal. unfold s. lia. }
  assert (2 ^ d1 = 2 * 2 ^ (d1 - 1)) as Hd2.
  { rewrite <- Z.pow_succ_r by lia. f_equal. lia. }
  assert (0 < 2 ^ s) as Hps by (apply pow2_pos; lia).
  assert (2 ^ 10 <= 2 ^ s) as Hs10 by (apply Z.pow_le_mono_r; lia).
  change (2 ^ 10) with 1024 in Hs10.
  change (2 ^ 60) with 1152921504606846976 in Hsd.
  set (m' := Z.pos p * 2 ^ s).
  assert (576460752303423488 <= m' < 1152921504606846976) as Hm' by (unfold m'; nia).
  replace (match s with
           | 0 => Z.pos p
           | Z.pos _ => IntDef.Z.shiftl (Z.pos p) s
           | Z.neg _ => 0
           end) with m'.
  2:{ destruct s as [| sp | sp] eqn:Es; try lia.
      change IntDef.Z.shiftl with Z.shiftl. rewrite Z.shiftl_mul_pow2 by lia. reflexivity. }
  change IntDef.Z.div_eucl with Z.div_eucl.
  pose proof (Z_div_mod m' 100 ltac:(lia)) as Hdiv.
  destruct (Z.div_eucl m' 100) as [q r]. destruct Hdiv as [Hq Hr].
  assert (5764607523034234 <= q <= 11529215046068469) as Hqr by lia.
  destruct q as [| qp | qp]; try lia.
  assert (53 <= Z.pos (digits2_pos qp) <= 54) as Hdq.
  { split.
    - apply digits2_ge. change (2 ^ (53 - 1)) with 4503599627370496. lia.
    - apply digits2_le; [lia |]. change (2 ^ 54) with 18014398509481984. lia. }
  assert (SpecFloat.fexp prec64 emax64 (Z.pos (digits2_pos qp) + (d1 - 60))
          = Z.pos (digits2_pos qp) + (d1 - 60) - 53) as Hfexp
    by (unfold SpecFloat.fexp, SpecFloat.emin, prec64, emax64;
        change IntDef.Z.max with Z.max; lia).
  destruct (binary_round_aux_loc prec64 emax64 qp (d1 - 60) (new_location 100 r))
    as (m1 & Hm1 & ->); [rewrite Hfexp; lia |].
  rewrite Hfexp in *.
  remember (Z.pos (digits2_pos qp) + (d1 - 60) - 53 - (d1 - 60)) as n eqn:En.
  assert (n = 0 \/ n = 1) as Hn by lia.
  set (e1 := Z.pos (digits2_pos qp) + (d1 - 60) - 53) in *.
  assert (e1 = d1 - 60 + n) as He1 by (unfold e1; lia).
  assert (Z.pos qp - (2 ^ n - 1) <= m1 * 2 ^ n <= Z.pos qp + 2 ^ n /\ 0 < m1 /\
          m1 <= 2 ^ prec64) as (Hwin & Hm1pos & Hm1max).
  { change (2 ^ prec64) with 9007199254740992.
    destruct Hn as [-> | ->].
    - change (2 ^ 0) with 1 in *. rewrite Z.div_1_r in Hm1.
      assert (Z.pos (digits2_pos qp) = 53) as Hd53 by lia.
      pose proof (digits2_bounds qp) as [_ Hhi]. rewrite Hd53 in Hhi.
      change (2 ^ 53) with 9007199254740992 in Hhi. lia.
    - change (2 ^ 1) with 2 in *.
      pose proof (Z.div_mod (Z.pos qp) 2 ltac:(lia)).
      pose proof (Z.mod_pos_bound (Z.pos qp) 2 ltac:(lia)). lia. }
  destruct m1 as [| m1p | m1p]; try lia.
  destruct (round_tail_cases prec64 emax64 prec64_gt_0 m1p e1)
    as (m2 & e2 & Hval & He2 & Hm2 & ->); [| exact Hm1max |].
  { rewrite emin64_eq. unfold emin64. lia. }
  assert (e2 <= -8) as He2' by lia.
  replace (e2 <=? emax64 - prec64) with true
    by (symmetry; apply Z.leb_le; unfold emax64, prec64; lia).
  exists m2, e2. split; [reflexivity |]. split; [exact He2' |].
  (* the value, in units of 2^e' *)
  set (g := e2 - (d1 - 60)) in *.
  assert (0 <= g <= 2) as Hg by (unfold g; lia).
  assert (2 ^ s = 2 ^ g * 2 ^ (- e2)) as Hsplit.
  { rewrite <- Z.pow_add_r by lia. f_equal. unfold s, g. lia. }
  assert (Z.pos m2 * 2 ^ g = Z.pos m1p * 2 ^ n) as HM.
  { replace g with ((e2 - e1) + n) by (unfold g; lia).
    rewrite Z.pow_add_r by lia. rewrite Z.mul_assoc, Hval. reflexivity. }
  assert (0 < 2 ^ (- e2)) as Hpa by (apply pow2_pos; lia).
  assert (0 < 2 ^ g) as Hpg by (apply pow2_pos; lia).
  assert (2 ^ n <= 2) as Hn2 by (destruct Hn as [-> | ->]; cbn; lia).
  assert (1 <= 2 ^ n) as Hn1 by (destruct Hn as [-> | ->]; cbn; lia).
  (* 100 M - c 2^s = 100 (M - q) - r *)
  assert (- 300 < 2 ^ g * (100 * Z.pos m2 - Z.pos p * 2 ^ (- e2)) < 300) as Hclose.
  { replace (2 ^ g * (100 * Z.pos m2 - Z.pos p * 2 ^ (- e2)))
      with (100 * (Z.pos m2 * 2 ^ g) - Z.pos p * (2 ^ g * 2 ^ (- e2))) by ring.
    rewrite <- Hsplit, HM. fold m'. lia. }
  assert (512 <= 2 ^ g * 2 ^ (- e2 - 1)) as Hhalf.
  { replace (2 ^ g * 2 ^ (- e2 - 1)) with (2 ^ (s - 1)).
    - change 512 with (2 ^ 9). apply Z.pow_le_mono_r; lia.
    - rewrite <- Z.pow_add_r by lia. f_equal. unfold s, g. lia. }
  assert (2 ^ (- e2) = 2 * 2 ^ (- e2 - 1)) as Hdouble.
  { rewrite <- Z.pow_succ_r by lia. f_equal. lia. }
  rewrite Hdouble.
  set (X := 100 * Z.pos m2 - Z.pos p * (2 * 2 ^ (- e2 - 1))).
  rewrite Hdouble in Hclose. fold X in Hclose.
  destruct (Z_lt_le_dec (Z.abs X) (2 ^ (- e2 - 1))) as [Hlt | Hge]; [lia | exfalso].
  assert (2 ^ g * 2 ^ (- e2 - 1) <= 2 ^ g * Z.abs X) as Hmul
    by (apply Z.mul_le_mono_nonneg_l; lia).
  destruct (Z.abs_spec X) as [[_ E] | [_ E]]; rewrite E in Hmul; lia.
Qed.

Lemma bounded64_inv (m : positive) (e : Z) :
  bounded prec64 emax64 m e = true ->
  emin64 <= e /\ e <= emax64 - prec64 /\ Z.pos m < 2 ^ prec64.
Proof.
  unfold bounded. intros H. apply andb_true_iff in H as [Hc He].
  apply Z.leb_le in He.
  destruct (canonical_cases prec64 emax64 m e Hc) as (Hmin & Hd & _).
  rewrite emin64_eq in Hmin. repeat split; try lia.
  pose proof (digits2_bounds m) as [_ Dhi].
  assert (2 ^ Z.pos (digits2_pos m) <= 2 ^ prec64) by (apply Z.pow_le_mono_r; lia).
  lia.
Qed.

Lemma random_spec (r : Z) :
  random r = S754_zero false \/
  exists m e, random r = S754_finite false m e /\
              bounded prec64 emax64 m e = true /\
              e < 0 /\ Z.pos m < 2 ^ (- e).
Proof.
  unfold random, binary_normalize.
  pose proof (Z.mod_pos_bound r (2 ^ 53) ltac:(lia)) as Hk.
  destruct (r mod 2 ^ 53) as [| k | k]; [left; reflexivity | right | lia].
  assert (Z.pos k * 2 ^ (-53 - emin64)
          <= 9007199254740991 * 2 ^ (-53 - emin64)) as Hup
    by (apply Z.mul_le_mono_nonneg_r; [apply Z.pow_nonneg; unfold emin64 |]; lia).
  assert (1 * 2 ^ (emin64 - emin64) <= Z.pos k * 2 ^ (-53 - emin64)) as Hdown.
  { rewrite Z.sub_diag. change (2 ^ 0) with 1.
    assert (0 < 2 ^ (-53 - emin64)) by (apply pow2_pos; unfold emin64; lia). nia. }
  pose proof (binary_round_up prec64 emax64 prec64_gt_0 prec64_lt_emax64
                k (-53) 9007199254740991%positive (-53) emin64) as Hu.
  pose proof (binary_round_down prec64 emax64 prec64_gt_0
                k (-53) 1%positive emin64 emin64) as Hd.
  cbv zeta in Hu, Hd. rewrite emin64_eq in Hu, Hd.
  destruct Hu as [Hz | (m & e & Hr & Hb & Hle)];
    try (unfold prec64, emax64, emin64; lia); try exact Hup.
  - exfalso. rewrite Hz in Hd.
    destruct Hd as [Hd | (m & e & Hd & _)];
      try discriminate; try (unfold prec64, emax64, emin64; lia); exact Hdown.
  - exists m, e. split; [exact Hr |]. split; [exact Hb |].
    destruct (bounded64_inv m e Hb) as (He & _ & _).
    unfold emin64 in *.
    assert (0 < 2 ^ (e - -1074)) as HP by (apply pow2_pos; lia).
    assert (e < 0) as Hneg.
    { destruct (Z.lt_ge_cases e 0) as [H | H]; [exact H | exfalso].
      assert (2 ^ 1074 <= 2 ^ (e - -1074)) by (apply Z.pow_le_mono_r; lia).
      change (-53 - -1074) with 1021 in Hle.
      assert (9007199254740991 * 2 ^ 1021 < 2 ^ 1074) by (vm_compute; reflexivity).
      nia. }
    split; [exact Hneg |].
    assert (2 ^ 1074 = 2 ^ (- e) * 2 ^ (e - -1074)) as Hsplit.
    { rewrite <- Z.pow_add_r by lia. f_equal. lia. }
    change (-53 - -1074) with 1021 in Hle.
    assert (9007199254740991 * 2 ^ 1021 < 2 ^ 1074) by (vm_compute; reflexivity).
    nia.
Qed.

Lemma fmul_le_left (mc mu : positive) (ec eu : Z) :
  bounded prec64 emax64 mc ec = true ->
  Z.pos (digits2_pos mc) = prec64 ->
  bounded prec64 emax64 mu eu = true ->
  eu < 0 -> Z.pos mu < 2 ^ (- eu) ->
  fmul (S754_finite false mc ec) (S754_finite false mu eu) = S754_zero false \/
  exists m e,
    fmul (S754_finite false mc ec) (S754_finite false mu eu) = S754_finite false m e /\
    bounded prec64 emax64 m e = true /\
    Z.pos m * 2 ^ (e - emin64) <= Z.pos mc * 2 ^ (ec - emin64).
Proof.
  intros Hbc Hdc Hbu Hneg Hu1. unfold fmul. cbn [SFmul xorb].
  destruct (bounded64_inv mc ec Hbc) as (Hec & Hecmax & Hmc).
  destruct (bounded64_inv mu eu Hbu) as (Heu & _ & _).
  pose proof (digits2_bounds mc) as [Dlo _]. rewrite Hdc in Dlo.
  assert (prec64 <= Z.pos (digits2_pos (mc * mu))) as HD.
  { apply digits2_ge. rewrite Pos2Z.inj_mul. nia. }
  assert (ec + eu <= SpecFloat.fexp prec64 emax64 (Z.pos (digits2_pos (mc * mu)) + (ec + eu)))
    as HA by (unfold SpecFloat.fexp; lia).
  assert (0 < 2 ^ (ec - emin64)) as HP by (apply pow2_pos; lia).
  assert (0 < 2 ^ (- eu)) as HU by (apply pow2_pos; lia).
  pose proof (round_aux_up prec64 emax64 prec64_gt_0 prec64_lt_emax64
                (mc * mu) (ec + eu) mc ec (emin64 + eu) HA Hmc) as Hup.
  cbv zeta in Hup. rewrite emin64_eq in Hup.
  destruct Hup as [Hz | (m & e & Hr & Hb & Hle)]; try lia.
  - replace (ec + eu - (emin64 + eu)) with (ec - emin64) by lia.
    replace (ec - (emin64 + eu)) with (- eu + (ec - emin64)) by lia.
    rewrite Z.pow_add_r, Pos2Z.inj_mul by lia. nia.
  - left. exact Hz.
  - right. exists m, e. split; [exact Hr |]. split; [exact Hb |].
    destruct (bounded64_inv m e Hb) as (He & _ & _).
    replace (e - (emin64 + eu)) with (- eu + (e - emin64)) in Hle by lia.
    replace (ec - (emin64 + eu)) with (- eu + (ec - emin64)) in Hle by lia.
    rewrite !Z.pow_add_r in Hle by lia.
    assert (0 < 2 ^ (e - emin64)) by (apply pow2_pos; lia). nia.
Qed.

Lemma fadd_exact (mx md : positive) (ex ed : Z) :
  emin64 <= ex -> emin64 <= ed ->
  exists s,
    fadd (S754_finite false mx ex) (S754_finite false md ed) =
      binary_round prec64 emax64 false s (Z.min ex ed) /\
    Z.pos s * 2 ^ (Z.min ex ed - emin64) =
      Z.pos mx * 2 ^ (ex - emin64) + Z.pos md * 2 ^ (ed - emin64).
Proof.
  intros Hex Hed. destruct (SFadd_pos prec64 emax64 mx md ex ed) as (s & Hs & Hv).
  exists s. split; [exact Hs |]. rewrite Hv.
  rewrite (pow2_split ex (Z.min ex ed) emin64), (pow2_split ed (Z.min ex ed) emin64) by lia.
  ring.
Qed.

Lemma fadd_ge_left (mx md : positive) (ex ed : Z) :
  bounded prec64 emax64 mx ex = true -> emin64 <= ed ->
  fadd (S754_finite false mx ex) (S754_finite false md ed) = S754_infinity false \/
  exists m e,
    fadd (S754_finite false mx ex) (S754_finite false md ed) = S754_finite false m e /\
    bounded prec64 emax64 m e = true /\
    Z.pos mx * 2 ^ (ex - emin64) <= Z.pos m * 2 ^ (e - emin64).
Proof.
  intros Hbx Hed. destruct (bounded64_inv mx ex Hbx) as (Hex & _ & Hmx).
  destruct (fadd_exact mx md ex ed Hex Hed) as (s & -> & Hv).
  assert (0 < 2 ^ (ed - emin64)) by (apply pow2_pos; lia).
  pose proof (binary_round_down prec64 emax64 prec64_gt_0
                s (Z.min ex ed) mx ex emin64 Hmx) as Hd.
  cbv zeta in Hd. rewrite emin64_eq in Hd. apply Hd; nia.
Qed.

Lemma fadd_between (mx md my : positive) (ex ed ey : Z) :
  bounded prec64 emax64 mx ex = true -> emin64 <= ed ->
  bounded prec64 emax64 my ey = true ->
  Z.pos mx * 2 ^ (ex - emin64) + Z.pos md * 2 ^ (ed - emin64)
    <= Z.pos my * 2 ^ (ey - emin64) ->
  exists m e,
    fadd (S754_finite false mx ex) (S754_finite false md ed) = S754_finite false m e /\
    bounded prec64 emax64 m e = true /\
    Z.pos mx * 2 ^ (ex - emin64) <= Z.pos m * 2 ^ (e - emin64)
      <= Z.pos my * 2 ^ (ey - emin64).
Proof.
  intros Hbx Hed Hby Hsum.
  destruct (fadd_ge_left mx md ex ed Hbx Hed) as [Hinf | (m & e & Hr & Hb & Hge)].
  - exfalso. destruct (bounded64_inv mx ex Hbx) as (Hex & _ & _).
    destruct (bounded64_inv my ey Hby) as (Hey & Heymax & Hmy).
    destruct (fadd_exact mx md ex ed Hex Hed) as (s & Hs & Hv).
    pose proof (binary_round_up prec64 emax64 prec64_gt_0 prec64_lt_emax64
                  s (Z.min ex ed) my ey emin64 Hmy) as Hu.
    cbv zeta in Hu. rewrite emin64_eq, <- Hs, Hinf in Hu.
    destruct Hu as [Hu | (m & e & Hu & _)]; try discriminate; lia.
  - exists m, e. split; [exact Hr |]. split; [exact Hb |]. split; [exact Hge |].
    destruct (bounded64_inv mx ex Hbx) as (Hex & _ & _).
    destruct (bounded64_inv my ey Hby) as (Hey & Heymax & Hmy).
    destruct (fadd_exact mx md ex ed Hex Hed) as (s & Hs & Hv).
    pose proof (binary_round_up prec64 emax64 prec64_gt_0 prec64_lt_emax64
                  s (Z.min ex ed) my ey emin64 Hmy) as Hu.
    cbv zeta in Hu. rewrite emin64_eq, <- Hs, Hr in Hu.
    destruct Hu as [Hu | (m' & e' & Hu & _ & Hle)]; try discriminate; try lia.
    injection Hu as <- <-. exact Hle.
Qed.

Lemma fleb_finite (mx my : positive) (ex ey : Z) :
  bounded prec64 emax64 mx ex = true -> bounded prec64 emax64 my ey = true ->
  Z.pos mx * 2 ^ (ex - emin64) <= Z.pos my * 2 ^ (ey - emin64) ->
  fleb (S754_finite false mx ex) (S754_finite false my ey) = true.
Proof.
  intros Hx Hy H. unfold fleb.
  apply (SFleb_finite prec64 emax64 prec64_gt_0 mx my ex ey emin64); auto.
  rewrite emin64_eq. lia.
Qed.

Lemma uniform_range (lo hi : float) (r : Z) :
  band_ok lo hi = true ->
  finite_pos (uniform lo hi r) /\
  fleb lo (uniform lo hi r) = true /\ fleb (uniform lo hi r) hi = true.
Proof.
  unfold band_ok, uniform.
  destruct lo as [| | | [] mlo elo]; try discriminate.
  destruct hi as [| | | [] mhi ehi]; try discriminate.
  destruct (fsub (S754_finite false mhi ehi) (S754_finite false mlo elo))
    as [| | | [] mc ec]; try discriminate.
  intros H.
  apply andb_true_iff in H as [H Hsum]. apply andb_true_iff in H as [H Hdc].
  apply andb_true_iff in H as [H Hbc]. apply andb_true_iff in H as [Hblo Hbhi].
  apply Z.eqb_eq in Hdc. apply Z.leb_le in Hsum. cbn [ulps] in Hsum.
  destruct (bounded64_inv mc ec Hbc) as (Hec & _ & _).
  assert (0 < 2 ^ (ec - emin64)) as HPc by (apply pow2_pos; lia).
  assert (fadd (S754_finite false mlo elo) (S754_zero false) = S754_finite false mlo elo)
    as Hzero by reflexivity.
  assert (finite_pos (S754_finite false mlo elo) /\
          fleb (S754_finite false mlo elo) (S754_finite false mlo elo) = true /\
          fleb (S754_finite false mlo elo) (S754_finite false mhi ehi) = true) as Hlo.
  { split; [exists mlo, elo; auto |]. split; apply fleb_finite; auto; nia. }
  destruct (random_spec r) as [-> | (mu & eu & -> & Hbu & Hneg & Hu1)].
  - cbn [fmul SFmul xorb]. rewrite Hzero. exact Hlo.
  - destruct (bounded64_inv mu eu Hbu) as (Heu & _ & _).
    destruct (fmul_le_left mc mu ec eu Hbc Hdc Hbu Hneg Hu1)
      as [-> | (mt & et & -> & Hbt & Hle)].
    + rewrite Hzero. exact Hlo.
    + destruct (bounded64_inv mt et Hbt) as (Het & _ & _).
      destruct (fadd_between mlo mt mhi elo et ehi Hblo Het Hbhi ltac:(lia))
        as (m & e & -> & Hb & Hge & Hle').
      split; [exists m, e; auto |]. split; apply fleb_finite; auto.
Qed.

Lemma band_business : band_ok (float_of_decimal 5 (-2)) (float_of_decimal 15 (-2)) = true.
Proof. vm_compute. reflexivity. Qed.

Lemma band_evening : band_ok (float_of_decimal 8 (-2)) (float_of_decimal 20 (-2)) = true.
Proof. vm_compute. reflexivity. Qed.

Lemma band_off_hours : band_ok (float_of_decimal 2 (-2)) (float_of_decimal 8 (-2)) = true.
Proof. vm_compute. reflexivity. Qed.

Lemma cost_increment_finite_pos (h r : Z) : finite_pos (cost_increment h r).
Proof.
  unfold cost_increment.
  destruct (business_hours h); [apply uniform_range, band_business |].
  destruct (evening_peak h); [apply uniform_range, band_evening |].
  apply uniform_range, band_off_hours.
Qed.

(** The running cost is a positive number, or has overflowed to infinity. *)
Lemma fadd_cost_step (x d : float) :
  finite_pos x \/ x = S754_infinity false ->
  finite_pos d ->
  (finite_pos (fadd x d) \/ fadd x d = S754_infinity false) /\
  fleb x (fadd x d) = true.
Proof.
  intros [(mx & ex & -> & Hbx) | ->] (md & ed & -> & Hbd).
  - destruct (bounded64_inv md ed Hbd) as (Hed & _ & _).
    destruct (fadd_ge_left mx md ex ed Hbx Hed) as [-> | (m & e & -> & Hb & Hle)].
    + split; [right; reflexivity | reflexivity].
    + split; [left; exists m, e; auto | apply fleb_finite; auto].
  - split; [right; reflexivity | reflexivity].
Qed.

(** ** The generator *)

Lemma messages_nonneg (h r : Z) : 0 <= messages h r.
Proof.
  unfold messages.
  destruct (business_hours h); [pose proof (randint_range 5 15 r) |
    destruct (evening_peak h);
      [pose proof (randint_range 8 20 r) | pose proof (randint_range 0 5 r)]]; lia.
Qed.

Lemma hour_bands (h : Z) :
  (9 <= h <= 17 -> business_hours h = true) /\
  (18 <= h <= 22 -> business_hours h = false /\ evening_peak h = true) /\
  (h < 9 \/ 22 < h -> business_hours h = false /\ evening_peak h = false).
Proof. unfold business_hours, evening_peak. lia. Qed.

Lemma reachable_cost (repr_float : float -> string) (s : AnalyticsCollector) :
  reachable repr_float s ->
  finite_pos (api_cost s) \/ api_cost s = S754_infinity false.
Proof.
  induction 1 as [redis d | s s' Hs IH Hstep].
  - left. cbn [init api_cost]. eexists _, _.
    split; vm_compute; reflexivity.
  - destruct Hstep as [s t1 t2 r w | s t1 t2 t3 r w s' Htick | s t1 t2 r w | s t1 t2 r w];
      cbn [collect_messages_tick collect_rate_limits_tick collect_api_costs_tick api_cost];
      try exact IH.
    + invert_user_tick Htick. exact IH.
    + apply fadd_cost_step; [exact IH | apply cost_increment_finite_pos].
Qed.

(** C8. Across every step of the generator, whichever loop makes it, the
    running values [message_count] and [api_cost] do not decrease: a pass of
    [collect_messages] adds a non-negative delta to the first, a pass of
    [collect_api_costs] adds a positive delta to the second, and no other
    pass writes them. *)
Theorem running_values_non_decreasing
    (repr_float : float -> string) (s s' : AnalyticsCollector) :
  reachable repr_float s -> step repr_float s s' ->
  message_count s <= message_count s' /\ fle (api_cost s) (api_cost s').
Proof.
  intros Hreach Hstep. pose proof (reachable_cost repr_float s Hreach) as Hcost.
  assert (fle (api_cost s) (api_cost s)) as Hrefl.
  { unfold fle. destruct Hcost as [(m & e & -> & Hb) | ->]; [| reflexivity].
    apply fleb_finite; auto; lia. }
  destruct Hstep as [s t1 t2 r w | s t1 t2 t3 r w s' Htick | s t1 t2 r w | s t1 t2 r w].
  - cbn [collect_messages_tick message_count api_cost].
    pose proof (messages_nonneg (hour t1) r). split; [lia | exact Hrefl].
  - invert_user_tick Htick.
    cbn [message_count api_cost]. split; [lia | exact Hrefl].
  - cbn [collect_api_costs_tick message_count api_cost]. split; [lia |].
    apply fadd_cost_step; [exact Hcost | apply cost_increment_finite_pos].
  - cbn [collect_rate_limits_tick message_count api_cost]. split; [lia | exact Hrefl].
Qed.

Lemma running_values_non_decreasing_witness :
  let s := init ∅ (mk_database [] [] [] []) in
  let t := mk_datetime 2024 1 1 9 13 0 0 in
  message_count s <= message_count (collect_messages_tick s t t 7 Written) /\
  fle (api_cost s) (api_cost (collect_messages_tick s t t 7 Written)).
Proof.
  cbv zeta.
  apply (running_values_non_decreasing (fun _ => "")).
  - apply reachable_init.
  - apply step_messages.
Defined.

(** C5 (as stated, refuted).  No pass of [collect_user_activity] computes a
    negative [active_users]: the claim that some hour, day and noise draw
    give a negative value is false. *)
Lemma active_users_negative_refuted :
  ~ (exists self t1 t2 t3 r w s',
        collect_user_activity_tick self t1 t2 t3 r w = Ok s' /\ active_users s' < 0).
Proof.
  intros (self & t1 & t2 & t3 & r & w & s' & Htick & Hneg).
  unfold collect_user_activity_tick in Htick.
  destruct (base_users_cases (hour t1) (weekday t2)) as (b & Hb & Hrange).
  rewrite Hb in Htick. cbn [rbind] in Htick. injection Htick as <-.
  cbn [active_users] in Hneg.
  pose proof (randint_range (-5) 5 r). lia.
Qed.

(** C5 (amended).  For every hour, day of week and noise draw, a pass of
    [collect_user_activity] succeeds and computes an [active_users] between
    2 and 35: the smallest base is [int(10 * 0.7) = 7] and the noise is at
    least -5, so the value is never negative although no clamp is applied.
    The bound 2 is reached (off hours, Sunday, draw 0). *)
Theorem active_users_at_least_2 :
  (forall self t1 t2 t3 r w,
      exists s', collect_user_activity_tick self t1 t2 t3 r w = Ok s' /\
                 2 <= active_users s' <= 35) /\
  (exists self t1 t2 t3 r w s',
      collect_user_activity_tick self t1 t2 t3 r w = Ok s' /\ active_users s' = 2).
Proof.
  split.
  - intros self t1 t2 t3 r w. unfold collect_user_activity_tick.
    destruct (base_users_cases (hour t1) (weekday t2)) as (b & Hb & Hrange).
    rewrite Hb. cbn [rbind]. eexists. split; [reflexivity |].
    cbn [active_users]. pose proof (randint_range (-5) 5 r). lia.
  - exists (init ∅ (mk_database [] [] [] [])),
      (mk_datetime 2024 1 7 3 0 0 0), (mk_datetime 2024 1 7 3 0 0 0),
      (mk_datetime 2024 1 7 3 0 0 0), 0, Written.
    eexists. split; [vm_compute; reflexivity | reflexivity].
Qed.

(** C6. Starting from the initial value 100, after every sequence of passes
    of [collect_rate_limits] the value of [rate_limit] lies in [80, 100]. *)
Theorem rate_limit_in_range (redis : gmap string string) (d : database)
    (ticks : list tick2) :
  80 <= rate_limit (collect_rate_limits (init redis d) ticks) <= 100.
Proof.
  unfold collect_rate_limits.
  assert (80 <= rate_limit (init redis d) <= 100) as Hinit by (cbn; lia).
  revert Hinit. generalize (init redis d) as s.
  induction ticks as [| [[[t1 t2] r] w] ticks IH]; intros s Hs; cbn [fold_left].
  - exact Hs.
  - apply IH. cbn [collect_rate_limits_tick rate_limit]. lia.
Qed.

(** The same bound along every interleaving of the four loops. *)
Lemma reachable_rate_limit (repr_float : float -> string) (s : AnalyticsCollector) :
  reachable repr_float s -> 80 <= rate_limit s <= 100.
Proof.
  induction 1 as [redis d | s s' Hs IH Hstep].
  - cbn. lia.
  - destruct Hstep as [s t1 t2 r w | s t1 t2 t3 r w s' Htick | s t1 t2 r w | s t1 t2 r w];
      cbn [collect_messages_tick collect_rate_limits_tick collect_api_costs_tick rate_limit];
      try lia.
    invert_user_tick Htick. exact IH.
Qed.

(** C7. In every hour band and for every draw, the delta of a pass lies in
    the documented bounds of the band: messages in [5,15], [8,20], [0,5];
    cost increments in [0.05,0.15], [0.08,0.20], [0.02,0.08] (compared as
    binary64 numbers); rate-limit changes in [-3,1], [-5,0], [0,2]; for the
    bands 09-17, 18-22 and the remaining hours. *)
Theorem deltas_within_bands (h r : Z) :
  (9 <= h <= 17 ->
     5 <= messages h r <= 15 /\
     fle (float_of_decimal 5 (-2)) (cost_increment h r) /\
     fle (cost_increment h r) (float_of_decimal 15 (-2)) /\
     -3 <= rate_change h r <= 1) /\
  (18 <= h <= 22 ->
     8 <= messages h r <= 20 /\
     fle (float_of_decimal 8 (-2)) (cost_increment h r) /\
     fle (cost_increment h r) (float_of_decimal 20 (-2)) /\
     -5 <= rate_change h r <= 0) /\
  (h < 9 \/ 22 < h ->
     0 <= messages h r <= 5 /\
     fle (float_of_decimal 2 (-2)) (cost_increment h r) /\
     fle (cost_increment h r) (float_of_decimal 8 (-2)) /\
     0 <= rate_change h r <= 2).
Proof.
  destruct (hour_bands h) as (Hb & He & Ho).
  unfold messages, cost_increment, rate_change, fle.
  split; [| split]; intros Hh.
  - rewrite (Hb Hh).
    pose proof (uniform_range _ _ r band_business) as (_ & Hlo & Hhi).
    pose proof (randint_range 5 15 r). pose proof (randint_range (-3) 1 r).
    repeat split; auto; lia.
  - destruct (He Hh) as [-> ->].
    pose proof (uniform_range _ _ r band_evening) as (_ & Hlo & Hhi).
    pose proof (randint_range 8 20 r). pose proof (randint_range (-5) 0 r).
    repeat split; auto; lia.
  - destruct (Ho Hh) as [-> ->].
    pose proof (uniform_range _ _ r band_off_hours) as (_ & Hlo & Hhi).
    pose proof (randint_range 0 5 r). pose proof (randint_range 0 2 r).
    repeat split; auto; lia.
Qed.

Lemma deltas_within_bands_witness :
  5 <= messages 10 12345 <= 15 /\
  fle (float_of_decimal 5 (-2)) (cost_increment 10 12345) /\
  fle (cost_increment 10 12345) (float_of_decimal 15 (-2)) /\
  -3 <= rate_change 10 12345 <= 1.
Proof.
  apply (deltas_within_bands 10 12345). lia.
Defined.

(** [fle] is transitive on the values [api_cost] takes. *)
Lemma fle_trans (x y z : float) :
  finite_pos x \/ x = S754_infinity false ->
  finite_pos y \/ y = S754_infinity false ->
  finite_pos z \/ z = S754_infinity false ->
  fle x y -> fle y z -> fle x z.
Proof.
  unfold fle, fleb, SFleb.
  intros [(mx & ex & -> & _) | ->] [(my & ey & -> & _) | ->] [(mz & ez & -> & _) | ->];
    cbn [SFcompare]; try (intros; reflexivity); try (intros; discriminate).
  intros H1 H2.
  change (PosDef.Pos.compare_cont Eq mx my) with (Pos.compare mx my) in H1.
  change (PosDef.Pos.compare_cont Eq my mz) with (Pos.compare my mz) in H2.
  change (PosDef.Pos.compare_cont Eq mx mz) with (Pos.compare mx mz).
  destruct (Z.compare_spec ex ey) as [Exy | Hxy | Hxy]; try discriminate H1;
    destruct (Z.compare_spec ey ez) as [Eyz | Hyz | Hyz]; try discriminate H2;
    destruct (Z.compare_spec ex ez) as [Exz | Hxz | Hxz]; try reflexivity; try lia.
  destruct (Pos.compare_spec mx my); try discriminate H1;
    destruct (Pos.compare_spec my mz); try discriminate H2;
    destruct (Pos.compare_spec mx mz); try reflexivity; lia.
Qed.

Lemma partial_sums_sorted (x0 : float) (ds : list float) :
  finite_pos x0 \/ x0 = S754_infinity false ->
  Forall finite_pos ds ->
  StronglySorted fle (x0 :: partial_sums x0 ds) /\
  Forall (fun x => finite_pos x \/ x = S754_infinity false) (partial_sums x0 ds).
Proof.
  intros Hx0 Hds. revert x0 Hx0.
  induction Hds as [| d ds Hd _ IH]; intros x0 Hx0; cbn [partial_sums].
  - split; repeat constructor.
  - destruct (fadd_cost_step x0 d Hx0 Hd) as [Hx1 Hle].
    destruct (IH (fadd x0 d) Hx1) as [Hsorted Hall].
    split; [| constructor; assumption].
    constructor; [exact Hsorted |].
    constructor; [exact Hle |].
    apply StronglySorted_inv in Hsorted as [_ Hfrom].
    rewrite List.Forall_forall in *. intros x Hx.
    apply (fle_trans x0 (fadd x0 d) x); auto.
Qed.

Lemma partial_sums_length (x0 : float) (ds : list float) :
  length (partial_sums x0 ds) = length ds.
Proof.
  revert x0. induction ds as [| d ds IH]; intros x0; cbn [partial_sums length];
    [| rewrite IH]; reflexivity.
Qed.

Lemma stored_only_Forall {A} (P : A -> Prop) (ws : list writes) (l : list A) :
  Forall P l -> Forall P (stored_only ws l).
Proof.
  intros Hl. revert ws. induction Hl as [| x l Hx _ IH]; intros [| [] ws];
    cbn [stored_only]; try constructor; auto.
Qed.

Lemma stored_only_sorted {A} (R : A -> A -> Prop) (ws : list writes) (l : list A) :
  StronglySorted R l -> StronglySorted R (stored_only ws l).
Proof.
  intros Hl. revert ws. induction Hl as [| x l _ IH Hx]; intros [| [] ws];
    cbn [stored_only]; try constructor; auto.
  apply stored_only_Forall, Hx.
Qed.

Lemma stored_only_all {A} (ws : list writes) (l : list A) :
  Forall (fun w => w = Written) ws -> length ws = length l -> stored_only ws l = l.
Proof.
  intros Hws. revert l. induction Hws as [| w ws -> _ IH]; intros [| x l] Hlen;
    try discriminate; cbn [stored_only]; [reflexivity |].
  f_equal. apply IH. cbn [length] in Hlen. lia.
Qed.

(** The documents and the final value of a run of [collect_api_costs]. *)
Lemma collect_api_costs_documents (repr_float : float -> string)
    (ticks : list tick2) (s : AnalyticsCollector) :
  exists new,
    api_costs (db (collect_api_costs repr_float s ticks)) = (api_costs (db s) ++ new)%list /\
    map cost_field new
    = map Some (stored_only (outcomes ticks)
                            (partial_sums (api_cost s) (cost_increments ticks))) /\
    api_cost (collect_api_costs repr_float s ticks)
    = fold_left fadd (cost_increments ticks) (api_cost s).
Proof.
  unfold collect_api_costs, cost_increments, outcomes. revert s.
  induction ticks as [| [[[t1 t2] r] w] ticks IH]; intros s.
  - exists []. cbn [fold_left map partial_sums stored_only]. rewrite app_nil_r. auto.
  - cbn [fold_left map partial_sums].
    destruct (IH (collect_api_costs_tick repr_float s t1 t2 r w))
      as (new1 & Hdocs & Hfields & Hcost).
    cbn [collect_api_costs_tick api_cost db api_costs] in Hdocs, Hfields, Hcost.
    rewrite Hdocs, Hcost.
    destruct w; cbn [insert_one stored_only].
    + exists ([("timestamp", VDate (bson_date t2));
               ("cost", VFloat (fadd (api_cost s) (cost_increment (hour t1) r)))] :: new1).
      split; [rewrite <- app_assoc; reflexivity |].
      split; [cbn [map]; rewrite Hfields; reflexivity | reflexivity].
    + exists new1. auto.
    + exists new1. auto.
Qed.

(** The documents and the final value of a run of [collect_messages]. *)
Lemma collect_messages_documents (ticks : list tick2) (s : AnalyticsCollector) :
  exists new,
    message_logs (db (collect_messages s ticks)) = (message_logs (db s) ++ new)%list /\
    map count_field new = map Some (stored_only (outcomes ticks) (message_deltas ticks)) /\
    message_count (collect_messages s ticks)
      = message_count s + fold_right Z.add 0 (message_deltas ticks).
Proof.
  unfold collect_messages, message_deltas, outcomes. revert s.
  induction ticks as [| [[[t1 t2] r] w] ticks IH]; intros s.
  - exists []. cbn [fold_left map fold_right stored_only]. rewrite app_nil_r.
    repeat split. lia.
  - cbn [fold_left map fold_right].
    destruct (IH (collect_messages_tick s t1 t2 r w)) as (new1 & Hdocs & Hfields & Hcount).
    cbn [collect_messages_tick message_count db message_logs] in Hdocs, Hfields, Hcount.
    rewrite Hdocs, Hcount.
    destruct w; cbn [insert_one stored_only].
    + exists ([("timestamp", VDate (bson_date t2));
               ("count", VInt (messages (hour t1) r))] :: new1).
      split; [rewrite <- app_assoc; reflexivity |].
      split; [cbn [map]; rewrite Hfields; reflexivity | lia].
    + exists new1. repeat split; auto. lia.
    + exists new1. repeat split; auto. lia.
Qed.

(** C10. In a run of [collect_api_costs] from the initial state, the pass
    number [i] computes [0.10 + d1 + ... + di], the sum in binary64 of the
    initial cost and of the increments drawn so far, and the document it
    appends to [api_costs], when its writes return, carries this sum and not
    the increment [di]; the [cost] fields of the collection are therefore
    non-decreasing, and the last sum is the running [api_cost].  When all
    the writes return, the [cost] fields are all the sums.  In a run of
    [collect_messages] the [count] fields of the documents appended to
    [message_logs] are the deltas of the passes whose writes returned, and
    the running [message_count] is the sum of the deltas of all the
    passes. *)
Theorem api_costs_record_running_cost (repr_float : float -> string)
    (redis : gmap string string) (d : database) (ticks : list tick2) :
  (exists new costs,
      api_costs (db (collect_api_costs repr_float (init redis d) ticks))
        = (api_costs d ++ new)%list /\
      map cost_field new = map Some costs /\
      costs = stored_only (outcomes ticks)
                (partial_sums (float_of_decimal 10 (-2)) (cost_increments ticks)) /\
      (Forall (fun w => w = Written) (outcomes ticks) ->
       costs = partial_sums (float_of_decimal 10 (-2)) (cost_increments ticks)) /\
      Sorted fle costs /\
      api_cost (collect_api_costs repr_float (init redis d) ticks)
        = fold_left fadd (cost_increments ticks) (float_of_decimal 10 (-2))) /\
  (exists new,
      message_logs (db (collect_messages (init redis d) ticks))
        = (message_logs d ++ new)%list /\
      map count_field new = map Some (stored_only (outcomes ticks) (message_deltas ticks)) /\
      message_count (collect_messages (init redis d) ticks)
        = fold_right Z.add 0 (message_deltas ticks)).
Proof.
  split.
  - destruct (collect_api_costs_documents repr_float ticks (init redis d))
      as (new & Hdocs & Hfields & Hcost).
    cbn [init api_cost db] in Hdocs, Hfields, Hcost.
    exists new, (stored_only (outcomes ticks)
                   (partial_sums (float_of_decimal 10 (-2)) (cost_increments ticks))).
    split; [exact Hdocs |]. split; [exact Hfields |]. split; [reflexivity |].
    split; [| split; [| exact Hcost]].
    + intros Hall. apply stored_only_all; [exact Hall |].
      rewrite partial_sums_length. unfold outcomes, cost_increments.
      rewrite !length_map. reflexivity.
    + apply StronglySorted_Sorted, stored_only_sorted.
      destruct (partial_sums_sorted (float_of_decimal 10 (-2)) (cost_increments ticks))
        as [Hsorted _].
      * left. eexists _, _. split; vm_compute; reflexivity.
      * unfold cost_increments. apply List.Forall_forall. intros x Hx.
        apply in_map_iff in Hx as ([[[t1 t2] r] w] & <- & _).
        apply cost_increment_finite_pos.
      * apply StronglySorted_inv in Hsorted. apply Hsorted.
  - destruct (collect_messages_documents ticks (init redis d))
      as (new & Hdocs & Hfields & Hcount).
    exists new. split; [exact Hdocs |]. split; [exact Hfields |].
    rewrite Hcount. cbn. lia.
Qed.

(** ** The chart callbacks *)

(** The series of [update_message_volume] does not read the [count] field:
    two collections with the same timestamps give the same series. *)
Lemma in_window_timestamp (s e : datetime) (d d' : document) :
  field "timestamp" d = field "timestamp" d' -> in_window s e d = in_window s e d'.
Proof. unfold in_window. intros ->. reflexivity. Qed.

Lemma message_volume_ignores_count (s e : datetime) (docs docs' : list document) :
  map (field "timestamp") docs = map (field "timestamp") docs' ->
  message_volume_pipeline (SumConst 1) s e docs
  = message_volume_pipeline (SumConst 1) s e docs'.
Proof.
  intros H. unfold message_volume_pipeline, group. do 2 f_equal.
  unfold match_window.
  generalize (@nil (value * Z)) as groups.
  revert docs' H. induction docs as [| d docs IH]; intros [| d' docs'] H groups;
    try discriminate; [reflexivity |].
  cbn [map] in H. injection H as Hd Hrest.
  cbn [List.filter]. rewrite (in_window_timestamp s e d d' Hd).
  destruct (in_window s e d'); [| apply IH; exact Hrest].
  cbn [fold_left eval_sum].
  replace (on_timestamp (fun ms => VStr (mongo_dateToString ms)) d)
    with (on_timestamp (fun ms => VStr (mongo_dateToString ms)) d')
    by (unfold on_timestamp; rewrite Hd; reflexivity).
  apply IH. exact Hrest.
Qed.

(** C1 (the code departs from the claim).  Two samples of the same hour
    with counts 4 and 6 give one bucket, whose value is 2, the number of
    samples, and not 10: the accumulator of the pipeline is [{'$sum': 1}].
    The same pipeline with [{'$sum': '$count'}] gives 10.  The same happens
    to the documents two passes of the generator write at 09:13 and 09:47:
    the deltas are 5 and 7, the bucket holds 2. *)
Theorem message_volume_tallies_rows :
  let now := mk_datetime 2024 1 1 12 0 0 0 in
  let t1 := mk_datetime 2024 1 1 9 13 0 0 in
  let t2 := mk_datetime 2024 1 1 9 47 0 0 in
  let d := mk_database [sample t1 4; sample t2 6] [] [] [] in
  update_message_volume d now
    = Ok [Scatter [VDate (bson_date (mk_datetime 2024 1 1 9 0 0 0))] [VInt 2]] /\
  message_volume_pipeline (SumConst 1) (sub_hours now 24) now (message_logs d)
    = [[("_id", VStr "2024-01-01 09:00"); ("count", VInt 2)]] /\
  message_volume_pipeline (SumField "count") (sub_hours now 24) now (message_logs d)
    = [[("_id", VStr "2024-01-01 09:00"); ("count", VInt 10)]] /\
  let g := collect_messages (init ∅ empty_db) [(t1, t1, 0, Written); (t2, t2, 2, Written)] in
  message_logs (db g) = [sample t1 5; sample t2 7] /\
  update_message_volume (db g) now
    = Ok [Scatter [VDate (bson_date (mk_datetime 2024 1 1 9 0 0 0))] [VInt 2]].
Proof. vm_compute. repeat split; reflexivity. Qed.

(** The heatmap of a single sample in the window is a grid of one cell. *)
Lemma heatmap_single_sample (now t : datetime) (count : Z)
    (logs costs limits : list document) :
  in_window (sub_hours now 24) now (sample t count) = true ->
  update_activity_heatmap (mk_database logs [sample t count] costs limits) now
  = Ok [Heatmap [[VInt 1]] day_labels hour_labels].
Proof.
  intros Hin. unfold update_activity_heatmap, heatmap_pipeline, match_window.
  cbn [user_activity List.filter]. rewrite Hin.
  cbn -[day_labels hour_labels mongo_hour mongo_dayOfWeek bson_date].
  rewrite !Z.eqb_refl. reflexivity.
Qed.

(** C2 (the code departs from the claim).  A single sample at 03:10 on
    Wednesday 2024-01-03 gives a grid of one row and one column, not of 24
    rows of 7 columns: [pivot] makes rows and columns for the hours and
    days that occur, and [fillna] fills only those. *)
Theorem heatmap_grid_not_dense :
  let now := mk_datetime 2024 1 3 12 0 0 0 in
  let t := mk_datetime 2024 1 3 3 10 0 0 in
  let d := mk_database [] [sample t 17] [] [] in
  weekday t = 2 /\
  update_activity_heatmap d now = Ok [Heatmap [[VInt 1]] day_labels hour_labels] /\
  grid_shape [[VInt 1]] = (1%nat, [1%nat]) /\
  (length hour_labels, length day_labels) = (24%nat, 7%nat).
Proof. vm_compute. repeat split; reflexivity. Qed.

(** A chart whose window holds no sample. *)
Lemma message_volume_empty_window (d : database) (now : datetime) :
  match_window (sub_hours now 24) now (message_logs d) = [] ->
  update_message_volume d now = Raise (KeyError "count").
Proof.
  intros H. unfold update_message_volume, message_volume_pipeline.
  rewrite H. reflexivity.
Qed.

Lemma raw_series_empty_window (collection : list document) (column : string)
    (now : datetime) :
  match_window (sub_hours now 24) now collection = [] ->
  raw_series_chart collection column now = Raise (KeyError column).
Proof.
  intros H. unfold raw_series_chart, find_window. rewrite H. reflexivity.
Qed.

Lemma heatmap_empty_window (d : database) (now : datetime) :
  match_window (sub_hours now 24) now (user_activity d) = [] ->
  update_activity_heatmap d now = Ok [Heatmap [] day_labels hour_labels].
Proof.
  intros H. unfold update_activity_heatmap, heatmap_pipeline.
  rewrite H. reflexivity.
Qed.

(** C3 (the code departs from the claim).  When no sample lies in the
    window, the queries return no document, and the three line charts raise
    [KeyError]: the frame built from no record has no column, the guard
    [if not df.empty] skips the indexing and the column of the trace is read
    all the same.  Only the heatmap returns a figure, with an empty grid. *)
Theorem empty_window_raises (d : database) (now : datetime) :
  match_window (sub_hours now 24) now (message_logs d) = [] ->
  match_window (sub_hours now 24) now (api_costs d) = [] ->
  match_window (sub_hours now 24) now (rate_limits d) = [] ->
  match_window (sub_hours now 24) now (user_activity d) = [] ->
  (message_volume_pipeline (SumConst 1) (sub_hours now 24) now (message_logs d) = [] /\
   find_window (sub_hours now 24) now (api_costs d) = [] /\
   find_window (sub_hours now 24) now (rate_limits d) = [] /\
   heatmap_pipeline (SumConst 1) (sub_hours now 24) now (user_activity d) = []) /\
  update_message_volume d now = Raise (KeyError "count") /\
  update_cost_chart d now = Raise (KeyError "cost") /\
  update_rate_limit_chart d now = Raise (KeyError "remaining") /\
  update_activity_heatmap d now = Ok [Heatmap [] day_labels hour_labels].
Proof.
  intros Hm Hc Hr Hu. split; [| repeat split].
  - unfold message_volume_pipeline, find_window, heatmap_pipeline.
    rewrite Hm, Hc, Hr, Hu. repeat split; reflexivity.
  - apply message_volume_empty_window, Hm.
  - apply raw_series_empty_window, Hc.
  - apply raw_series_empty_window, Hr.
  - apply heatmap_empty_window, Hu.
Qed.

Lemma empty_window_raises_witness :
  let now := mk_datetime 2024 1 3 12 0 0 0 in
  let old := mk_datetime 2023 12 25 8 0 0 0 in
  let d := mk_database [sample old 9] [sample old 21]
             [[("timestamp", VDate (bson_date old)); ("cost", VFloat (float_of_decimal 25 (-2)))]]
             [[("timestamp", VDate (bson_date old)); ("remaining", VInt 97)]] in
  (message_volume_pipeline (SumConst 1) (sub_hours now 24) now (message_logs d) = [] /\
   find_window (sub_hours now 24) now (api_costs d) = [] /\
   find_window (sub_hours now 24) now (rate_limits d) = [] /\
   heatmap_pipeline (SumConst 1) (sub_hours now 24) now (user_activity d) = []) /\
  update_message_volume d now = Raise (KeyError "count") /\
  update_cost_chart d now = Raise (KeyError "cost") /\
  update_rate_limit_chart d now = Raise (KeyError "remaining") /\
  update_activity_heatmap d now = Ok [Heatmap [] day_labels hour_labels].
Proof.
  cbv zeta. apply empty_window_raises; vm_compute; reflexivity.
Defined.

(** C4 (the code departs from the claim).  The only cell of the heatmap of
    a sample taken at 03:10 on a Wednesday is drawn at the labels "Mon" and
    "00:00": the columns of the grid are the days that occur, numbered by
    [$dayOfWeek] from Sunday = 1, and the labels are given by position.  With
    samples on a Sunday and on the next Monday the columns are Sunday and
    Monday, drawn at "Mon" and "Tue". *)
Theorem heatmap_day_label_mismatch :
  let wed := mk_datetime 2024 1 3 3 10 0 0 in
  let sun := mk_datetime 2024 1 7 23 0 0 0 in
  let mon := mk_datetime 2024 1 8 1 0 0 0 in
  expected_labels wed = ("Wed", "03:00") /\
  update_activity_heatmap (mk_database [] [sample wed 17] [] [])
                          (mk_datetime 2024 1 3 12 0 0 0)
    = Ok [Heatmap [[VInt 1]] day_labels hour_labels] /\
  nonzero_cells [[VInt 1]] day_labels hour_labels = [("Mon", "00:00")] /\
  expected_labels sun = ("Sun", "23:00") /\
  expected_labels mon = ("Mon", "01:00") /\
  update_activity_heatmap (mk_database [] [sample sun 12; sample mon 8] [] [])
                          (mk_datetime 2024 1 8 12 0 0 0)
    = Ok [Heatmap [[VInt 0; VInt 1]; [VInt 1; VInt 0]] day_labels hour_labels] /\
  nonzero_cells [[VInt 0; VInt 1]; [VInt 1; VInt 0]] day_labels hour_labels
    = [("Tue", "00:00"); ("Mon", "01:00")].
Proof. vm_compute. repeat split; reflexivity. Qed.

(** ** The snapshot formatter *)

Lemma digit_of_digit (d : Z) :
  0 <= d <= 9 -> digit_of (ascii_of_nat (48 + Z.to_nat d)) = Some d.
Proof.
  intros H.
  assert (d = 0 \/ d = 1 \/ d = 2 \/ d = 3 \/ d = 4 \/ d = 5 \/ d = 6 \/ d = 7
          \/ d = 8 \/ d = 9) as Hd by lia.
  repeat (destruct Hd as [-> | Hd]; [reflexivity |]). subst d. reflexivity.
Qed.

Lemma append_cons (c : ascii) (s t : string) : String c s ++ t = String c (s ++ t).
Proof. reflexivity. Qed.

Lemma append_nil_l (t : string) : "" ++ t = t.
Proof. reflexivity. Qed.

Lemma append_assoc (s t u : string) : (s ++ t) ++ u = s ++ (t ++ u).
Proof.
  induction s as [| c s IH]; [reflexivity |].
  rewrite !append_cons, IH. reflexivity.
Qed.

Lemma digits_of_pos_app (fuel : nat) (n : Z) (acc : string) :
  digits_of_pos fuel n acc = digits_of_pos fuel n "" ++ acc.
Proof.
  revert n acc. induction fuel as [| fuel IH]; intros n acc; cbn [digits_of_pos].
  - reflexivity.
  - destruct (n <? 10); [reflexivity |].
    rewrite (IH (n / 10) (String _ acc)), (IH (n / 10) (String _ "")).
    rewrite append_assoc. reflexivity.
Qed.

Lemma all_digits_app (s t : string) :
  all_digits (s ++ t) = all_digits s && all_digits t.
Proof.
  induction s as [| c s IH]; rewrite ?append_cons, ?append_nil_l;
    cbn [all_digits]; [reflexivity |].
  destruct (digit_of c); [exact IH | reflexivity].
Qed.

Lemma digits_of_pos_all_digits (fuel : nat) (n : Z) (acc : string) :
  all_digits acc = true -> all_digits (digits_of_pos fuel n acc) = true.
Proof.
  revert n acc. induction fuel as [| fuel IH]; intros n acc Hacc; cbn [digits_of_pos].
  - exact Hacc.
  - assert (all_digits (String (ascii_of_nat (48 + Z.to_nat (n mod 10))) acc) = true) as H.
    { cbn [all_digits]. rewrite digit_of_digit; [exact Hacc |].
      pose proof (Z.mod_pos_bound n 10). lia. }
    destruct (n <? 10); [exact H | apply IH; exact H].
Qed.

Lemma digits_of_pos_nonempty (fuel : nat) (n : Z) (acc : string) :
  digits_of_pos (S fuel) n acc <> EmptyString.
Proof.
  rewrite digits_of_pos_app. cbn [digits_of_pos].
  destruct (n <? 10); [discriminate |].
  rewrite digits_of_pos_app. intros H.
  destruct (digits_of_pos fuel (n / 10) ""); discriminate.
Qed.

(** Reading back the digits of a number. *)
Lemma digit_run_digits_of_pos (fuel : nat) (n : Z) :
  (0 < fuel)%nat -> 0 <= n < 2 ^ Z.of_nat fuel ->
  exists k : nat,
    (0 < k)%nat /\
    forall acc a c,
      digit_run (digits_of_pos fuel n acc) a c false
      = digit_run acc (a * 10 ^ Z.of_nat k + n) (c + k) false.
Proof.
  revert n. induction fuel as [| fuel IH]; intros n Hfuel Hn; [lia |].
  cbn [digits_of_pos]. {
    assert (0 <= n mod 10 <= 9) as Hd by (pose proof (Z.mod_pos_bound n 10); lia).
    destruct (Z.ltb_spec n 10) as [Hsmall | Hbig].
    + exists 1%nat. split; [lia |]. intros acc a c.
      cbn [digit_run]. rewrite digit_of_digit by exact Hd.
      rewrite Z.mod_small by lia.
      replace (c + 1)%nat with (S c) by lia.
      change (10 ^ Z.of_nat 1) with 10. reflexivity.
    + assert (0 <= n / 10 < 2 ^ Z.of_nat fuel) as Hq.
      { split; [apply Z.div_pos; lia |].
        apply Z.div_lt_upper_bound; [lia |].
        rewrite Nat2Z.inj_succ, Z.pow_succ_r in Hn by lia. lia. }
      assert (0 < fuel)%nat as Hf.
      { destruct fuel; [| lia]. cbn in Hq.
        assert (1 <= n / 10) by (apply Z.div_le_lower_bound; lia). lia. }
      destruct (IH (n / 10) Hf Hq) as (k & Hk & Hrun).
      exists (S k). split; [lia |]. intros acc a c.
      rewrite Hrun. cbn [digit_run]. rewrite digit_of_digit by exact Hd.
      replace (c + S k)%nat with (S (c + k)) by lia.
      f_equal. rewrite Nat2Z.inj_succ, Z.pow_succ_r by lia.
      pose proof (Z.div_mod n 10 ltac:(lia)). lia. }
Qed.

Lemma str_of_nonneg_fuel (n : Z) :
  0 <= n -> 0 <= n < 2 ^ Z.of_nat (S (Z.to_nat (Z.log2 n))).
Proof.
  intros Hn. split; [exact Hn |].
  rewrite Nat2Z.inj_succ, Z2Nat.id by apply Z.log2_nonneg.
  destruct (Z.eq_dec n 0) as [-> | Hnz]; [cbn; lia |].
  apply Z.log2_spec. lia.
Qed.

Lemma digit_run_str_of_nonneg (n : Z) :
  0 <= n ->
  exists k : nat, digit_run (str_of_nonneg n) 0 0 false = Some (n, S k).
Proof.
  intros Hn. unfold str_of_nonneg.
  destruct (digit_run_digits_of_pos _ n (Nat.lt_0_succ _) (str_of_nonneg_fuel n Hn))
    as (k & Hk & Hrun).
  rewrite Hrun. cbn [digit_run]. destruct k as [| k]; [lia |].
  exists k. reflexivity.
Qed.

Lemma rev_string_rev (s a b : string) :
  rev_string (rev_string s a) b = rev_string a (s ++ b).
Proof.
  revert a. induction s as [| c s IH]; intros a;
    rewrite ?append_cons, ?append_nil_l; cbn [rev_string].
  - reflexivity.
  - rewrite IH. reflexivity.
Qed.

Lemma no_space_rev_string (s acc : string) :
  no_space (rev_string s acc) = no_space s && no_space acc.
Proof.
  revert acc. induction s as [| c s IH]; intros acc; cbn [rev_string no_space].
  - reflexivity.
  - rewrite IH. cbn [no_space]. destruct (is_space c), (no_space s); reflexivity.
Qed.

Lemma lstrip_no_space (s : string) : no_space s = true -> lstrip s = s.
Proof.
  destruct s as [| c s]; cbn [no_space lstrip]; [reflexivity |].
  destruct (is_space c); [discriminate | reflexivity].
Qed.

Lemma append_empty_r (s : string) : s ++ "" = s.
Proof.
  induction s as [| c s IH]; [reflexivity |].
  rewrite append_cons, IH. reflexivity.
Qed.

Lemma strip_no_space (s : string) : no_space s = true -> strip s = s.
Proof.
  intros H. unfold strip. rewrite (lstrip_no_space s H).
  rewrite lstrip_no_space by (rewrite no_space_rev_string, H; reflexivity).
  rewrite rev_string_rev. cbn [rev_string]. apply append_empty_r.
Qed.

Lemma digit_not_special (c : ascii) (d : Z) :
  digit_of c = Some d ->
  is_space c = false /\ Ascii.eqb c "," = false /\ c <> "-"%char /\ c <> "+"%char.
Proof.
  unfold digit_of, is_space. intros H.
  destruct (Z.leb_spec 48 (Z.of_nat (nat_of_ascii c))) as [Hlo | Hlo];
    [| discriminate].
  destruct (Z.leb_spec (Z.of_nat (nat_of_ascii c)) 57) as [Hhi | Hhi];
    [| discriminate].
  repeat split.
  - destruct (Nat.eqb_spec (nat_of_ascii c) 32); [lia |].
    destruct (Nat.leb_spec 9 (nat_of_ascii c)); [| reflexivity].
    destruct (Nat.leb_spec (nat_of_ascii c) 13); [lia | reflexivity].
  - destruct (Ascii.eqb_spec c ","); [subst c; exfalso | reflexivity].
    vm_compute in Hlo. apply Hlo. reflexivity.
  - intros ->. vm_compute in Hlo. apply Hlo. reflexivity.
  - intros ->. vm_compute in Hlo. apply Hlo. reflexivity.
Qed.

Lemma all_digits_no_space (s : string) : all_digits s = true -> no_space s = true.
Proof.
  induction s as [| c s IH]; cbn [all_digits no_space]; [reflexivity |].
  destruct (digit_of c) as [d |] eqn:Hd; [| discriminate].
  intros H. destruct (digit_not_special c d Hd) as (-> & _). cbn. apply IH, H.
Qed.

Lemma str_of_nonneg_all_digits (n : Z) : all_digits (str_of_nonneg n) = true.
Proof. apply digits_of_pos_all_digits. reflexivity. Qed.

Lemma split_sign_digits (s : string) :
  all_digits s = true -> split_sign s = (false, s).
Proof.
  destruct s as [| c s]; [reflexivity |]. cbn [all_digits].
  destruct (digit_of c) as [d |] eqn:Hd; [| discriminate]. intros _.
  destruct (digit_not_special c d Hd) as (_ & _ & Hm & Hp).
  unfold split_sign.
  destruct c as [[] [] [] [] [] [] [] []]; try reflexivity; congruence.
Qed.

(** [int] reads back what [str] writes. *)
Lemma py_int_str_of_Z (n : Z) : py_int (PBytes (str_of_Z n)) = Ok n.
Proof.
  unfold py_int, str_of_Z.
  pose proof (str_of_nonneg_all_digits n) as Hn.
  pose proof (str_of_nonneg_all_digits (- n)) as Hm.
  destruct (Z.ltb_spec n 0) as [Hneg | Hpos].
  - rewrite strip_no_space
      by (cbn [no_space]; rewrite (all_digits_no_space _ Hm); reflexivity).
    cbn [split_sign].
    destruct (digit_run_str_of_nonneg (- n) ltac:(lia)) as (k & ->).
    f_equal. lia.
  - rewrite strip_no_space by (apply all_digits_no_space, Hn).
    rewrite (split_sign_digits _ Hn).
    destruct (digit_run_str_of_nonneg n Hpos) as (k & ->). reflexivity.
Qed.

Lemma str_of_Z_nonempty (n : Z) : str_of_Z n <> EmptyString.
Proof.
  unfold str_of_Z. destruct (n <? 0); [discriminate |].
  apply digits_of_pos_nonempty.
Qed.

Lemma get_or_stored_int (redis : gmap string string) (k : string) (default n : Z) :
  stored_int redis k default n -> py_int (get_or redis k default) = Ok n.
Proof.
  unfold get_or. intros [[-> ->] | ->]; [reflexivity |].
  pose proof (str_of_Z_nonempty n) as Hne.
  destruct (str_of_Z n) eqn:Hs; [congruence |].
  rewrite <- Hs. apply py_int_str_of_Z.
Qed.

(** ** Reading the text of a decimal number *)

Lemma digit_run_digits_value (s : string) (acc f : Z) (count : nat) :
  digits_value s acc = Some f ->
  digit_run s acc count false = Some (f, (count + String.length s)%nat).
Proof.
  revert acc count. induction s as [| c s IH]; intros acc count;
    cbn [digits_value digit_run String.length].
  - intros [= ->]. rewrite Nat.add_0_r. reflexivity.
  - destruct (digit_of c) as [d |]; [| discriminate].
    intros H. rewrite (IH _ (S count) H). f_equal. f_equal. lia.
Qed.

Lemma digits_value_all_digits (s : string) (acc f : Z) :
  digits_value s acc = Some f -> all_digits s = true.
Proof.
  revert acc. induction s as [| c s IH]; intros acc; cbn [digits_value all_digits];
    [reflexivity |].
  destruct (digit_of c); [apply IH | discriminate].
Qed.

Lemma no_space_app (s1 s2 : string) :
  no_space (s1 ++ s2) = no_space s1 && no_space s2.
Proof.
  induction s1 as [| c s1 IH]; [reflexivity |].
  rewrite append_cons. cbn [no_space]. rewrite IH. apply andb_assoc.
Qed.

(** A digit is none of the other characters of a float literal. *)
Lemma digit_not_letter (c : ascii) (d : Z) :
  digit_of c = Some d ->
  Ascii.eqb (lower c) "e" = false /\ Ascii.eqb c "." = false /\
  Ascii.eqb (lower c) "i" = false /\ Ascii.eqb (lower c) "n" = false.
Proof.
  destruct c as [[] [] [] [] [] [] [] []]; intros H;
    first [ discriminate H | repeat split; reflexivity ].
Qed.

(** [cut_at] goes through a run of digits when no digit satisfies [p]. *)
Lemma cut_at_digits (p : ascii -> bool) (s rest : string) :
  (forall c d, digit_of c = Some d -> p c = false) ->
  all_digits s = true ->
  cut_at p (s ++ rest) = (s ++ fst (cut_at p rest), snd (cut_at p rest)).
Proof.
  intros Hp. induction s as [| c s IH]; intros Hs.
  - rewrite !append_nil_l. destruct (cut_at p rest); reflexivity.
  - rewrite !append_cons. cbn [all_digits] in Hs. cbn [cut_at].
    destruct (digit_of c) as [d |] eqn:Hd; [| discriminate].
    rewrite (Hp c d Hd), (IH Hs). reflexivity.
Qed.

Lemma cut_at_all_digits (p : ascii -> bool) (s : string) :
  (forall c d, digit_of c = Some d -> p c = false) ->
  all_digits s = true -> cut_at p s = (s, None).
Proof.
  intros Hp Hs. rewrite <- (append_empty_r s) at 1.
  rewrite (cut_at_digits p s "" Hp Hs). cbn [cut_at fst snd].
  rewrite append_empty_r. reflexivity.
Qed.

Lemma str_of_nonneg_head (a : Z) :
  exists c d rest, str_of_nonneg a = String c rest /\ digit_of c = Some d.
Proof.
  pose proof (str_of_nonneg_all_digits a) as Hd.
  assert (str_of_nonneg a <> EmptyString) as Hne by apply digits_of_pos_nonempty.
  destruct (str_of_nonneg a) as [| c rest]; [congruence |].
  cbn [all_digits] in Hd. destruct (digit_of c) as [d |] eqn:Hc; [| discriminate].
  exists c, d, rest. split; [reflexivity | exact Hc].
Qed.

(** [float] reads the text [a.frac] as the binary64 number nearest to the
    decimal number it writes. *)
Lemma py_float_fixed_text (a : Z) (frac : string) (f : Z) :
  0 <= a -> frac <> EmptyString -> digits_value frac 0 = Some f ->
  py_float (PBytes (fixed_text a frac))
  = Ok (float_of_decimal (a * 10 ^ Z.of_nat (String.length frac) + f)
                         (- Z.of_nat (String.length frac))).
Proof.
  intros Ha Hne Hf.
  pose proof (digits_value_all_digits _ _ _ Hf) as Hfd.
  pose proof (str_of_nonneg_all_digits a) as Had.
  destruct (str_of_nonneg_head a) as (c & d & rest & Hhead & Hc).
  destruct (digit_not_letter c d Hc) as (_ & _ & Hi & Hn).
  destruct (digit_not_special c d Hc) as (_ & _ & Hm & Hp).
  unfold py_float, fixed_text.
  rewrite strip_no_space.
  2:{ rewrite !no_space_app, (all_digits_no_space _ Had), (all_digits_no_space _ Hfd).
      reflexivity. }
  assert (split_sign (str_of_nonneg a ++ "." ++ frac)
          = (false, str_of_nonneg a ++ "." ++ frac)) as ->.
  { rewrite Hhead, append_cons. unfold split_sign.
    destruct c as [[] [] [] [] [] [] [] []]; try reflexivity; congruence. }
  assert (forall w, String.eqb (lower_string (str_of_nonneg a ++ "." ++ frac))
                               (String "i" w) = false) as Hinf.
  { intros w. rewrite Hhead, append_cons. cbn [lower_string String.eqb].
    rewrite Hi. reflexivity. }
  assert (String.eqb (lower_string (str_of_nonneg a ++ "." ++ frac)) "nan" = false)
    as Hnan.
  { rewrite Hhead, append_cons. cbn [lower_string String.eqb].
    rewrite Hn. reflexivity. }
  rewrite (Hinf "nf"), (Hinf "nfinity"), Hnan. cbn [orb].
  unfold decimal_numeral.
  assert (cut_at (fun c => Ascii.eqb (lower c) "e") (str_of_nonneg a ++ "." ++ frac)
          = (str_of_nonneg a ++ "." ++ frac, None)) as ->.
  { rewrite cut_at_digits by (exact Had || intros ? ? H; apply (digit_not_letter _ _ H)).
    change ("." ++ frac) with (String "." frac). cbn [cut_at].
    change (Ascii.eqb (lower ".") "e") with false. cbn iota.
    rewrite cut_at_all_digits by (exact Hfd || intros ? ? H; apply (digit_not_letter _ _ H)).
    reflexivity. }
  assert (cut_at (fun c => Ascii.eqb c ".") (str_of_nonneg a ++ "." ++ frac)
          = (str_of_nonneg a, Some frac)) as ->.
  { rewrite cut_at_digits by (exact Had || intros ? ? H; apply (digit_not_letter _ _ H)).
    change ("." ++ frac) with (String "." frac). cbn [cut_at Ascii.eqb Bool.eqb fst snd].
    rewrite append_empty_r. reflexivity. }
  destruct (digit_run_str_of_nonneg a Ha) as (k & Hrun).
  unfold digit_run_opt. rewrite Hhead in *. rewrite Hrun.
  destruct frac as [| c' frac']; [congruence |].
  rewrite (digit_run_digits_value _ _ _ 0 Hf).
  set (n := String.length (String c' frac')).
  assert (0 < Z.of_nat n) as Hlen by (unfold n; cbn [String.length]; lia).
  replace (Nat.eqb (S k + (0 + n)) 0) with false by (symmetry; apply Nat.eqb_neq; lia).
  replace (0 + n)%nat with n by lia.
  destruct (a * 10 ^ Z.of_nat n + f) as [| D | D] eqn:HD; [| reflexivity | reflexivity].
  unfold float_of_decimal.
  destruct (Z.leb_spec 0 (- Z.of_nat n)); [lia | reflexivity].
Qed.

(** Taking the separators out of [f"{n:,}"] gives back [str(n)]. *)
Lemma remove_commas_add_commas (s : string) :
  all_digits s = true -> remove_commas (add_commas s) = s.
Proof.
  induction s as [| c s IH]; cbn [all_digits add_commas remove_commas]; [reflexivity |].
  destruct (digit_of c) as [d |] eqn:Hd; [| discriminate]. intros H.
  destruct (digit_not_special c d Hd) as (_ & -> & _).
  destruct (Nat.eqb (String.length s mod 3) 0 && negb (Nat.eqb (String.length s) 0));
    cbn [remove_commas Ascii.eqb]; rewrite ?Ascii.eqb_refl, (IH H); reflexivity.
Qed.

Lemma remove_commas_format_comma (n : Z) :
  remove_commas (format_comma n) = str_of_Z n.
Proof.
  unfold format_comma, str_of_Z. destruct (n <? 0).
  - cbn [remove_commas]. change (Ascii.eqb "-" ",") with false. cbn iota.
    rewrite remove_commas_add_commas by apply str_of_nonneg_all_digits. reflexivity.
  - apply remove_commas_add_commas, str_of_nonneg_all_digits.
Qed.

(** The integer printed by [f"{x:.2f}"] is within half a hundredth of [x]. *)
Lemma round_hundredths_nearest (m : positive) (e : Z) :
  (0 <= e -> round_hundredths m e = 100 * (Z.pos m * 2 ^ e)) /\
  (e < 0 ->
   Z.abs (2 * (round_hundredths m e * 2 ^ (- e) - 100 * Z.pos m)) <= 2 ^ (- e)).
Proof.
  unfold round_hundredths. split; intros He.
  - destruct (Z.leb_spec 0 e); lia.
  - destruct (Z.leb_spec 0 e); [lia |].
    assert (0 < 2 ^ (- e - 1)) as Hhalf by (apply pow2_pos; lia).
    assert (2 ^ (- e) = 2 * 2 ^ (- e - 1)) as Hb.
    { rewrite <- Z.pow_succ_r by lia. f_equal. lia. }
    pose proof (Z.div_mod (Z.pos m * 100) (2 ^ (- e)) ltac:(lia)) as Hdm.
    pose proof (Z.mod_pos_bound (Z.pos m * 100) (2 ^ (- e)) ltac:(lia)) as Hr.
    set (q := Z.pos m * 100 / 2 ^ (- e)) in *.
    set (r := (Z.pos m * 100) mod 2 ^ (- e)) in *.
    destruct (Z.ltb_spec (2 ^ (- e - 1)) r) as [Hgt | Hle]; cbn [orb].
    + nia.
    + destruct (Z.eqb_spec r (2 ^ (- e - 1))) as [Heq | Hne]; cbn [andb].
      * destruct (Z.odd q); nia.
      * nia.
Qed.

(** The separators of [f"{n:,}"] cut the digits in groups of three from the
    right. *)
Lemma add_commas_cons (c : ascii) (rest : string) :
  add_commas (String c rest)
  = String c (if Nat.eqb (String.length rest mod 3) 0
                 && negb (Nat.eqb (String.length rest) 0)
              then String "," (add_commas rest)
              else add_commas rest).
Proof. reflexivity. Qed.

Lemma mod3_offset (j k : nat) : (j < 3)%nat -> ((j + 3 * k) mod 3 = j)%nat.
Proof.
  intros Hj. rewrite (Nat.mul_comm 3), Nat.Div0.mod_add. apply Nat.mod_small, Hj.
Qed.

(** The length of a run of digits, counted from a multiple of three. *)
Lemma add_commas_three (k : nat) (s : string) :
  all_digits s = true -> String.length s = (3 * S k)%nat ->
  groups_of_three (String "," (add_commas s)) = true.
Proof.
  revert s. induction k as [| k IH]; intros s Hd Hlen.
  - destruct s as [| a [| b [| c [| x rest]]]]; cbn [String.length] in Hlen; try lia.
    cbn [all_digits] in Hd.
    destruct (digit_of a) eqn:Ha; [| discriminate].
    destruct (digit_of b) eqn:Hb; [| discriminate].
    destruct (digit_of c) eqn:Hc; [| discriminate].
    cbn. unfold is_digit. rewrite Ha, Hb, Hc. reflexivity.
  - destruct s as [| a [| b [| c rest]]]; cbn [String.length] in Hlen; try lia.
    assert (String.length rest = (3 * S k)%nat) as Hrest by lia.
    cbn [all_digits] in Hd.
    destruct (digit_of a) eqn:Ha; [| discriminate].
    destruct (digit_of b) eqn:Hb; [| discriminate].
    destruct (digit_of c) eqn:Hc; [| discriminate].
    rewrite !add_commas_cons. cbn [String.length]. rewrite Hrest.
    rewrite (mod3_offset 2 (S k) ltac:(lia) : (S (S (3 * S k)) mod 3 = 2)%nat).
    rewrite (mod3_offset 1 (S k) ltac:(lia) : (S (3 * S k) mod 3 = 1)%nat).
    rewrite (mod3_offset 0 (S k) ltac:(lia) : ((3 * S k) mod 3 = 0)%nat).
    cbn [Nat.eqb andb negb groups_of_three].
    unfold is_digit. rewrite Ha, Hb, Hc.
    change (Ascii.eqb "," ",") with true. cbn [andb].
    apply IH; assumption.
Qed.

Lemma add_commas_multiple_of_three (k : nat) (s : string) :
  all_digits s = true -> String.length s = (3 * k)%nat ->
  groups_of_three
    (if Nat.eqb (String.length s mod 3) 0 && negb (Nat.eqb (String.length s) 0)
     then String "," (add_commas s) else add_commas s) = true.
Proof.
  intros Hd Hlen. destruct k as [| k].
  - destruct s; [reflexivity | discriminate].
  - rewrite Hlen.
    rewrite (mod3_offset 0 (S k) ltac:(lia) : ((3 * S k) mod 3 = 0)%nat).
    cbn [Nat.eqb andb negb Nat.mul Nat.add].
    apply (add_commas_three k); assumption.
Qed.

Lemma add_commas_well_grouped (s : string) :
  all_digits s = true -> s <> EmptyString -> well_grouped (add_commas s) = true.
Proof.
  intros Hd Hne.
  assert (exists k j, (String.length s = j + 3 * k /\ 1 <= j <= 3)%nat) as (k & j & Hlen & Hj).
  { destruct s as [| c s]; [congruence |]. cbn [String.length].
    exists (String.length s / 3)%nat, (S (String.length s mod 3)).
    pose proof (Nat.div_mod_eq (String.length s) 3).
    pose proof (Nat.mod_upper_bound (String.length s) 3). lia. }
  assert (j = 1 \/ j = 2 \/ j = 3)%nat as [-> | [-> | ->]] by lia.
  - destruct s as [| a rest]; cbn [String.length] in Hlen; [lia |].
    cbn [all_digits] in Hd.
    destruct (digit_of a) eqn:Ha; [| discriminate].
    rewrite add_commas_cons. cbn [well_grouped]. unfold is_digit. rewrite Ha.
    rewrite (add_commas_multiple_of_three k rest Hd ltac:(lia)). reflexivity.
  - destruct s as [| a [| b rest]]; cbn [String.length] in Hlen; try lia.
    cbn [all_digits] in Hd.
    destruct (digit_of a) eqn:Ha; [| discriminate].
    destruct (digit_of b) eqn:Hb; [| discriminate].
    rewrite (add_commas_cons a). cbn [String.length].
    replace (S (String.length rest)) with (1 + 3 * k)%nat by lia.
    rewrite mod3_offset by lia.
    cbn [Nat.eqb andb]. rewrite (add_commas_cons b).
    cbn [well_grouped]. unfold is_digit. rewrite Ha, Hb.
    rewrite (add_commas_multiple_of_three k rest Hd ltac:(lia)).
    cbn [andb orb]. apply orb_true_r.
  - destruct s as [| a [| b [| c rest]]]; cbn [String.length] in Hlen; try lia.
    cbn [all_digits] in Hd.
    destruct (digit_of a) eqn:Ha; [| discriminate].
    destruct (digit_of b) eqn:Hb; [| discriminate].
    destruct (digit_of c) eqn:Hc; [| discriminate].
    rewrite (add_commas_cons a). cbn [String.length].
    replace (S (S (String.length rest))) with (2 + 3 * k)%nat by lia.
    rewrite mod3_offset by lia.
    cbn [Nat.eqb andb]. rewrite (add_commas_cons b). cbn [String.length].
    replace (S (String.length rest)) with (1 + 3 * k)%nat by lia.
    rewrite mod3_offset by lia.
    cbn [Nat.eqb andb]. rewrite (add_commas_cons c).
    cbn [well_grouped]. unfold is_digit. rewrite Ha, Hb, Hc.
    rewrite (add_commas_multiple_of_three k rest Hd ltac:(lia)).
    cbn [andb orb]. rewrite !orb_true_r. reflexivity.
Qed.

Lemma format_comma_well_grouped (n : Z) :
  format_comma n = (if n <? 0 then "-" else "") ++ add_commas (str_of_nonneg (Z.abs n)) /\
  well_grouped (add_commas (str_of_nonneg (Z.abs n))) = true.
Proof.
  split.
  - unfold format_comma. destruct (Z.ltb_spec n 0).
    + replace (Z.abs n) with (- n) by lia. reflexivity.
    + replace (Z.abs n) with n by lia. reflexivity.
  - apply add_commas_well_grouped; [apply str_of_nonneg_all_digits |].
    apply digits_of_pos_nonempty.
Qed.

Lemma pad2_two_digits (k : Z) :
  0 <= k < 100 -> String.length (pad 2 k) = 2%nat /\ all_digits (pad 2 k) = true.
Proof.
  intros Hk.
  assert (forallb (fun i => Nat.eqb (String.length (pad 2 (Z.of_nat i))) 2
                            && all_digits (pad 2 (Z.of_nat i)))
                  (seq 0 100) = true) as Hall by (vm_compute; reflexivity).
  rewrite forallb_forall in Hall.
  specialize (Hall (Z.to_nat k)). rewrite Z2Nat.id in Hall by lia.
  destruct (andb_prop _ _ (Hall ltac:(apply in_seq; lia))) as [Hlen Hdig].
  apply Nat.eqb_eq in Hlen. auto.
Qed.

Lemma digits_value_pad2 (k : Z) : 0 <= k < 100 -> digits_value (pad 2 k) 0 = Some k.
Proof.
  intros Hk.
  assert (forallb (fun i => match digits_value (pad 2 (Z.of_nat i)) 0 with
                            | Some v => v =? Z.of_nat i
                            | None => false
                            end)
                  (seq 0 100) = true) as Hall by (vm_compute; reflexivity).
  rewrite forallb_forall in Hall.
  specialize (Hall (Z.to_nat k) ltac:(apply in_seq; lia)).
  rewrite Z2Nat.id in Hall by lia.
  destruct (digits_value (pad 2 k) 0) as [v |]; [| discriminate].
  apply Z.eqb_eq in Hall. congruence.
Qed.

(** An amount with two decimals is printed as it was written: the binary64
    number nearest to [c / 100] is nearer to it than to any other
    hundredth. *)
Lemma format_2f_cents (c : Z) :
  0 <= c < 10 ^ 15 ->
  format_2f (float_of_decimal c (-2)) = fixed_text (c / 100) (pad 2 (c mod 100)).
Proof.
  intros Hc. destruct (Z.eq_dec c 0) as [-> | Hnz]; [vm_compute; reflexivity |].
  destruct (float_of_cents c ltac:(lia)) as (m & e & -> & He & Hnear).
  unfold format_2f, fixed_text. rewrite append_nil_l.
  enough (round_hundredths m e = c) as -> by reflexivity.
  destruct (round_hundredths_nearest m e) as [_ Hround].
  specialize (Hround ltac:(lia)).
  set (n := round_hundredths m e) in *.
  assert (0 < 2 ^ (- e)) as Hpos by (apply pow2_pos; lia).
  set (A := 2 ^ (- e)) in *.
  assert (Z.abs ((n - c) * A) < A) as Hdiff.
  { replace ((n - c) * A) with ((n * A - 100 * Z.pos m) + (100 * Z.pos m - c * A)) by ring.
    lia. }
  destruct (Z.lt_trichotomy n c) as [Hlt | [Heq | Hgt]]; [exfalso | exact Heq | exfalso].
  - assert ((c - n) * A >= 1 * A) by (apply Z.le_ge, Z.mul_le_mono_nonneg_r; lia).
    replace ((n - c) * A) with (- ((c - n) * A)) in Hdiff by ring. lia.
  - assert ((n - c) * A >= 1 * A) by (apply Z.le_ge, Z.mul_le_mono_nonneg_r; lia).
    lia.
Qed.

Lemma get_or_stored_cost (redis : gmap string string) (x : float) :
  stored_cost redis x -> py_float (get_or redis "api_cost" 0) = Ok x.
Proof.
  unfold get_or. intros [[-> ->] | (a & frac & f & -> & Ha & Hne & Hf & ->)];
    [reflexivity |].
  rewrite <- (py_float_fixed_text a frac f Ha Hne Hf).
  destruct (str_of_nonneg_head a) as (c & d & rest & Hhead & _).
  unfold fixed_text. rewrite Hhead, append_cons. reflexivity.
Qed.

Lemma stored_cost_cents (redis : gmap string string) (c : Z) :
  0 <= c < 10 ^ 15 ->
  redis !! "api_cost" = Some (fixed_text (c / 100) (pad 2 (c mod 100))) ->
  stored_cost redis (float_of_decimal c (-2)).
Proof.
  intros Hc Hk. right. exists (c / 100), (pad 2 (c mod 100)), (c mod 100).
  pose proof (Z.mod_pos_bound c 100 ltac:(lia)) as Hmod.
  destruct (pad2_two_digits (c mod 100) Hmod) as [Hlen _].
  split; [exact Hk |]. split; [apply Z.div_pos; lia |].
  split; [intros E; rewrite E in Hlen; discriminate |].
  split; [apply digits_value_pad2, Hmod |].
  rewrite Hlen. change (10 ^ Z.of_nat 2) with 100. change (- Z.of_nat 2) with (-2).
  f_equal. pose proof (Z.div_mod c 100 ltac:(lia)). lia.
Qed.

(** C9 (as stated, refuted).  Not every state of the fast store is
    rendered: when [total_messages] holds a text that is not an integer
    numeral, [int] raises [ValueError] and [update_stats] returns no card. *)
Lemma snapshot_raises_on_other_text :
  update_stats (<["total_messages" := "12.5"]> ∅) = Raise invalid_int /\
  ~ (forall redis : gmap string string, exists cards, update_stats redis = Ok cards).
Proof.
  assert (update_stats (<["total_messages" := "12.5"]> ∅) = Raise invalid_int) as H
    by (vm_compute; reflexivity).
  split; [exact H |].
  intros Hall. destruct (Hall (<["total_messages" := "12.5"]> ∅)) as [cards Hc].
  rewrite H in Hc. discriminate.
Qed.

(** C9 (amended).  In every state of the fast store in which each key is
    absent or holds the text of a number (an integer for the three counts,
    a decimal number [a.frac] for the cost), [update_stats] returns the four
    renderings: messages and active users with thousands separators (the
    digits of the number, in groups of three from the right), the API cost
    as ["$"] and the hundredths nearest to the binary64 number nearest to
    the text, with two decimals, the rate limit as an integer and ["%"].  A
    cost written with two decimals and at most fifteen digits is rendered as
    it is written.  An absent key is rendered from its default, 0 or 100 for
    the rate limit: ["0"], ["$0.00"], ["100%"].  The renderings of 1234567,
    0.1 and 97 are ["1,234,567"], ["$0.10"] and ["97%"]. *)
Theorem snapshot_formatting :
  (forall (redis : gmap string string) (m u r : Z) (x : float),
      stored_int redis "total_messages" 0 m ->
      stored_int redis "active_users" 0 u ->
      stored_cost redis x ->
      stored_int redis "rate_limit" 100 r ->
      update_stats redis
      = Ok [format_comma m; format_comma u; "$" ++ format_2f x; str_of_Z r ++ "%"]) /\
  (forall (redis : gmap string string) (m u r c : Z),
      stored_int redis "total_messages" 0 m ->
      stored_int redis "active_users" 0 u ->
      0 <= c < 10 ^ 15 ->
      redis !! "api_cost" = Some (fixed_text (c / 100) (pad 2 (c mod 100))) ->
      stored_int redis "rate_limit" 100 r ->
      update_stats redis
      = Ok [format_comma m; format_comma u;
            "$" ++ fixed_text (c / 100) (pad 2 (c mod 100)); str_of_Z r ++ "%"]) /\
  (forall n : Z,
      remove_commas (format_comma n) = str_of_Z n /\
      format_comma n
      = (if n <? 0 then "-" else "") ++ add_commas (str_of_nonneg (Z.abs n)) /\
      well_grouped (add_commas (str_of_nonneg (Z.abs n))) = true) /\
  (forall (s : bool) (m : positive) (e : Z),
      let n := round_hundredths m e in
      format_2f (S754_finite s m e)
      = (if s then "-" else "") ++ str_of_nonneg (n / 100) ++ "." ++ pad 2 (n mod 100) /\
      String.length (pad 2 (n mod 100)) = 2%nat /\
      (0 <= e -> n = 100 * (Z.pos m * 2 ^ e)) /\
      (e < 0 -> Z.abs (2 * (n * 2 ^ (- e) - 100 * Z.pos m)) <= 2 ^ (- e))) /\
  format_comma 1234567 = "1,234,567" /\
  py_float (PBytes "0.1") = Ok (float_of_decimal 1 (-1)) /\
  "$" ++ format_2f (float_of_decimal 1 (-1)) = "$0.10" /\
  str_of_Z 97 ++ "%" = "97%" /\
  format_comma 0 = "0" /\
  "$" ++ format_2f (float_of_int 0) = "$0.00" /\
  str_of_Z 100 ++ "%" = "100%" /\
  update_stats ∅ = Ok ["0"; "0"; "$0.00"; "100%"].
Proof.
  assert (forall (redis : gmap string string) (m u r : Z) (x : float),
             stored_int redis "total_messages" 0 m ->
             stored_int redis "active_users" 0 u ->
             stored_cost redis x ->
             stored_int redis "rate_limit" 100 r ->
             update_stats redis
             = Ok [format_comma m; format_comma u; "$" ++ format_2f x; str_of_Z r ++ "%"])
    as Hcards.
  { intros redis m u r x Hm Hu Hx Hr. unfold update_stats.
    rewrite (get_or_stored_int _ _ _ _ Hm), (get_or_stored_int _ _ _ _ Hu),
      (get_or_stored_cost _ _ Hx), (get_or_stored_int _ _ _ _ Hr).
    reflexivity. }
  split; [exact Hcards |]. split; [| split; [| split]].
  - intros redis m u r c Hm Hu Hc Hk Hr.
    rewrite (Hcards redis m u r _ Hm Hu (stored_cost_cents redis c Hc Hk) Hr).
    rewrite (format_2f_cents c Hc). reflexivity.
  - intros n. split; [apply remove_commas_format_comma |].
    apply format_comma_well_grouped.
  - intros s m e n. split; [reflexivity |]. split.
    + apply pad2_two_digits. apply Z.mod_pos_bound. lia.
    + apply round_hundredths_nearest.
  - vm_compute. repeat split; reflexivity.
Qed.

Lemma snapshot_formatting_witness :
  let redis : gmap string string :=
    <["total_messages" := "1234567"]>
      (<["api_cost" := "0.1"]> (<["rate_limit" := "97"]> ∅)) in
  let redis' : gmap string string :=
    <["active_users" := "24"]> (<["api_cost" := "12.34"]> ∅) in
  update_stats redis
  = Ok [format_comma 1234567; format_comma 0;
        "$" ++ format_2f (float_of_decimal 1 (-1)); str_of_Z 97 ++ "%"] /\
  update_stats redis' = Ok [format_comma 0; format_comma 24; "$12.34"; str_of_Z 100 ++ "%"].
Proof.
  cbv zeta. split.
  - apply (proj1 snapshot_formatting).
    + right. reflexivity.
    + left. split; reflexivity.
    + right. exists 0, "1", 1. repeat split; (reflexivity || lia || discriminate).
    + right. reflexivity.
  - apply (proj1 (proj2 snapshot_formatting) _ 0 24 100 1234).
    + left. split; reflexivity.
    + right. reflexivity.
    + lia.
    + reflexivity.
    + left. split; reflexivity.
Defined.

(** ** From the generator to the stat cards *)

Lemma stored_int_insert_ne (redis : gmap string string) (k k' v : string)
    (default n : Z) :
  k' <> k -> stored_int redis k default n ->
  stored_int (<[k' := v]> redis) k default n.
Proof.
  intros Hne [[Hnone ->] | Hsome]; [left | right];
    rewrite lookup_insert_ne by exact Hne; auto.
Qed.

Lemma stored_int_insert (redis : gmap string string) (k : string) (default n : Z) :
  stored_int (<[k := str_of_Z n]> redis) k default n.
Proof. right. apply lookup_insert_eq. Qed.

(** ** The documents of [api_costs] along every interleaving *)

Lemma Sorted_snoc {A} (R : A -> A -> Prop) (l : list A) (y : A) :
  Sorted R l -> (forall x, last l = Some x -> R x y) -> Sorted R (l ++ [y])%list.
Proof.
  induction 1 as [| a l Hs IH Hhd]; intros Hlast; cbn [app].
  - constructor; constructor.
  - constructor.
    + apply IH. intros x Hx. apply Hlast. destruct l; [discriminate | exact Hx].
    + destruct Hhd as [| b l' Hab]; cbn [app]; constructor; [| exact Hab].
      apply Hlast. reflexivity.
Qed.

(** Whatever the other loops do in between, and whatever happens to the
    writes, the [cost] fields appended to [api_costs] since the start are
    non-decreasing, and none is above the running [api_cost]. *)
Lemma reachable_api_costs_sorted (repr_float : float -> string)
    (redis : gmap string string) (d : database) (s : AnalyticsCollector) :
  rtc (step repr_float) (init redis d) s ->
  exists new costs,
    api_costs (db s) = (api_costs d ++ new)%list /\
    map cost_field new = map Some costs /\
    Sorted fle costs /\
    Forall (fun c => (finite_pos c \/ c = S754_infinity false) /\ fle c (api_cost s)) costs /\
    (finite_pos (api_cost s) \/ api_cost s = S754_infinity false).
Proof.
  intros Hrun.
  apply (rtc_ind_r (R := step repr_float)
           (fun s => exists new costs,
                api_costs (db s) = (api_costs d ++ new)%list /\
                map cost_field new = map Some costs /\
                Sorted fle costs /\
                Forall (fun c => (finite_pos c \/ c = S754_infinity false) /\
                                 fle c (api_cost s)) costs /\
                (finite_pos (api_cost s) \/ api_cost s = S754_infinity false))
           (init redis d)); [| | exact Hrun].
  - exists [], []. rewrite app_nil_r.
    split; [reflexivity |]. split; [reflexivity |]. split; [constructor |].
    split; [constructor |].
    apply (reachable_cost repr_float (init redis d)), reachable_init.
  - intros s1 s2 _ Hstep (new & costs & Hdocs & Hfields & Hsorted & Hbelow & Hcost).
    destruct Hstep as [s1 t1 t2 r w | s1 t1 t2 t3 r w s2 Htick | s1 t1 t2 r w | s1 t1 t2 r w].
    + exists new, costs. cbn [collect_messages_tick db api_costs api_cost]. auto.
    + invert_user_tick Htick. exists new, costs. cbn [db api_costs api_cost]. auto.
    + destruct (fadd_cost_step (api_cost s1) (cost_increment (hour t1) r) Hcost
                  (cost_increment_finite_pos _ _)) as [Hcost' Hle].
      set (x' := fadd (api_cost s1) (cost_increment (hour t1) r)) in *.
      assert (Forall (fun c => (finite_pos c \/ c = S754_infinity false) /\ fle c x') costs)
        as Hbelow'.
      { eapply List.Forall_impl; [| exact Hbelow]. intros c [Hc Hcle].
        split; [exact Hc |]. apply (fle_trans c (api_cost s1) x'); auto. }
      assert (fle x' x') as Hrefl.
      { unfold fle. destruct Hcost' as [(m & e & -> & Hb) | ->]; [| reflexivity].
        apply fleb_finite; auto; lia. }
      cbn [collect_api_costs_tick db api_costs api_cost]. fold x'.
      destruct w; cbn [insert_one].
      * exists (new ++ [[("timestamp", VDate (bson_date t2)); ("cost", VFloat x')]])%list,
          (costs ++ [x'])%list.
        split; [rewrite Hdocs, <- app_assoc; reflexivity |].
        split; [rewrite !map_app, Hfields; reflexivity |].
        split; [| split; [| exact Hcost']].
        -- apply Sorted_snoc; [exact Hsorted |]. intros c Hc.
           apply last_Some_elem_of, list_elem_of_In in Hc.
           rewrite List.Forall_forall in Hbelow'. apply Hbelow', Hc.
        -- apply Forall_app. split; [exact Hbelow' |].
           constructor; [split; assumption | constructor].
      * exists new, costs. auto.
      * exists new, costs. auto.
    + exists new, costs. cbn [collect_rate_limits_tick db api_costs api_cost]. auto.
Qed.

(** ** The float literals of the source, as binary64 numbers *)

Lemma source_literals :
  float_of_decimal 7 (-1) = S754_finite false 6305039478318694 (-53) /\
  float_of_decimal 10 (-2) = S754_finite false 7205759403792794 (-56) /\
  float_of_decimal 5 (-2) = S754_finite false 7205759403792794 (-57) /\
  float_of_decimal 15 (-2) = S754_finite false 5404319552844595 (-55) /\
  float_of_decimal 8 (-2) = S754_finite false 5764607523034235 (-56) /\
  float_of_decimal 20 (-2) = S754_finite false 7205759403792794 (-55) /\
  float_of_decimal 2 (-2) = S754_finite false 5764607523034235 (-58).
Proof. vm_compute. repeat split; reflexivity. Qed.

(* ===================================================================== *)
(** * Further properties of the generator and of the callbacks *)
(* ===================================================================== *)

(** ** Dates *)

Lemma all_from_spec (p : Z -> bool) (fuel : nat) (z k : Z) :
  all_from p fuel z = true -> z <= k < z + Z.of_nat fuel -> p k = true.
Proof.
  revert z. induction fuel as [| fuel IH]; intros z Hall Hk; [lia |].
  cbn [all_from] in Hall. apply andb_true_iff in Hall as [Hz Hrest].
  destruct (Z.eq_dec k z) as [-> | Hne]; [exact Hz |].
  apply (IH (z + 1)); [exact Hrest | lia].
Qed.

(** The year of the 400-year cycle that [civil_from_days] computes for a day
    of the cycle is within the cycle, and the day is one of that year. *)
Lemma year_of_era (doe : Z) :
  0 <= doe < 146097 ->
  let yoe := (doe - doe / 1460 + doe / 36524 - doe / 146096) / 365 in
  0 <= yoe < 400 /\ 0 <= doe - (365 * yoe + yoe / 4 - yoe / 100) <= 365.
Proof. intros H. cbv zeta. Z.div_mod_to_equations. lia. Qed.

(** The month and the day of the month of a day of a year that starts in
    March. *)
Lemma month_of_year (doy : Z) :
  0 <= doy <= 365 ->
  let mp := (5 * doy + 2) / 153 in
  let d := doy - (153 * mp + 2) / 5 + 1 in
  0 <= mp <= 11 /\ 1 <= d <= 31.
Proof. intros H. cbv zeta. Z.div_mod_to_equations. lia. Qed.

Lemma days_from_civil_from_days (z : Z) :
  let '(y, m, d) := civil_from_days z in days_from_civil y m d = z.
Proof.
  unfold civil_from_days, days_from_civil.
  set (era := (z + 719468) / 146097).
  set (doe := z + 719468 - era * 146097).
  assert (0 <= doe < 146097) as Hdoe
    by (unfold doe, era; Z.div_mod_to_equations; lia).
  destruct (year_of_era doe Hdoe) as [Hyoe Hdoy].
  set (yoe := (doe - doe / 1460 + doe / 36524 - doe / 146096) / 365) in *.
  set (doy := doe - (365 * yoe + yoe / 4 - yoe / 100)) in *.
  destruct (month_of_year doy Hdoy) as [Hmp Hd].
  set (mp := (5 * doy + 2) / 153) in *.
  set (d := doy - (153 * mp + 2) / 5 + 1) in *.
  set (m := if mp <? 10 then mp + 3 else mp - 9).
  assert ((if 2 <? m then m - 3 else m + 9) = mp) as ->.
  { unfold m. destruct (Z.ltb_spec mp 10).
    - destruct (Z.ltb_spec 2 (mp + 3)); lia.
    - destruct (Z.ltb_spec 2 (mp - 9)); lia. }
  replace (if m <=? 2
           then (if m <=? 2 then yoe + era * 400 + 1 else yoe + era * 400) - 1
           else (if m <=? 2 then yoe + era * 400 + 1 else yoe + era * 400))
    with (yoe + era * 400) by (destruct (m <=? 2); lia).
  replace ((yoe + era * 400) / 400) with era
    by (Z.div_mod_to_equations; lia).
  replace (yoe + era * 400 - era * 400) with yoe by lia.
  unfold d, doy, doe. lia.
Qed.

Lemma civil_from_days_range (z : Z) :
  let '(_, m, d) := civil_from_days z in 1 <= m <= 12 /\ 1 <= d <= 31.
Proof.
  unfold civil_from_days.
  set (era := (z + 719468) / 146097).
  set (doe := z + 719468 - era * 146097).
  assert (0 <= doe < 146097) as Hdoe
    by (unfold doe, era; Z.div_mod_to_equations; lia).
  destruct (year_of_era doe Hdoe) as [_ Hdoy].
  set (yoe := (doe - doe / 1460 + doe / 36524 - doe / 146096) / 365) in *.
  set (doy := doe - (365 * yoe + yoe / 4 - yoe / 100)) in *.
  destruct (month_of_year doy Hdoy) as [Hmp Hd].
  set (mp := (5 * doy + 2) / 153) in *.
  split; [| exact Hd].
  destruct (Z.ltb_spec mp 10); lia.
Qed.

Lemma to_micros_from_micros (us : Z) : to_micros (from_micros us) = us.
Proof.
  unfold from_micros.
  pose proof (days_from_civil_from_days (us / 86400000000)) as Hd.
  destruct (civil_from_days (us / 86400000000)) as [[y m] d].
  unfold to_micros. cbn [year month day hour minute second microsecond].
  rewrite Hd. Z.div_mod_to_equations. lia.
Qed.

(** X1. The start of the query window is exactly [h] hours before its end:
    subtracting a [timedelta] and converting back to a calendar date loses
    nothing, for every date of the proleptic Gregorian calendar. *)
Theorem sub_hours_exact (t : datetime) (h : Z) :
  to_micros (sub_hours t h) = to_micros t - h * 3600000000 /\
  time_in_range (sub_hours t h).
Proof.
  split; [apply to_micros_from_micros |].
  unfold sub_hours, from_micros, time_in_range.
  destruct (civil_from_days ((to_micros t - h * 3600000000) / 86400000000)) as [[y m] d].
  cbn [hour minute second microsecond].
  repeat split; Z.div_mod_to_equations; lia.
Qed.

Lemma bson_date_split (t : datetime) :
  time_in_range t ->
  bson_date t
  = days_from_civil (year t) (month t) (day t) * 86400000
    + hour t * 3600000 + minute t * 60000 + second t * 1000 + microsecond t / 1000.
Proof.
  unfold time_in_range, bson_date, to_micros. intros (Hh & Hm & Hs & Hu).
  Z.div_mod_to_equations. lia.
Qed.

(** X2. What the store computes from a written timestamp agrees with the
    clock of the writer: [$hour] is the hour of the [datetime], and
    [$dayOfWeek] is its [weekday()] renumbered from Monday = 0 to
    Sunday = 1, ..., Saturday = 7. *)
Theorem store_reads_written_time (t : datetime) :
  time_in_range t ->
  mongo_hour (bson_date t) = hour t /\
  mongo_dayOfWeek (bson_date t) = (weekday t + 1) mod 7 + 1 /\
  0 <= weekday t <= 6 /\ 1 <= mongo_dayOfWeek (bson_date t) <= 7.
Proof.
  intros Ht. rewrite (bson_date_split t Ht).
  destruct Ht as (Hh & Hm & Hs & Hu).
  unfold mongo_hour, mongo_dayOfWeek, weekday.
  set (D := days_from_civil (year t) (month t) (day t)).
  repeat split; Z.div_mod_to_equations; lia.
Qed.

Lemma store_reads_written_time_witness :
  let t := mk_datetime 2024 1 3 3 10 0 0 in
  mongo_hour (bson_date t) = hour t /\
  mongo_dayOfWeek (bson_date t) = (weekday t + 1) mod 7 + 1 /\
  0 <= weekday t <= 6 /\ 1 <= mongo_dayOfWeek (bson_date t) <= 7.
Proof.
  cbv zeta. apply store_reads_written_time.
  unfold time_in_range. cbn. lia.
Defined.

(** ** The generator: what every interleaving of the loops keeps *)

(** X3. On a weekend day the base of [collect_user_activity] is exactly
    seven tenths of the weekday base, 14, 21 or 7: the product with the
    float 0.7, which is below 7/10, rounds to the integer and [int] does
    not lose a unit. *)
Theorem base_users_exact (h wd : Z) :
  base_users h wd
  = Ok (if 5 <=? wd then base_of_hour h * 7 / 10 else base_of_hour h).
Proof.
  unfold base_users, base_of_hour.
  destruct (5 <=? wd); destruct (business_hours h); destruct (evening_peak h);
    vm_compute; reflexivity.
Qed.

(** X4. What one loop writes to Redis, [int] reads back in the callback:
    for every integer and whatever else the store holds. *)
Theorem redis_int_round_trip (redis : gmap string string) (k : string)
    (n default : Z) :
  py_int (get_or (<[k := str_of_Z n]> redis) k default) = Ok n.
Proof.
  apply get_or_stored_int. right. apply lookup_insert_eq.
Qed.

Lemma step_prefix (repr_float : float -> string) (s s' : AnalyticsCollector) :
  step repr_float s s' ->
  message_logs (db s) `prefix_of` message_logs (db s') /\
  user_activity (db s) `prefix_of` user_activity (db s') /\
  api_costs (db s) `prefix_of` api_costs (db s') /\
  rate_limits (db s) `prefix_of` rate_limits (db s') /\
  (forall k, is_Some (redis_client s !! k) -> is_Some (redis_client s' !! k)).
Proof.
  assert (forall (m : gmap string string) k k' v,
             is_Some (m !! k) -> is_Some (<[k' := v]> m !! k)) as Hkeep.
  { intros m k k' v Hk. destruct (decide (k' = k)) as [-> | Hne].
    - rewrite lookup_insert_eq. eauto.
    - rewrite lookup_insert_ne by exact Hne. exact Hk. }
  assert (forall (w : writes) (m : gmap string string) k k' v,
             is_Some (m !! k) -> is_Some (redis_set w k' v m !! k)) as Hset.
  { intros [] m k k' v Hk; cbn [redis_set]; auto. }
  assert (forall (w : writes) (c : list document) doc, c `prefix_of` insert_one w c doc)
    as Hins.
  { intros [] c doc; cbn [insert_one]; [apply prefix_app_r |..]; reflexivity. }
  intros [s0 t1 t2 r w | s0 t1 t2 t3 r w s1 Htick | s0 t1 t2 r w | s0 t1 t2 r w].
  - cbn [collect_messages_tick db redis_client message_logs user_activity
           api_costs rate_limits].
    repeat split; try reflexivity; auto.
  - invert_user_tick Htick.
    cbn [db redis_client message_logs user_activity api_costs rate_limits].
    repeat split; try reflexivity; auto.
  - cbn [collect_api_costs_tick db redis_client message_logs user_activity
           api_costs rate_limits].
    repeat split; try reflexivity; auto.
  - cbn [collect_rate_limits_tick db redis_client message_logs user_activity
           api_costs rate_limits].
    repeat split; try reflexivity; auto.
Qed.

(** X5. The stores are append-only under the generator: along every
    interleaving of the four loops the documents already in a collection
    stay, in place, at the head of the collection, and a key of Redis once
    set is never removed. *)
Theorem stores_append_only (repr_float : float -> string)
    (s s' : AnalyticsCollector) :
  rtc (step repr_float) s s' ->
  message_logs (db s) `prefix_of` message_logs (db s') /\
  user_activity (db s) `prefix_of` user_activity (db s') /\
  api_costs (db s) `prefix_of` api_costs (db s') /\
  rate_limits (db s) `prefix_of` rate_limits (db s') /\
  (forall k, is_Some (redis_client s !! k) -> is_Some (redis_client s' !! k)).
Proof.
  induction 1 as [s | s s1 s2 Hstep _ IH].
  - repeat split; try reflexivity. auto.
  - destruct (step_prefix repr_float s s1 Hstep) as (H1 & H2 & H3 & H4 & H5).
    destruct IH as (I1 & I2 & I3 & I4 & I5).
    repeat split; try (etrans; eassumption). auto.
Qed.

Lemma stores_append_only_witness :
  let s := init ∅ empty_db in
  let t := mk_datetime 2024 1 1 9 13 0 0 in
  let s' := collect_rate_limits_tick (collect_messages_tick s t t 7 Written)
                                     t t 3 InsertRaises in
  message_logs (db s) `prefix_of` message_logs (db s') /\
  user_activity (db s) `prefix_of` user_activity (db s') /\
  api_costs (db s) `prefix_of` api_costs (db s') /\
  rate_limits (db s) `prefix_of` rate_limits (db s') /\
  (forall k, is_Some (redis_client s !! k) -> is_Some (redis_client s' !! k)).
Proof.
  cbv zeta. apply (stores_append_only (fun _ => "")).
  eapply rtc_l; [apply step_messages |].
  eapply rtc_l; [apply step_rate_limits |].
  apply rtc_refl.
Defined.

Lemma messages_range (h r : Z) : 0 <= messages h r <= 20.
Proof.
  unfold messages.
  destruct (business_hours h); [pose proof (randint_range 5 15 r) |
    destruct (evening_peak h);
      [pose proof (randint_range 8 20 r) | pose proof (randint_range 0 5 r)]]; lia.
Qed.

Lemma rate_change_range (h r : Z) : -5 <= rate_change h r <= 2.
Proof.
  unfold rate_change.
  destruct (business_hours h); [pose proof (randint_range (-3) 1 r) |
    destruct (evening_peak h);
      [pose proof (randint_range (-5) 0 r) | pose proof (randint_range 0 2 r)]]; lia.
Qed.

Lemma Forall_snoc {A} (P : A -> Prop) (l : list A) (x : A) :
  Forall P l -> P x -> Forall P (l ++ [x])%list.
Proof. intros Hl Hx. apply Forall_app. split; [exact Hl | constructor; [exact Hx | constructor]]. Qed.

Lemma sum_snoc (l : list Z) (x : Z) :
  fold_right Z.add 0 (l ++ [x])%list = fold_right Z.add 0 l + x.
Proof. induction l as [| a l IH]; cbn [app fold_right]; lia. Qed.

(** X6. Along every interleaving of the loops, and whatever happens to the
    writes, the documents appended to [message_logs] carry counts between 0
    and 20 whose sum is at most the running [message_count]: the counter is
    updated before the writes, so a pass whose write raises leaves it ahead
    of the log.  The text [total_messages] then holds in Redis is that of a
    value the counter had, between 0 and the running one. *)
Theorem message_logs_below_count (repr_float : float -> string)
    (redis : gmap string string) (d : database) (s : AnalyticsCollector) :
  rtc (step repr_float) (init redis d) s ->
  exists new counts,
    message_logs (db s) = (message_logs d ++ new)%list /\
    map count_field new = map Some counts /\
    Forall (fun c => 0 <= c <= 20) counts /\
    fold_right Z.add 0 counts <= message_count s /\
    (redis_client s !! "total_messages" = redis !! "total_messages" \/
     exists m, 0 <= m <= message_count s /\
               redis_client s !! "total_messages" = Some (str_of_Z m)).
Proof.
  intros Hrun.
  apply (rtc_ind_r (R := step repr_float)
           (fun s => exists new counts,
                message_logs (db s) = (message_logs d ++ new)%list /\
                map count_field new = map Some counts /\
                Forall (fun c => 0 <= c <= 20) counts /\
                fold_right Z.add 0 counts <= message_count s /\
                (redis_client s !! "total_messages" = redis !! "total_messages" \/
                 exists m, 0 <= m <= message_count s /\
                           redis_client s !! "total_messages" = Some (str_of_Z m)))
           (init redis d)); [| | exact Hrun].
  - exists [], []. rewrite app_nil_r. cbn [init message_count redis_client fold_right].
    repeat split; [constructor | lia | left; reflexivity].
  - intros s1 s2 _ Hstep (new & counts & Hdocs & Hfields & Hrange & Hsum & Hkey).
    destruct Hstep as [s1 t1 t2 r w | s1 t1 t2 t3 r w s2 Htick | s1 t1 t2 r w | s1 t1 t2 r w].
    + pose proof (messages_range (hour t1) r) as Hdelta.
      assert (0 <= message_count s1) as Hpos.
      { assert (0 <= fold_right Z.add 0 counts); [| lia].
        clear -Hrange. induction Hrange; cbn [fold_right]; lia. }
      cbn [collect_messages_tick db message_logs message_count redis_client].
      destruct w; cbn [insert_one redis_set].
      * exists (new ++ [[("timestamp", VDate (bson_date t2));
                         ("count", VInt (messages (hour t1) r))]])%list,
          (counts ++ [messages (hour t1) r])%list.
        split; [rewrite Hdocs, <- app_assoc; reflexivity |].
        split; [rewrite !map_app, Hfields; reflexivity |].
        split; [apply Forall_snoc; [exact Hrange | exact Hdelta] |].
        split; [rewrite sum_snoc; lia |].
        right. eexists. split; [| apply lookup_insert_eq]. lia.
      * exists new, counts. repeat split; auto; [lia |].
        destruct Hkey as [Hkey | (m & Hm & Hkey)]; [left; exact Hkey | right].
        exists m. split; [lia | exact Hkey].
      * exists new, counts. repeat split; auto; [lia |].
        right. eexists. split; [| apply lookup_insert_eq]. lia.
    + invert_user_tick Htick. exists new, counts.
      cbn [db message_logs message_count redis_client].
      repeat split; auto.
      destruct w; cbn [redis_set]; [rewrite lookup_insert_ne by discriminate | |
        rewrite lookup_insert_ne by discriminate]; exact Hkey.
    + exists new, counts.
      cbn [collect_api_costs_tick db message_logs message_count redis_client].
      repeat split; auto.
      destruct w; cbn [redis_set]; [rewrite lookup_insert_ne by discriminate | |
        rewrite lookup_insert_ne by discriminate]; exact Hkey.
    + exists new, counts.
      cbn [collect_rate_limits_tick db message_logs message_count redis_client].
      repeat split; auto.
      destruct w; cbn [redis_set]; [rewrite lookup_insert_ne by discriminate | |
        rewrite lookup_insert_ne by discriminate]; exact Hkey.
Qed.

Lemma message_logs_below_count_witness :
  let t := mk_datetime 2024 1 1 9 13 0 0 in
  let s := collect_messages_tick
             (collect_messages_tick (init ∅ empty_db) t t 7 SetRaises) t t 3 Written in
  exists new counts,
    message_logs (db s) = (message_logs empty_db ++ new)%list /\
    map count_field new = map Some counts /\
    Forall (fun c => 0 <= c <= 20) counts /\
    fold_right Z.add 0 counts <= message_count s /\
    (redis_client s !! "total_messages" = (∅ : gmap string string) !! "total_messages" \/
     exists m, 0 <= m <= message_count s /\
               redis_client s !! "total_messages" = Some (str_of_Z m)).
Proof.
  cbv zeta. apply (message_logs_below_count (fun _ => "") ∅).
  eapply rtc_l; [apply step_messages |].
  eapply rtc_l; [apply step_messages |].
  apply rtc_refl.
Defined.

(** X7. Along every interleaving of the loops, and whatever happens to the
    writes, the documents appended to [user_activity] carry counts between
    2 and 35, and [active_users] is its initial value 1 or a value between
    2 and 35; so is the value whose text [active_users] holds in Redis,
    once a pass has set it. *)
Theorem user_activity_counts_in_range (repr_float : float -> string)
    (redis : gmap string string) (d : database) (s : AnalyticsCollector) :
  rtc (step repr_float) (init redis d) s ->
  exists new counts,
    user_activity (db s) = (user_activity d ++ new)%list /\
    map count_field new = map Some counts /\
    Forall (fun c => 2 <= c <= 35) counts /\
    (active_users s = 1 \/ 2 <= active_users s <= 35) /\
    (redis_client s !! "active_users" = redis !! "active_users" \/
     exists u, 2 <= u <= 35 /\ redis_client s !! "active_users" = Some (str_of_Z u)).
Proof.
  intros Hrun.
  apply (rtc_ind_r (R := step repr_float)
           (fun s => exists new counts,
                user_activity (db s) = (user_activity d ++ new)%list /\
                map count_field new = map Some counts /\
                Forall (fun c => 2 <= c <= 35) counts /\
                (active_users s = 1 \/ 2 <= active_users s <= 35) /\
                (redis_client s !! "active_users" = redis !! "active_users" \/
                 exists u, 2 <= u <= 35 /\
                           redis_client s !! "active_users" = Some (str_of_Z u)))
           (init redis d)); [| | exact Hrun].
  - exists [], []. rewrite app_nil_r. cbn [init active_users redis_client].
    repeat split; [constructor | left; reflexivity | left; reflexivity].
  - intros s1 s2 _ Hstep (new & counts & Hdocs & Hfields & Hrange & Hcur & Hkey).
    destruct Hstep as [s1 t1 t2 r w | s1 t1 t2 t3 r w s2 Htick | s1 t1 t2 r w | s1 t1 t2 r w].
    + exists new, counts.
      cbn [collect_messages_tick db user_activity active_users redis_client].
      repeat split; auto.
      destruct w; cbn [redis_set]; [rewrite lookup_insert_ne by discriminate | |
        rewrite lookup_insert_ne by discriminate]; exact Hkey.
    + unfold collect_user_activity_tick in Htick.
      destruct (base_users_cases (hour t1) (weekday t2)) as (b & Hb & Hbr).
      rewrite Hb in Htick. cbn [rbind] in Htick. injection Htick as <-.
      pose proof (randint_range (-5) 5 r ltac:(lia)) as Hnoise.
      cbn [db user_activity active_users redis_client].
      destruct w; cbn [insert_one redis_set].
      * exists (new ++ [[("timestamp", VDate (bson_date t3));
                         ("count", VInt (b + randint (-5) 5 r))]])%list,
          (counts ++ [b + randint (-5) 5 r])%list.
        split; [rewrite Hdocs, <- app_assoc; reflexivity |].
        split; [rewrite !map_app, Hfields; reflexivity |].
        split; [apply Forall_snoc; [exact Hrange | lia] |].
        split; [right; lia |].
        right. eexists. split; [| apply lookup_insert_eq]. lia.
      * exists new, counts. repeat split; auto. right. lia.
      * exists new, counts. repeat split; auto; [right; lia |].
        right. eexists. split; [| apply lookup_insert_eq]. lia.
    + exists new, counts.
      cbn [collect_api_costs_tick db user_activity active_users redis_client].
      repeat split; auto.
      destruct w; cbn [redis_set]; [rewrite lookup_insert_ne by discriminate | |
        rewrite lookup_insert_ne by discriminate]; exact Hkey.
    + exists new, counts.
      cbn [collect_rate_limits_tick db user_activity active_users redis_client].
      repeat split; auto.
      destruct w; cbn [redis_set]; [rewrite lookup_insert_ne by discriminate | |
        rewrite lookup_insert_ne by discriminate]; exact Hkey.
Qed.

Lemma user_activity_counts_in_range_witness :
  let t := mk_datetime 2024 1 7 3 0 0 0 in
  exists s,
    collect_user_activity_tick (init ∅ empty_db) t t t 0 Written = Ok s /\
    exists new counts,
      user_activity (db s) = (user_activity empty_db ++ new)%list /\
      map count_field new = map Some counts /\
      Forall (fun c => 2 <= c <= 35) counts /\
      (active_users s = 1 \/ 2 <= active_users s <= 35) /\
      (redis_client s !! "active_users" = (∅ : gmap string string) !! "active_users" \/
       exists u, 2 <= u <= 35 /\ redis_client s !! "active_users" = Some (str_of_Z u)).
Proof.
  cbv zeta. eexists. split; [vm_compute; reflexivity |].
  apply (user_activity_counts_in_range (fun _ => "") ∅ empty_db).
  eapply rtc_l; [| apply rtc_refl].
  eapply (step_user_activity _ _ (mk_datetime 2024 1 7 3 0 0 0) (mk_datetime 2024 1 7 3 0 0 0)
            (mk_datetime 2024 1 7 3 0 0 0) 0 Written).
  vm_compute. reflexivity.
Defined.

(** X8. Along every interleaving of the loops, and whatever happens to the
    writes, the running [rate_limit], the [remaining] values appended to
    [rate_limits] and the value whose text [rate_limit] holds in Redis, once
    a pass has set it, all lie in [80, 100]. *)
Theorem rate_limits_in_range (repr_float : float -> string)
    (redis : gmap string string) (d : database) (s : AnalyticsCollector) :
  rtc (step repr_float) (init redis d) s ->
  exists new vals,
    rate_limits (db s) = (rate_limits d ++ new)%list /\
    map remaining_field new = map Some vals /\
    Forall (fun v => 80 <= v <= 100) vals /\
    80 <= rate_limit s <= 100 /\
    (redis_client s !! "rate_limit" = redis !! "rate_limit" \/
     exists v, 80 <= v <= 100 /\ redis_client s !! "rate_limit" = Some (str_of_Z v)).
Proof.
  intros Hrun.
  apply (rtc_ind_r (R := step repr_float)
           (fun s => exists new vals,
                rate_limits (db s) = (rate_limits d ++ new)%list /\
                map remaining_field new = map Some vals /\
                Forall (fun v => 80 <= v <= 100) vals /\
                80 <= rate_limit s <= 100 /\
                (redis_client s !! "rate_limit" = redis !! "rate_limit" \/
                 exists v, 80 <= v <= 100 /\
                           redis_client s !! "rate_limit" = Some (str_of_Z v)))
           (init redis d)); [| | exact Hrun].
  - exists [], []. rewrite app_nil_r. cbn [init rate_limit redis_client].
    repeat split; [constructor | lia | lia | left; reflexivity].
  - intros s1 s2 _ Hstep (new & vals & Hdocs & Hfields & Hrange & Hcur & Hkey).
    destruct Hstep as [s1 t1 t2 r w | s1 t1 t2 t3 r w s2 Htick | s1 t1 t2 r w | s1 t1 t2 r w].
    + exists new, vals.
      cbn [collect_messages_tick db rate_limits rate_limit redis_client].
      repeat split; auto; try lia.
      destruct w; cbn [redis_set]; [rewrite lookup_insert_ne by discriminate | |
        rewrite lookup_insert_ne by discriminate]; exact Hkey.
    + invert_user_tick Htick. exists new, vals.
      cbn [db rate_limits rate_limit redis_client].
      repeat split; auto; try lia.
      destruct w; cbn [redis_set]; [rewrite lookup_insert_ne by discriminate | |
        rewrite lookup_insert_ne by discriminate]; exact Hkey.
    + exists new, vals.
      cbn [collect_api_costs_tick db rate_limits rate_limit redis_client].
      repeat split; auto; try lia.
      destruct w; cbn [redis_set]; [rewrite lookup_insert_ne by discriminate | |
        rewrite lookup_insert_ne by discriminate]; exact Hkey.
    + set (v' := Z.max 80 (Z.min 100 (rate_limit s1 + rate_change (hour t1) r))).
      assert (80 <= v' <= 100) as Hv' by (unfold v'; lia).
      cbn [collect_rate_limits_tick db rate_limits rate_limit redis_client]. fold v'.
      destruct w; cbn [insert_one redis_set].
      * exists (new ++ [[("timestamp", VDate (bson_date t2)); ("remaining", VInt v')]])%list,
          (vals ++ [v'])%list.
        split; [rewrite Hdocs, <- app_assoc; reflexivity |].
        split; [rewrite !map_app, Hfields; reflexivity |].
        split; [apply Forall_snoc; [exact Hrange | exact Hv'] |].
        split; [exact Hv' |].
        right. exists v'. split; [exact Hv' | apply lookup_insert_eq].
      * exists new, vals. repeat split; auto; lia.
      * exists new, vals. repeat split; auto; try lia.
        right. exists v'. split; [exact Hv' | apply lookup_insert_eq].
Qed.

Lemma rate_limits_in_range_witness :
  let t := mk_datetime 2024 1 1 9 13 0 0 in
  let s := collect_rate_limits_tick
             (collect_rate_limits_tick (init ∅ empty_db) t t 3 InsertRaises) t t 4 Written in
  exists new vals,
    rate_limits (db s) = (rate_limits empty_db ++ new)%list /\
    map remaining_field new = map Some vals /\
    Forall (fun v => 80 <= v <= 100) vals /\
    80 <= rate_limit s <= 100 /\
    (redis_client s !! "rate_limit" = (∅ : gmap string string) !! "rate_limit" \/
     exists v, 80 <= v <= 100 /\ redis_client s !! "rate_limit" = Some (str_of_Z v)).
Proof.
  cbv zeta. apply (rate_limits_in_range (fun _ => "") ∅).
  eapply rtc_l; [apply step_rate_limits |].
  eapply rtc_l; [apply step_rate_limits |].
  apply rtc_refl.
Defined.

(** X9. Along every interleaving of the loops, [api_cost] never falls below
    its initial value 0.10 (compared as binary64 numbers; an overflow to
    infinity is above it). *)
Theorem api_cost_at_least_initial (repr_float : float -> string)
    (s : AnalyticsCollector) :
  reachable repr_float s -> fle (float_of_decimal 10 (-2)) (api_cost s).
Proof.
  intros Hreach.
  assert (float_of_decimal 10 (-2) = S754_finite false 7205759403792794 (-56)) as Hlit
    by (vm_compute; reflexivity).
  assert (bounded prec64 emax64 7205759403792794 (-56) = true) as Hb0
    by (vm_compute; reflexivity).
  rewrite Hlit. unfold fle.
  assert (api_cost s = S754_infinity false \/
          exists m e, api_cost s = S754_finite false m e /\
                      bounded prec64 emax64 m e = true /\
                      7205759403792794 * 2 ^ (-56 - emin64) <= Z.pos m * 2 ^ (e - emin64))
    as [-> | (m & e & -> & Hb & Hle)]; [| reflexivity | apply fleb_finite; auto].
  induction Hreach as [redis d | s s' Hs IH Hstep].
  - right. cbn [init api_cost]. rewrite Hlit. eexists _, _.
    split; [reflexivity |]. split; [exact Hb0 | lia].
  - destruct Hstep as [s t1 t2 r w | s t1 t2 t3 r w s' Htick | s t1 t2 r w | s t1 t2 r w];
      cbn [collect_messages_tick collect_rate_limits_tick collect_api_costs_tick api_cost];
      try exact IH.
    + invert_user_tick Htick. exact IH.
    + destruct (cost_increment_finite_pos (hour t1) r) as (md & ed & -> & Hbd).
      destruct (bounded64_inv md ed Hbd) as (Hed & _ & _).
      destruct IH as [-> | (m & e & -> & Hb & Hle)]; [left; reflexivity |].
      destruct (fadd_ge_left m md e ed Hb Hed) as [-> | (m' & e' & -> & Hb' & Hle')];
        [left; reflexivity | right].
      exists m', e'. split; [reflexivity |]. split; [exact Hb' | lia].
Qed.

Lemma api_cost_at_least_initial_witness :
  let t := mk_datetime 2024 1 1 9 13 0 0 in
  fle (float_of_decimal 10 (-2))
      (api_cost (collect_api_costs_tick (fun _ => "") (init ∅ empty_db) t t 12345 SetRaises)).
Proof.
  cbv zeta. apply (api_cost_at_least_initial (fun _ => "")).
  eapply reachable_step; [apply reachable_init | apply step_api_costs].
Defined.

Lemma collect_messages_appends (ticks : list tick2) (s : AnalyticsCollector) :
  message_logs (db (collect_messages s ticks))
  = (message_logs (db s) ++ message_documents ticks)%list.
Proof.
  unfold collect_messages, message_documents. revert s.
  induction ticks as [| [[[t1 t2] r] w] ticks IH]; intros s; cbn [fold_left flat_map].
  - rewrite app_nil_r. reflexivity.
  - rewrite IH. cbn [collect_messages_tick db message_logs].
    destruct w; cbn [insert_one app]; [rewrite <- app_assoc |..]; reflexivity.
Qed.

Lemma bson_date_mono (t t' : datetime) :
  to_micros t <= to_micros t' -> bson_date t <= bson_date t'.
Proof. unfold bson_date. intros H. Z.div_mod_to_equations. lia. Qed.

(** X10. When the clock does not go back between the passes of
    [collect_messages], the timestamps of the documents it appends are
    non-decreasing, in the order of insertion. *)
Theorem message_timestamps_non_decreasing (s : AnalyticsCollector)
    (ticks : list tick2) :
  Sorted (fun a b : tick2 =>
            to_micros (snd (fst (fst a))) <= to_micros (snd (fst (fst b)))) ticks ->
  exists new stamps,
    message_logs (db (collect_messages s ticks)) = (message_logs (db s) ++ new)%list /\
    map timestamp_ms new = map Some stamps /\
    Sorted Z.le stamps.
Proof.
  intros Hclock.
  set (stamp := fun a : tick2 =>
                  match snd a with
                  | Written => [bson_date (snd (fst (fst a)))]
                  | _ => []
                  end).
  exists (message_documents ticks), (flat_map stamp ticks).
  split; [apply collect_messages_appends |]. split.
  - unfold message_documents.
    induction ticks as [| [[[t1 t2] r] w] ticks IH]; cbn [flat_map]; [reflexivity |].
    rewrite !map_app, IH by (inversion Hclock; assumption).
    destruct w; reflexivity.
  - apply Sorted_StronglySorted in Hclock; [| intros a b c; lia].
    apply StronglySorted_Sorted.
    induction Hclock as [| [[[t1 t2] r] w] ticks' _ IH Hall]; cbn [flat_map];
      [constructor |].
    destruct w; cbn [stamp snd fst app]; try exact IH.
    constructor; [exact IH |].
    rewrite List.Forall_forall in *. intros x Hx.
    apply in_flat_map in Hx as ([[[t1' t2'] r'] w'] & Hin & Hx).
    specialize (Hall _ Hin). cbn [fst snd] in Hall.
    unfold stamp in Hx. cbn [fst snd] in Hx.
    destruct w'; cbn [In] in Hx; try contradiction.
    destruct Hx as [<- | []]. apply bson_date_mono, Hall.
Qed.

Lemma message_timestamps_non_decreasing_witness :
  let t1 := mk_datetime 2024 1 1 9 13 0 0 in
  let t2 := mk_datetime 2024 1 1 9 13 5 250 in
  exists new stamps,
    message_logs (db (collect_messages (init ∅ empty_db)
                        [(t1, t1, 7, Written); (t2, t2, 3, Written)]))
      = (message_logs (db (init ∅ empty_db)) ++ new)%list /\
    map timestamp_ms new = map Some stamps /\
    Sorted Z.le stamps.
Proof.
  cbv zeta. apply message_timestamps_non_decreasing.
  repeat constructor. vm_compute. discriminate.
Defined.

Lemma py_float_raises_only_invalid (x : pyobj) :
  (exists y, py_float x = Ok y) \/ py_float x = Raise invalid_float.
Proof.
  unfold py_float. destruct x as [s | n]; [| left; eauto].
  destruct (split_sign (strip s)) as [neg body].
  destruct (String.eqb (lower_string body) "inf" || String.eqb (lower_string body) "infinity");
    [left; eauto |].
  destruct (String.eqb (lower_string body) "nan"); [left; eauto |].
  destruct (decimal_numeral body) as [[[| D | D] E] |]; eauto.
Qed.

(** The integer keys of the fast store hold the text of a value the
    generator computed: the store is written after the counter, so it can
    be behind it. *)
Lemma step_int_keys (repr_float : float -> string) (s s' : AnalyticsCollector) :
  step repr_float s s' ->
  0 <= message_count s /\
  (exists m, 0 <= m <= message_count s /\
             stored_int (redis_client s) "total_messages" 0 m) /\
  (exists u, (u = 0 \/ 2 <= u <= 35) /\ stored_int (redis_client s) "active_users" 0 u) /\
  (exists v, 80 <= v <= 100 /\ stored_int (redis_client s) "rate_limit" 100 v) ->
  0 <= message_count s' /\
  (exists m, 0 <= m <= message_count s' /\
             stored_int (redis_client s') "total_messages" 0 m) /\
  (exists u, (u = 0 \/ 2 <= u <= 35) /\ stored_int (redis_client s') "active_users" 0 u) /\
  (exists v, 80 <= v <= 100 /\ stored_int (redis_client s') "rate_limit" 100 v).
Proof.
  assert (forall (w : writes) (m : gmap string string) k k' v default n,
             k' <> k -> stored_int m k default n ->
             stored_int (redis_set w k' v m) k default n) as Hother.
  { intros [] m k k' v default n Hne Hk; cbn [redis_set]; auto;
      apply stored_int_insert_ne; auto. }
  intros Hstep (Hpos & (m & Hm & Hkm) & (u & Hu & Hku) & (v & Hv & Hkv)).
  destruct Hstep as [s t1 t2 r w | s t1 t2 t3 r w s' Htick | s t1 t2 r w | s t1 t2 r w].
  - pose proof (messages_range (hour t1) r) as Hdelta.
    cbn [collect_messages_tick redis_client message_count].
    split; [lia |].
    split; [| split; [exists u | exists v]; (split; [assumption |]);
              apply Hother; auto; discriminate].
    destruct w; cbn [redis_set].
    + eexists. split; [| apply stored_int_insert]. lia.
    + exists m. split; [lia | exact Hkm].
    + eexists. split; [| apply stored_int_insert]. lia.
  - unfold collect_user_activity_tick in Htick.
    destruct (base_users_cases (hour t1) (weekday t2)) as (b & Hb & Hbr).
    rewrite Hb in Htick. cbn [rbind] in Htick. injection Htick as <-.
    pose proof (randint_range (-5) 5 r ltac:(lia)) as Hnoise.
    cbn [redis_client message_count].
    split; [exact Hpos |].
    split; [exists m; split; [exact Hm | apply Hother; auto; discriminate] |].
    split; [| exists v; split; [exact Hv | apply Hother; auto; discriminate]].
    destruct w; cbn [redis_set].
    + eexists. split; [| apply stored_int_insert]. lia.
    + exists u. auto.
    + eexists. split; [| apply stored_int_insert]. lia.
  - cbn [collect_api_costs_tick redis_client message_count].
    split; [exact Hpos |].
    split; [exists m | split; [exists u | exists v]]; (split; [assumption |]);
      apply Hother; auto; discriminate.
  - cbn [collect_rate_limits_tick redis_client message_count].
    split; [exact Hpos |].
    split; [exists m; split; [exact Hm | apply Hother; auto; discriminate] |].
    split; [exists u; split; [exact Hu | apply Hother; auto; discriminate] |].
    destruct w; cbn [redis_set].
    + eexists. split; [| apply stored_int_insert]. lia.
    + exists v. auto.
    + eexists. split; [| apply stored_int_insert]. lia.
Qed.

(** X11. Whatever the interleaving of the loops over an empty fast store,
    and whatever happens to their writes, [int] in [update_stats] never
    raises on what the generator left in the store: the message card shows
    a value the counter had, between 0 and the running [message_count]
    (the store is written after the counter and can be behind it), the user
    card 0 or a value between 2 and 35, the rate-limit card a value between
    80 and 100.  The only exception [update_stats] can raise is the one of
    [float] on the text of the API cost. *)
Theorem stat_cards_follow_generator (repr_float : float -> string)
    (d : database) (s : AnalyticsCollector) :
  rtc (step repr_float) (init ∅ d) s ->
  exists m u v,
    py_int (get_or (redis_client s) "total_messages" 0) = Ok m /\
    0 <= m <= message_count s /\
    py_int (get_or (redis_client s) "active_users" 0) = Ok u /\
    (u = 0 \/ 2 <= u <= 35) /\
    py_int (get_or (redis_client s) "rate_limit" 100) = Ok v /\
    80 <= v <= 100 /\
    (update_stats (redis_client s) = Raise invalid_float \/
     exists cost,
       update_stats (redis_client s)
       = Ok [format_comma m; format_comma u; cost; str_of_Z v ++ "%"]).
Proof.
  intros Hrun.
  assert (0 <= message_count s /\
          (exists m, 0 <= m <= message_count s /\
                     stored_int (redis_client s) "total_messages" 0 m) /\
          (exists u, (u = 0 \/ 2 <= u <= 35) /\
                     stored_int (redis_client s) "active_users" 0 u) /\
          (exists v, 80 <= v <= 100 /\ stored_int (redis_client s) "rate_limit" 100 v))
    as (_ & (m & Hm & Hkm) & (u & Hu & Hku) & (v & Hv & Hkv)).
  { apply (rtc_ind_r (R := step repr_float)
             (fun s => 0 <= message_count s /\
                (exists m, 0 <= m <= message_count s /\
                           stored_int (redis_client s) "total_messages" 0 m) /\
                (exists u, (u = 0 \/ 2 <= u <= 35) /\
                           stored_int (redis_client s) "active_users" 0 u) /\
                (exists v, 80 <= v <= 100 /\
                           stored_int (redis_client s) "rate_limit" 100 v))
             (init ∅ d)); [| | exact Hrun].
    - cbn [init redis_client message_count].
      split; [lia |].
      split; [exists 0; split; [lia | left; split; [apply lookup_empty | reflexivity]] |].
      split; [exists 0; split; [auto | left; split; [apply lookup_empty | reflexivity]] |].
      exists 100. split; [lia | left; split; [apply lookup_empty | reflexivity]].
    - intros s1 s2 _ Hstep IH. eapply step_int_keys; eassumption. }
  pose proof (get_or_stored_int _ _ _ _ Hkm) as Em.
  pose proof (get_or_stored_int _ _ _ _ Hku) as Eu.
  pose proof (get_or_stored_int _ _ _ _ Hkv) as Ev.
  exists m, u, v. repeat (split; [assumption |]).
  unfold update_stats. rewrite Em, Eu, Ev. cbn [rbind].
  destruct (py_float_raises_only_invalid (get_or (redis_client s) "api_cost" 0))
    as [(y & ->) | ->]; [right | left; reflexivity].
  cbn [rbind]. eauto.
Qed.

Lemma stat_cards_follow_generator_witness :
  let t := mk_datetime 2024 1 1 9 13 0 0 in
  let s := collect_rate_limits_tick
             (collect_messages_tick
                (collect_messages_tick (init ∅ empty_db) t t 7 Written) t t 3 SetRaises)
             t t 3 Written in
  exists m u v,
    py_int (get_or (redis_client s) "total_messages" 0) = Ok m /\
    0 <= m <= message_count s /\
    py_int (get_or (redis_client s) "active_users" 0) = Ok u /\
    (u = 0 \/ 2 <= u <= 35) /\
    py_int (get_or (redis_client s) "rate_limit" 100) = Ok v /\
    80 <= v <= 100 /\
    (update_stats (redis_client s) = Raise invalid_float \/
     exists cost,
       update_stats (redis_client s)
       = Ok [format_comma m; format_comma u; cost; str_of_Z v ++ "%"]).
Proof.
  cbv zeta. apply (stat_cards_follow_generator (fun _ => "") empty_db).
  eapply rtc_l; [apply step_messages |].
  eapply rtc_l; [apply step_messages |].
  eapply rtc_l; [apply step_rate_limits |].
  apply rtc_refl.
Defined.

(** ** Stored values, sorting and frames *)

Lemma float_eqb_eq (x y : float) : float_eqb x y = true <-> x = y.
Proof.
  destruct x as [s | s | | s m e], y as [s' | s' | | s' m' e']; cbn;
    try (split; [discriminate | intros H; discriminate H]);
    try (rewrite Bool.eqb_true_iff; split; [intros ->; reflexivity | intros [= ->]; reflexivity]).
  - split; reflexivity.
  - rewrite !andb_true_iff, Bool.eqb_true_iff, Pos.eqb_eq, Z.eqb_eq.
    split; [intros [[-> ->] ->]; reflexivity | intros [= -> -> ->]; auto].
Qed.

Lemma value_eqb_eq : forall a b : value, value_eqb a b = true <-> a = b.
Proof.
  fix IH 1.
  intros [| n | x | s | t | fa] [| n' | x' | s' | t' | fb]; cbn;
    try (split; [discriminate | intros H; discriminate H]).
  - split; reflexivity.
  - rewrite Z.eqb_eq. split; [intros ->; reflexivity | intros [= ->]; reflexivity].
  - rewrite float_eqb_eq. split; [intros ->; reflexivity | intros [= ->]; reflexivity].
  - rewrite String.eqb_eq. split; [intros ->; reflexivity | intros [= ->]; reflexivity].
  - rewrite Z.eqb_eq. split; [intros ->; reflexivity | intros [= ->]; reflexivity].
  - revert fb. induction fa as [| [k v] fa IHfa]; intros [| [k' v'] fb];
      try (split; [discriminate | intros H; discriminate H]).
    + split; reflexivity.
    + rewrite !andb_true_iff, String.eqb_eq, (IH v v'), (IHfa fb).
      split; [intros [[-> ->] [= ->]]; reflexivity | intros [= -> -> ->]; auto].
Qed.

Lemma value_eqb_refl (a : value) : value_eqb a a = true.
Proof. apply value_eqb_eq. reflexivity. Qed.

Lemma value_leb_total (a b : value) : value_leb a b = true \/ value_leb b a = true.
Proof.
  destruct a as [| n | x | s | t | fa], b as [| n' | x' | s' | t' | fb];
    cbn [value_leb value_rank];
    try (left; reflexivity); try (right; reflexivity).
  - destruct (Z.leb_spec n n'); [left; reflexivity | right; apply Z.leb_le; lia].
  - rewrite (String.compare_antisym s s').
    destruct (String.compare s' s); cbn; auto.
  - destruct (Z.leb_spec t t'); [left; reflexivity | right; apply Z.leb_le; lia].
Qed.

Section Sorting.
Context {A : Type} (leb : A -> A -> bool).
Hypothesis leb_total : forall a b, leb a b = true \/ leb b a = true.

Lemma insert_by_perm (x : A) (l : list A) : Permutation (insert_by leb x l) (x :: l).
Proof.
  induction l as [| y l IH]; cbn [insert_by]; [reflexivity |].
  destruct (leb x y); [reflexivity |].
  rewrite IH. apply perm_swap.
Qed.

Lemma sort_by_perm (l : list A) : Permutation (sort_by leb l) l.
Proof.
  unfold sort_by. induction l as [| x l IH]; cbn [fold_right]; [reflexivity |].
  rewrite insert_by_perm, IH. reflexivity.
Qed.

Lemma insert_by_sorted (x : A) (l : list A) :
  Sorted (fun a b => leb a b = true) l ->
  Sorted (fun a b => leb a b = true) (insert_by leb x l).
Proof.
  induction 1 as [| y l Hs IH Hhd]; cbn [insert_by].
  - repeat constructor.
  - destruct (leb x y) eqn:Hxy.
    + constructor; [constructor; assumption | constructor; exact Hxy].
    + constructor; [exact IH |].
      destruct Hhd as [| z l Hyz]; cbn [insert_by].
      * constructor. destruct (leb_total x y); congruence.
      * destruct (leb x z); constructor; [| exact Hyz].
        destruct (leb_total x y); congruence.
Qed.

Lemma sort_by_sorted (l : list A) :
  Sorted (fun a b => leb a b = true) (sort_by leb l).
Proof.
  unfold sort_by. induction l as [| x l IH]; cbn [fold_right]; [constructor |].
  apply insert_by_sorted, IH.
Qed.
End Sorting.

Lemma in_window_inv (s e : datetime) (d : document) :
  in_window s e d = true ->
  exists ms, field "timestamp" d = Some (VDate ms) /\ bson_date s <= ms <= bson_date e.
Proof.
  unfold in_window. destruct (field "timestamp" d) as [[| | | | ms |] |];
    try discriminate.
  intros H. apply andb_true_iff in H as [H1 H2].
  exists ms. split; [reflexivity | lia].
Qed.

Lemma find_window_in (s e : datetime) (collection : list document) :
  Forall (fun d => in_window s e d = true) (find_window s e collection).
Proof.
  unfold find_window.
  eapply Permutation_Forall; [symmetry; apply sort_by_perm |].
  unfold match_window. apply List.Forall_forall. intros d Hd.
  apply filter_In in Hd. apply Hd.
Qed.

(** X12. The query of the cost and rate-limit charts returns the documents
    whose [timestamp] is a date of the window, each as many times as the
    collection holds it, in the order of their timestamps. *)
Theorem find_window_sorted (start_time end_time : datetime)
    (collection : list document) :
  let results := find_window start_time end_time collection in
  Permutation results (match_window start_time end_time collection) /\
  exists stamps,
    map timestamp_of results = map VDate stamps /\
    Sorted Z.le stamps /\
    Forall (fun ms => bson_date start_time <= ms <= bson_date end_time) stamps.
Proof.
  cbv zeta. split; [apply sort_by_perm |].
  pose proof (find_window_in start_time end_time collection) as Hin.
  assert (Sorted (fun d d' => value_leb (timestamp_of d) (timestamp_of d') = true)
                 (find_window start_time end_time collection)) as Hsorted.
  { apply (sort_by_sorted (fun d d' => value_leb (timestamp_of d) (timestamp_of d'))).
    intros a b. apply value_leb_total. }
  induction Hsorted as [| d l Hs IH Hhd].
  - exists []. repeat split; constructor.
  - apply Forall_cons_iff in Hin as [Hd Hl].
    destruct (IH Hl) as (stamps & Hmap & Hsort & Hrange).
    destruct (in_window_inv _ _ _ Hd) as (ms & Hms & Hbounds).
    exists (ms :: stamps). cbn [map]. split; [| split].
    + unfold timestamp_of at 1. rewrite Hms, Hmap. reflexivity.
    + constructor; [exact Hsort |].
      destruct Hhd as [| d' l' Hle]; [destruct stamps; [constructor | discriminate] |].
      destruct stamps as [| ms' stamps]; [constructor |]. constructor.
      cbn [map] in Hmap. injection Hmap as Hd' _.
      unfold timestamp_of in Hle at 1. rewrite Hms, Hd' in Hle.
      cbn in Hle. lia.
    + constructor; assumption.
Qed.

Lemma lookup_col_keys (col : string -> list value) (keys : list string) (k : string) :
  lookup_col (VStr k) (map (fun k' => (VStr k', col k')) keys)
  = if existsb (String.eqb k) keys then Some (col k) else None.
Proof.
  induction keys as [| k' keys IH]; cbn [map lookup_col existsb value_eqb]; [reflexivity |].
  destruct (String.eqb k k') eqn:E; cbn [orb]; [| exact IH].
  apply String.eqb_eq in E as ->. reflexivity.
Qed.

Lemma add_keys_spec (k : string) (d : document) (seen : list string) :
  existsb (String.eqb k) (add_keys seen d)
  = existsb (String.eqb k) seen || has_field k d.
Proof.
  unfold add_keys, has_field. revert seen.
  induction d as [| [k' v] d IH]; intros seen; cbn [fold_left field].
  - rewrite orb_false_r. reflexivity.
  - rewrite IH. destruct (String.eqb k k') eqn:E.
    + apply String.eqb_eq in E as <-.
      destruct (existsb (String.eqb k) seen) eqn:Es; [rewrite Es; reflexivity |].
      rewrite existsb_app. cbn [existsb]. rewrite String.eqb_refl, !orb_true_r.
      reflexivity.
    + destruct (existsb (String.eqb k') seen); [reflexivity |].
      rewrite existsb_app. cbn [existsb]. rewrite E, !orb_false_r. reflexivity.
Qed.

Lemma keys_spec (k : string) (records : list document) (seen : list string) :
  existsb (String.eqb k) (fold_left add_keys records seen)
  = existsb (String.eqb k) seen || existsb (has_field k) records.
Proof.
  revert seen. induction records as [| d records IH]; intros seen; cbn [fold_left existsb].
  - rewrite orb_false_r. reflexivity.
  - rewrite IH, add_keys_spec, orb_assoc. reflexivity.
Qed.

Lemma existsb_eqb_In (k : string) (l : list string) :
  existsb (String.eqb k) l = true <-> In k l.
Proof.
  rewrite existsb_exists. split.
  - intros (x & Hx & E). apply String.eqb_eq in E as ->. exact Hx.
  - intros H. exists k. split; [exact H | apply String.eqb_refl].
Qed.

Lemma add_keys_NoDup (d : document) (seen : list string) :
  NoDup seen -> NoDup (add_keys seen d).
Proof.
  unfold add_keys. revert seen.
  induction d as [| [k v] d IH]; intros seen Hnd; cbn [fold_left]; [exact Hnd |].
  apply IH. destruct (existsb (String.eqb k) seen) eqn:E; [exact Hnd |].
  apply NoDup_app. split; [exact Hnd |]. split; [| apply NoDup_singleton].
  intros x Hx Hk. apply list_elem_of_singleton in Hk as ->.
  apply list_elem_of_In, existsb_eqb_In in Hx. congruence.
Qed.

Lemma keys_NoDup (records : list document) (seen : list string) :
  NoDup seen -> NoDup (fold_left add_keys records seen).
Proof.
  revert seen. induction records as [| d records IH]; intros seen Hnd;
    cbn [fold_left]; [exact Hnd |].
  apply IH, add_keys_NoDup, Hnd.
Qed.

(** [df[k]] on a frame built from records. *)
Lemma getitem_pd_DataFrame (records : list document) (k : string) :
  getitem (pd_DataFrame records) k
  = if existsb (has_field k) records then Ok (map (cell_of k) records)
    else Raise (KeyError k).
Proof.
  unfold getitem, pd_DataFrame. cbn [df_columns].
  rewrite (lookup_col_keys (fun k => map (cell_of k) records)).
  rewrite keys_spec. cbn [existsb orb].
  destruct (existsb (has_field k) records); reflexivity.
Qed.

Lemma df_empty_pd_DataFrame (records : list document) (k : string) :
  existsb (has_field k) records = true -> df_empty (pd_DataFrame records) = false.
Proof.
  intros H. unfold df_empty, pd_DataFrame. cbn [df_index df_columns].
  pose proof (keys_spec k records []) as Hk. rewrite H in Hk. cbn [existsb orb] in Hk.
  destruct records as [| d records]; [discriminate |].
  unfold range_index. cbn [length seq map].
  destruct (fold_left add_keys (d :: records) []); [discriminate | reflexivity].
Qed.

(** A column read after [df[k0] = c] and [df.set_index(k0)]. *)
Lemma lookup_col_reindexed (col : string -> list value) (c : list value)
    (keys : list string) (k0 k : string) :
  NoDup keys ->
  lookup_col (VStr k)
    (remove_col (VStr k0) (replace_col (VStr k0) c (map (fun k' => (VStr k', col k')) keys)))
  = if String.eqb k k0 then None
    else lookup_col (VStr k) (map (fun k' => (VStr k', col k')) keys).
Proof.
  induction 1 as [| k' keys Hnotin Hnd IH];
    cbn [map replace_col remove_col lookup_col value_eqb].
  - rewrite String.eqb_refl. cbn [lookup_col]. destruct (String.eqb k k0); reflexivity.
  - destruct (String.eqb k0 k') eqn:E0; cbn [remove_col lookup_col value_eqb]; rewrite E0.
    + apply String.eqb_eq in E0 as <-.
      destruct (String.eqb k k0) eqn:E; [| reflexivity].
      apply String.eqb_eq in E as ->. rewrite lookup_col_keys.
      destruct (existsb (String.eqb k0) keys) eqn:Ex; [| reflexivity].
      apply existsb_eqb_In, list_elem_of_In in Ex. contradiction.
    + cbn [lookup_col value_eqb]. rewrite IH.
      destruct (String.eqb k k') eqn:E; [| reflexivity].
      apply String.eqb_eq in E as ->.
      rewrite String.eqb_sym, E0. reflexivity.
Qed.

Lemma lookup_col_replaced (c : list value) (cols : list (value * list value)) (k : value) :
  lookup_col k (replace_col k c cols) = Some c.
Proof.
  induction cols as [| [k' c'] cols IH]; cbn [replace_col lookup_col].
  - rewrite value_eqb_refl. reflexivity.
  - destruct (value_eqb k k') eqn:E; cbn [lookup_col]; rewrite E; [reflexivity | exact IH].
Qed.

Lemma mapM_ok {A B} (f : A -> result B) (g : A -> B) (l : list A) :
  Forall (fun x => f x = Ok (g x)) l -> mapM f l = Ok (map g l).
Proof.
  induction 1 as [| x l Hx _ IH]; cbn [mapM map]; [reflexivity |].
  rewrite Hx, IH. reflexivity.
Qed.

Lemma existsb_in_window (s e : datetime) (l : list document) :
  l <> [] -> Forall (fun d => in_window s e d = true) l ->
  existsb (has_field "timestamp") l = true.
Proof.
  intros Hne Hall. destruct l as [| d l]; [contradiction |].
  apply Forall_cons_iff in Hall as [Hd _].
  destruct (in_window_inv _ _ _ Hd) as (ms & Hms & _).
  cbn [existsb]. unfold has_field. rewrite Hms. reflexivity.
Qed.

(** The body of the two charts, on the documents the query returned. *)
Lemma raw_series_chart_spec (collection : list document) (column : string)
    (now : datetime) :
  let results := find_window (sub_hours now 24) now collection in
  raw_series_chart collection column now
  = if existsb (has_field column) results && negb (String.eqb column "timestamp")
    then Ok [Scatter (map timestamp_of results) (map (cell_of column) results)]
    else Raise (KeyError column).
Proof.
  cbv zeta. unfold raw_series_chart.
  pose proof (find_window_in (sub_hours now 24) now collection) as Hin.
  set (results := find_window (sub_hours now 24) now collection) in *.
  destruct results as [| d0 rest] eqn:Eres; [reflexivity |].
  rewrite <- Eres in *.
  assert (existsb (has_field "timestamp") results = true) as Hts.
  { apply (existsb_in_window (sub_hours now 24) now); [rewrite Eres; discriminate | exact Hin]. }
  rewrite (df_empty_pd_DataFrame results "timestamp" Hts). cbn [negb].
  rewrite getitem_pd_DataFrame, Hts. cbn [rbind].
  rewrite (mapM_ok to_datetime (fun v => v)).
  2:{ apply List.Forall_map. eapply List.Forall_impl; [| exact Hin].
      intros d Hd. destruct (in_window_inv _ _ _ Hd) as (ms & Hms & _).
      unfold cell_of. rewrite Hms. reflexivity. }
  rewrite map_id. cbn [rbind].
  unfold set_index, getitem at 1, setitem. cbn [df_columns df_index].
  rewrite lookup_col_replaced. cbn [rbind df_index].
  unfold getitem, pd_DataFrame. cbn [df_columns].
  rewrite (lookup_col_reindexed (fun k => map (cell_of k) results))
    by (apply keys_NoDup; constructor).
  replace (map (cell_of "timestamp") results) with (map timestamp_of results).
  2:{ apply map_ext_in. intros d Hd.
      assert (in_window (sub_hours now 24) now d = true) as Hd'
        by (revert d Hd; apply List.Forall_forall; exact Hin).
      destruct (in_window_inv _ _ _ Hd') as (ms & Hms & _).
      unfold timestamp_of, cell_of. rewrite Hms. reflexivity. }
  destruct (String.eqb column "timestamp") eqn:Ecol.
  - rewrite andb_false_r. reflexivity.
  - rewrite andb_true_r, (lookup_col_keys (fun k => map (cell_of k) results)), keys_spec.
    cbn [existsb orb].
    destruct (existsb (has_field column) results); reflexivity.
Qed.

(** X13. [update_cost_chart] and [update_rate_limit_chart] plot the
    documents of the window in the order of the query: the dates of their
    [timestamp] against their [cost] or [remaining] cells, NaN for a
    document without the field.  They raise [KeyError] exactly when no
    document of the window has the field. *)
Theorem series_charts_plot_window (d : database) (now : datetime) :
  let costs := find_window (sub_hours now 24) now (api_costs d) in
  let limits := find_window (sub_hours now 24) now (rate_limits d) in
  update_cost_chart d now
    = (if existsb (has_field "cost") costs
       then Ok [Scatter (map timestamp_of costs) (map (cell_of "cost") costs)]
       else Raise (KeyError "cost")) /\
  update_rate_limit_chart d now
    = (if existsb (has_field "remaining") limits
       then Ok [Scatter (map timestamp_of limits) (map (cell_of "remaining") limits)]
       else Raise (KeyError "remaining")).
Proof.
  cbv zeta. unfold update_cost_chart, update_rate_limit_chart.
  rewrite !raw_series_chart_spec. cbn [String.eqb Ascii.eqb Bool.eqb negb].
  rewrite !andb_true_r. split; reflexivity.
Qed.

Lemma step_series_fields (repr_float : float -> string) (s s' : AnalyticsCollector) :
  step repr_float s s' ->
  Forall (fun d => exists x, field "cost" d = Some (VFloat x)) (api_costs (db s)) /\
  Forall (fun d => exists n, field "remaining" d = Some (VInt n)) (rate_limits (db s)) ->
  Forall (fun d => exists x, field "cost" d = Some (VFloat x)) (api_costs (db s')) /\
  Forall (fun d => exists n, field "remaining" d = Some (VInt n)) (rate_limits (db s')).
Proof.
  intros Hstep [Hc Hr].
  destruct Hstep as [s t1 t2 r w | s t1 t2 t3 r w s' Htick | s t1 t2 r w | s t1 t2 r w].
  - split; assumption.
  - invert_user_tick Htick. split; assumption.
  - cbn [collect_api_costs_tick db api_costs rate_limits].
    split; [| exact Hr]. destruct w; cbn [insert_one]; try exact Hc.
    apply Forall_app. split; [exact Hc |].
    constructor; [| constructor]. eexists. reflexivity.
  - cbn [collect_rate_limits_tick db api_costs rate_limits].
    split; [exact Hc |]. destruct w; cbn [insert_one]; try exact Hr.
    apply Forall_app. split; [exact Hr |].
    constructor; [| constructor]. eexists. reflexivity.
Qed.

Lemma find_window_Forall (P : document -> Prop) (start_time end_time : datetime)
    (collection : list document) :
  Forall P collection -> Forall P (find_window start_time end_time collection).
Proof.
  intros H. unfold find_window.
  eapply Permutation_Forall; [symmetry; apply sort_by_perm |].
  unfold match_window. apply List.Forall_forall. intros d Hd.
  apply filter_In in Hd as [Hd _]. revert d Hd. apply List.Forall_forall. exact H.
Qed.

Lemma cells_of {A} (k : string) (C : A -> value) (l : list document) :
  Forall (fun d => exists x, field k d = Some (C x)) l ->
  exists xs, map (cell_of k) l = map C xs.
Proof.
  induction 1 as [| d l (x & Hx) _ (xs & IH)]; [exists []; reflexivity |].
  exists (x :: xs). cbn [map]. unfold cell_of at 1. rewrite Hx, IH. reflexivity.
Qed.

(** X14. On a store filled by the generator from an empty one, the cost and
    rate-limit charts raise exactly when the window holds no document.
    Otherwise they plot one point per document of the window: floats for
    the cost, integers for the rate limit. *)
Theorem generator_series_charts (repr_float : float -> string)
    (redis : gmap string string) (s : AnalyticsCollector) (now : datetime) :
  rtc (step repr_float) (init redis empty_db) s ->
  let costs := find_window (sub_hours now 24) now (api_costs (db s)) in
  let limits := find_window (sub_hours now 24) now (rate_limits (db s)) in
  (exists xs,
     map (cell_of "cost") costs = map VFloat xs /\
     update_cost_chart (db s) now
     = match costs with
       | [] => Raise (KeyError "cost")
       | _ => Ok [Scatter (map timestamp_of costs) (map VFloat xs)]
       end) /\
  (exists ns,
     map (cell_of "remaining") limits = map VInt ns /\
     update_rate_limit_chart (db s) now
     = match limits with
       | [] => Raise (KeyError "remaining")
       | _ => Ok [Scatter (map timestamp_of limits) (map VInt ns)]
       end).
Proof.
  intros Hrun. cbv zeta.
  assert (Forall (fun d => exists x, field "cost" d = Some (VFloat x)) (api_costs (db s)) /\
          Forall (fun d => exists n, field "remaining" d = Some (VInt n)) (rate_limits (db s)))
    as [Hc Hr].
  { apply (rtc_ind_r (R := step repr_float)
             (fun s => Forall (fun d => exists x, field "cost" d = Some (VFloat x))
                              (api_costs (db s)) /\
                       Forall (fun d => exists n, field "remaining" d = Some (VInt n))
                              (rate_limits (db s)))
             (init redis empty_db)); [| | exact Hrun].
    - split; constructor.
    - intros s1 s2 _ Hstep IH. eapply step_series_fields; eassumption. }
  pose proof (raw_series_chart_spec (api_costs (db s)) "cost" now) as Ecost.
  pose proof (raw_series_chart_spec (rate_limits (db s)) "remaining" now) as Elimit.
  cbv zeta in Ecost, Elimit.
  cbn [String.eqb Ascii.eqb Bool.eqb negb] in Ecost, Elimit.
  rewrite andb_true_r in Ecost, Elimit.
  unfold update_cost_chart, update_rate_limit_chart.
  split.
  - pose proof (find_window_Forall _ (sub_hours now 24) now _ Hc) as Hc'.
    rewrite Ecost.
    destruct (cells_of "cost" VFloat _ Hc') as [xs Hxs].
    exists xs. split; [exact Hxs |]. rewrite <- Hxs.
    destruct Hc' as [| d l (x & Hx) _]; [reflexivity |].
    cbn [existsb]. unfold has_field at 1. rewrite Hx. reflexivity.
  - pose proof (find_window_Forall _ (sub_hours now 24) now _ Hr) as Hr'.
    rewrite Elimit.
    destruct (cells_of "remaining" VInt _ Hr') as [ns Hns].
    exists ns. split; [exact Hns |]. rewrite <- Hns.
    destruct Hr' as [| d l (n & Hn) _]; [reflexivity |].
    cbn [existsb]. unfold has_field at 1. rewrite Hn. reflexivity.
Qed.

Lemma generator_series_charts_witness :
  let t := mk_datetime 2024 1 1 9 13 0 0 in
  let now := mk_datetime 2024 1 1 12 0 0 0 in
  let s := collect_rate_limits_tick
             (collect_api_costs_tick (fun _ => "") (init ∅ empty_db) t t 12345 Written)
             t t 3 Written in
  let costs := find_window (sub_hours now 24) now (api_costs (db s)) in
  let limits := find_window (sub_hours now 24) now (rate_limits (db s)) in
  (exists xs,
     map (cell_of "cost") costs = map VFloat xs /\
     update_cost_chart (db s) now
     = match costs with
       | [] => Raise (KeyError "cost")
       | _ => Ok [Scatter (map timestamp_of costs) (map VFloat xs)]
       end) /\
  (exists ns,
     map (cell_of "remaining") limits = map VInt ns /\
     update_rate_limit_chart (db s) now
     = match limits with
       | [] => Raise (KeyError "remaining")
       | _ => Ok [Scatter (map timestamp_of limits) (map VInt ns)]
       end).
Proof.
  cbv zeta. apply (generator_series_charts (fun _ => "") ∅).
  eapply rtc_l; [apply step_api_costs |].
  eapply rtc_l; [apply step_rate_limits |].
  apply rtc_refl.
Defined.

(** ** The labels of the hourly buckets *)

Lemma padded_checked :
  all_from (padded_ok 4) (Z.to_nat 10000) 0 = true /\ all_from (padded_ok 2) (Z.to_nat 100) 0 = true.
Proof. vm_compute. split; reflexivity. Qed.

Lemma pad4_digits (n : Z) :
  0 <= n <= 9999 ->
  exists a b c d,
    pad 4 n = String a (String b (String c (String d ""))) /\
    digits_value (String a (String b (String c (String d "")))) 0 = Some n.
Proof.
  intros Hn.
  pose proof (all_from_spec (padded_ok 4) _ 0 n (proj1 padded_checked) ltac:(lia)) as Hok.
  unfold padded_ok in Hok. apply andb_true_iff in Hok as [Hlen Hval].
  apply Nat.eqb_eq in Hlen.
  destruct (pad 4 n) as [| a [| b [| c [| d [| e s]]]]]; try discriminate.
  exists a, b, c, d. split; [reflexivity |].
  destruct (digits_value _ 0) as [v |]; [| discriminate].
  apply Z.eqb_eq in Hval as ->. reflexivity.
Qed.

Lemma pad2_digits (n : Z) :
  0 <= n <= 99 ->
  exists a b,
    pad 2 n = String a (String b "") /\
    digits_value (String a (String b "")) 0 = Some n.
Proof.
  intros Hn.
  pose proof (all_from_spec (padded_ok 2) _ 0 n (proj2 padded_checked) ltac:(lia)) as Hok.
  unfold padded_ok in Hok. apply andb_true_iff in Hok as [Hlen Hval].
  apply Nat.eqb_eq in Hlen.
  destruct (pad 2 n) as [| a [| b [| c s]]]; try discriminate.
  exists a, b. split; [reflexivity |].
  destruct (digits_value _ 0) as [v |]; [| discriminate].
  apply Z.eqb_eq in Hval as ->. reflexivity.
Qed.

Lemma to_datetime_label (ms : Z) :
  four_digit_year ms = true ->
  to_datetime (VStr (mongo_dateToString ms)) = Ok (VDate (hour_start ms)).
Proof.
  unfold four_digit_year, mongo_dateToString, hour_start.
  pose proof (days_from_civil_from_days (ms / 86400000)) as Hback.
  pose proof (civil_from_days_range (ms / 86400000)) as Hrange.
  destruct (civil_from_days (ms / 86400000)) as [[y m] d].
  intros Hy. apply andb_true_iff in Hy as [Hy1 Hy2].
  apply Z.leb_le in Hy1, Hy2. destruct Hrange as [Hm Hd].
  assert (0 <= mongo_hour ms <= 23) as Hh
    by (unfold mongo_hour; Z.div_mod_to_equations; lia).
  destruct (pad4_digits y ltac:(lia)) as (y1 & y2 & y3 & y4 & -> & Ey).
  destruct (pad2_digits m ltac:(lia)) as (m1 & m2 & -> & Em).
  destruct (pad2_digits d ltac:(lia)) as (d1 & d2 & -> & Ed).
  destruct (pad2_digits (mongo_hour ms) ltac:(lia)) as (h1 & h2 & -> & Eh).
  cbv [String.append].
  unfold to_datetime, number_at.
  cbn [substring String.length Nat.eqb].
  rewrite Ey, Em, Ed, Eh.
  change (digits_value "00" 0) with (Some 0).
  rewrite !String.eqb_refl.
  replace (1 <=? m) with true by (symmetry; apply Z.leb_le; lia).
  replace (m <=? 12) with true by (symmetry; apply Z.leb_le; lia).
  replace (1 <=? d) with true by (symmetry; apply Z.leb_le; lia).
  replace (d <=? 31) with true by (symmetry; apply Z.leb_le; lia).
  replace (mongo_hour ms <? 24) with true by (symmetry; apply Z.ltb_lt; lia).
  cbn [andb Z.ltb Z.compare]. rewrite Hback.
  do 2 f_equal. unfold mongo_hour. Z.div_mod_to_equations. lia.
Qed.

Lemma label_of_hour (ms ms' : Z) :
  ms / 3600000 = ms' / 3600000 -> mongo_dateToString ms = mongo_dateToString ms'.
Proof.
  intros H. unfold mongo_dateToString, mongo_hour. rewrite H.
  replace (ms / 86400000) with (ms' / 86400000); [reflexivity |].
  Z.div_mod_to_equations. lia.
Qed.

(** X15. The label [$dateToString] writes for a date whose year has four
    digits is read back by [pd.to_datetime] as the start of the hour of the
    date; two such dates get the same label exactly when they are in the
    same hour. *)
Theorem hour_label_round_trip (ms ms' : Z) :
  four_digit_year ms = true -> four_digit_year ms' = true ->
  to_datetime (VStr (mongo_dateToString ms)) = Ok (VDate (hour_start ms)) /\
  hour_start ms <= ms < hour_start ms + 3600000 /\
  (mongo_dateToString ms = mongo_dateToString ms' <-> hour_start ms = hour_start ms').
Proof.
  intros Hy Hy'. split; [apply to_datetime_label, Hy |]. split.
  - unfold hour_start. Z.div_mod_to_equations. lia.
  - split.
    + intros E. pose proof (to_datetime_label ms Hy) as H1.
      rewrite E, (to_datetime_label ms' Hy') in H1. congruence.
    + intros E. apply label_of_hour. unfold hour_start in E. lia.
Qed.

Lemma hour_label_round_trip_witness :
  let ms := bson_date (mk_datetime 2024 1 1 9 13 0 0) in
  let ms' := bson_date (mk_datetime 2024 1 1 9 47 30 0) in
  to_datetime (VStr (mongo_dateToString ms)) = Ok (VDate (hour_start ms)) /\
  hour_start ms <= ms < hour_start ms + 3600000 /\
  (mongo_dateToString ms = mongo_dateToString ms' <-> hour_start ms = hour_start ms').
Proof.
  cbv zeta. apply hour_label_round_trip; vm_compute; reflexivity.
Defined.
(** ** The [$group] stage *)

Lemma value_eqb_sym (a b : value) : value_eqb a b = value_eqb b a.
Proof.
  destruct (value_eqb a b) eqn:E1, (value_eqb b a) eqn:E2; try reflexivity.
  - apply value_eqb_eq in E1 as ->. rewrite value_eqb_refl in E2. discriminate.
  - apply value_eqb_eq in E2 as ->. rewrite value_eqb_refl in E1. discriminate.
Qed.

Lemma bump_tally (k : value) (n : Z) (groups : list (value * Z)) (k' : value) :
  tally k' (bump k n groups) = tally k' groups + (if value_eqb k k' then n else 0).
Proof.
  induction groups as [| [k1 c] groups IH]; cbn [bump tally]; [lia |].
  destruct (value_eqb k k1) eqn:E; cbn [tally].
  - apply value_eqb_eq in E as ->. destruct (value_eqb k1 k'); lia.
  - rewrite IH. lia.
Qed.

Lemma bump_total (k : value) (n : Z) (groups : list (value * Z)) :
  total (bump k n groups) = total groups + n.
Proof.
  unfold total.
  induction groups as [| [k1 c] groups IH]; cbn [bump map fold_right snd]; [lia |].
  destruct (value_eqb k k1); cbn [map fold_right snd]; lia.
Qed.

Lemma bump_keys (k : value) (n : Z) (groups : list (value * Z)) (k' : value) :
  In k' (map fst (bump k n groups)) <-> k' = k \/ In k' (map fst groups).
Proof.
  induction groups as [| [k1 c] groups IH]; cbn [bump map fst In].
  - intuition congruence.
  - destruct (value_eqb k k1) eqn:E; cbn [map fst In].
    + apply value_eqb_eq in E as ->. intuition congruence.
    + rewrite IH. intuition congruence.
Qed.

Lemma bump_NoDup (k : value) (n : Z) (groups : list (value * Z)) :
  NoDup (map fst groups) -> NoDup (map fst (bump k n groups)).
Proof.
  induction groups as [| [k1 c] groups IH]; cbn [bump map fst]; intros Hnd.
  - apply NoDup_singleton.
  - apply NoDup_cons in Hnd as [Hnotin Hnd].
    destruct (value_eqb k k1) eqn:E; cbn [map fst]; apply NoDup_cons.
    + split; assumption.
    + split; [| apply IH, Hnd].
      rewrite list_elem_of_In, bump_keys. intros [<- | Hin].
      * rewrite value_eqb_refl in E. discriminate.
      * apply Hnotin, list_elem_of_In, Hin.
Qed.

Lemma tally_absent (k : value) (groups : list (value * Z)) :
  ~ In k (map fst groups) -> tally k groups = 0.
Proof.
  induction groups as [| [k1 c] groups IH]; cbn [tally map fst In]; intros H; [reflexivity |].
  destruct (value_eqb k1 k) eqn:E.
  - apply value_eqb_eq in E. tauto.
  - rewrite IH by tauto. lia.
Qed.

Lemma tally_present (k : value) (c : Z) (groups : list (value * Z)) :
  NoDup (map fst groups) -> In (k, c) groups -> tally k groups = c.
Proof.
  induction groups as [| [k1 c1] groups IH]; cbn [tally map fst In]; intros Hnd Hin;
    [contradiction |].
  apply NoDup_cons in Hnd as [Hnotin Hnd]. rewrite list_elem_of_In in Hnotin.
  destruct Hin as [[= -> ->] | Hin].
  - rewrite value_eqb_refl, tally_absent by exact Hnotin. lia.
  - destruct (value_eqb k1 k) eqn:E.
    + apply value_eqb_eq in E as ->. exfalso. apply Hnotin.
      apply (in_map fst) in Hin. exact Hin.
    + rewrite (IH Hnd Hin). lia.
Qed.

Lemma count_key_cons (key : document -> value) (k : value) (d : document)
    (docs : list document) :
  count_key key k (d :: docs)
  = (if value_eqb (key d) k then 1 else 0) + count_key key k docs.
Proof.
  unfold count_key. cbn [List.filter].
  destruct (value_eqb (key d) k); cbn [length]; lia.
Qed.

Lemma count_key_pos (key : document -> value) (k : value) (docs : list document) :
  In k (map key docs) -> 1 <= count_key key k docs.
Proof.
  induction docs as [| d docs IH]; cbn [map In]; [contradiction |].
  rewrite count_key_cons. intros [<- | Hin].
  - rewrite value_eqb_refl. unfold count_key. lia.
  - specialize (IH Hin). destruct (value_eqb (key d) k); lia.
Qed.

(** The groups a counting [$group] stage folds the documents into. *)
Lemma fold_bump_spec (key : document -> value) (docs : list document)
    (groups : list (value * Z)) :
  let groups' :=
    fold_left (fun groups d => bump (key d) (eval_sum (SumConst 1) d) groups) docs groups in
  (NoDup (map fst groups) -> NoDup (map fst groups')) /\
  (forall k, In k (map fst groups') <-> In k (map fst groups) \/ In k (map key docs)) /\
  (forall k, tally k groups' = tally k groups + count_key key k docs) /\
  total groups' = total groups + Z.of_nat (length docs).
Proof.
  cbv zeta. revert groups.
  induction docs as [| d docs IH]; intros groups; cbn [fold_left map In length].
  - repeat split; try tauto; unfold count_key; cbn; lia.
  - destruct (IH (bump (key d) (eval_sum (SumConst 1) d) groups)) as (Hnd & Hkeys & Htally & Htotal).
    cbn [eval_sum] in *. split; [| split; [| split]].
    + intros H. apply Hnd, bump_NoDup, H.
    + intros k. rewrite Hkeys, bump_keys. intuition congruence.
    + intros k. rewrite Htally, bump_tally, count_key_cons. lia.
    + rewrite Htotal, bump_total. lia.
Qed.

Lemma group_spec (key : document -> value) (docs : list document) :
  exists groups,
    group key (SumConst 1) docs = group_documents groups /\
    NoDup (map fst groups) /\
    (forall k, In k (map fst groups) <-> In k (map key docs)) /\
    (forall k c, In (k, c) groups -> c = count_key key k docs) /\
    total groups = Z.of_nat (length docs).
Proof.
  destruct (fold_bump_spec key docs []) as (Hnd & Hkeys & Htally & Htotal).
  eexists. split; [reflexivity |]. split; [apply Hnd; constructor |].
  split; [| split].
  - intros k. rewrite Hkeys. cbn [map In]. tauto.
  - intros k c Hin. rewrite <- (tally_present k c _ (Hnd ltac:(constructor)) Hin).
    rewrite Htally. cbn [tally]. lia.
  - rewrite Htotal. unfold total. cbn. lia.
Qed.

Lemma id_of_group_documents (groups : list (value * Z)) :
  map id_of (group_documents groups) = map fst groups.
Proof.
  unfold group_documents. rewrite map_map. apply map_ext. intros [k c]. reflexivity.
Qed.

Lemma total_perm (groups groups' : list (value * Z)) :
  Permutation groups groups' -> total groups = total groups'.
Proof.
  unfold total. induction 1 as [| [k c] l l' _ IH | [k c] [k' c'] l | l l' l'' _ IH1 _ IH2];
    cbn [map fold_right snd]; lia.
Qed.

(** X16. The pipeline of [update_message_volume] returns one bucket for each
    hour label of the window, in the order of the labels; the count of a
    bucket is the number of documents of the window with its label, so it is
    at least 1 and the counts add up to the size of the window. *)
Theorem message_volume_pipeline_counts (start_time end_time : datetime)
    (collection : list document) :
  let window := match_window start_time end_time collection in
  exists buckets,
    message_volume_pipeline (SumConst 1) start_time end_time collection
      = group_documents buckets /\
    NoDup (map fst buckets) /\
    Sorted (fun k k' => value_leb k k' = true) (map fst buckets) /\
    (forall k, In k (map fst buckets) <-> In k (map hour_label window)) /\
    (forall k c, In (k, c) buckets -> c = count_key hour_label k window /\ 1 <= c) /\
    total buckets = Z.of_nat (length window).
Proof.
  cbv zeta. unfold message_volume_pipeline, sort_by_id.
  change (on_timestamp (fun ms => VStr (mongo_dateToString ms))) with hour_label.
  destruct (group_spec hour_label (match_window start_time end_time collection))
    as (groups & -> & Hnd & Hkeys & Hcount & Htotal).
  set (leb := fun d d' : document => value_leb (id_of d) (id_of d')).
  pose proof (sort_by_perm leb (group_documents groups)) as Hperm.
  pose proof (sort_by_sorted leb (fun a b => value_leb_total (id_of a) (id_of b))
                (group_documents groups)) as Hsorted.
  destruct (Permutation_map_inv _ _ Hperm) as (buckets & Heq & Hperm').
  fold (group_documents buckets) in Heq. rewrite Heq in *.
  exists buckets. split; [reflexivity |]. split; [| split; [| split; [| split]]].
  - rewrite <- Hperm'. exact Hnd.
  - rewrite <- id_of_group_documents.
    clear -Hsorted. induction Hsorted as [| g l _ IH Hhd]; cbn [map]; constructor;
      [exact IH |].
    destruct Hhd; cbn [map]; constructor. assumption.
  - intros k. rewrite <- Hkeys. split; apply Permutation_in;
      [symmetry |]; apply Permutation_map; exact Hperm'.
  - intros k c Hin.
    assert (In (k, c) groups) as Hin'
      by (eapply Permutation_in; [symmetry; exact Hperm' | exact Hin]).
    split; [apply Hcount, Hin' |].
    rewrite (Hcount k c Hin'). apply count_key_pos, Hkeys.
    apply (in_map fst) in Hin'. exact Hin'.
  - rewrite <- Htotal. symmetry. apply total_perm, Hperm'.
Qed.
(** ** The message volume chart *)

Lemma mapM_map_ok {A B C} (f : B -> result C) (h : A -> B) (g : A -> C) (l : list A) :
  Forall (fun x => f (h x) = Ok (g x)) l -> mapM f (map h l) = Ok (map g l).
Proof.
  induction 1 as [| x l Hx _ IH]; cbn [mapM map]; [reflexivity |].
  rewrite Hx, IH. reflexivity.
Qed.

(** The figure of [update_message_volume], from the buckets of its pipeline
    and the dates their labels are read as. *)
Lemma update_message_volume_buckets (d : database) (now : datetime)
    (buckets : list (value * Z)) (xs : list value) :
  message_volume_pipeline (SumConst 1) (sub_hours now 24) now (message_logs d)
    = group_documents buckets ->
  buckets <> [] ->
  mapM to_datetime (map fst buckets) = Ok xs ->
  update_message_volume d now = Ok [Scatter xs (map (fun b => VInt (snd b)) buckets)].
Proof.
  intros Hpipe Hne Hxs. unfold update_message_volume. cbv zeta. rewrite Hpipe.
  assert (existsb (has_field "_id") (group_documents buckets) = true) as Hid
    by (destruct buckets as [| [k c] buckets]; [contradiction | reflexivity]).
  assert (existsb (has_field "count") (group_documents buckets) = true) as Hcount
    by (destruct buckets as [| [k c] buckets]; [contradiction | reflexivity]).
  assert (map (cell_of "_id") (group_documents buckets) = map fst buckets) as Eid.
  { unfold group_documents. rewrite map_map. apply map_ext. intros [k c]. reflexivity. }
  assert (map (cell_of "count") (group_documents buckets)
          = map (fun b => VInt (snd b)) buckets) as Ecount.
  { unfold group_documents. rewrite map_map. apply map_ext. intros [k c]. reflexivity. }
  rewrite (df_empty_pd_DataFrame _ "_id" Hid). cbn [negb].
  rewrite getitem_pd_DataFrame, Hid. cbn [rbind].
  rewrite Eid, Hxs. cbn [rbind].
  unfold set_index, getitem at 1, setitem. cbn [df_columns df_index].
  rewrite lookup_col_replaced. cbn [rbind df_index].
  unfold getitem, pd_DataFrame. cbn [df_columns].
  rewrite (lookup_col_reindexed (fun k => map (cell_of k) (group_documents buckets)))
    by (apply keys_NoDup; constructor).
  cbn [String.eqb Ascii.eqb Bool.eqb].
  rewrite (lookup_col_keys (fun k => map (cell_of k) (group_documents buckets))), keys_spec.
  cbn [existsb orb]. rewrite Hcount, Ecount. reflexivity.
Qed.

Lemma NoDup_map_coarser {A B C} (f : A -> B) (g : A -> C) (l : list A) :
  (forall x y, In x l -> In y l -> g x = g y -> f x = f y) ->
  NoDup (map f l) -> NoDup (map g l).
Proof.
  induction l as [| x l IH]; cbn [map]; intros Hfg Hnd; [constructor |].
  apply NoDup_cons in Hnd as [Hnotin Hnd]. apply NoDup_cons. split.
  - intros Hin. apply Hnotin. apply list_elem_of_In in Hin. apply list_elem_of_In.
    apply in_map_iff in Hin as (y & Hy & Hin).
    apply in_map_iff. exists y. split; [| exact Hin].
    apply Hfg; [right; exact Hin | left; reflexivity | exact Hy].
  - apply IH; [| exact Hnd]. intros a b Ha Hb. apply Hfg; right; assumption.
Qed.

(** The window of a chart covers 25 hours of the clock at most. *)
Lemma window_hours (now : datetime) (ms : Z) :
  bson_date (sub_hours now 24) <= ms <= bson_date now ->
  bson_date (sub_hours now 24) / 3600000 <= ms / 3600000
  <= bson_date (sub_hours now 24) / 3600000 + 24.
Proof.
  unfold bson_date, sub_hours. rewrite to_micros_from_micros.
  intros H. Z.div_mod_to_equations. lia.
Qed.

Lemma hour_label_in_window (s e : datetime) (doc : document) :
  in_window s e doc = true ->
  exists ms, timestamp_ms doc = Some ms /\ hour_label doc = VStr (mongo_dateToString ms).
Proof.
  intros Hin. destruct (in_window_inv _ _ _ Hin) as (ms & Hms & _).
  exists ms. unfold timestamp_ms, hour_label, on_timestamp. rewrite Hms. auto.
Qed.

(** X17. When the window holds a sample, and the years of its dates have
    four digits, [update_message_volume] plots one point for each hour in
    which the window has a sample: the start of the hour against the number
    of samples of the window in that hour, whatever their [count].  The
    window being 24 hours long, there are at most 25 points. *)
Theorem message_volume_plots_hours (d : database) (now : datetime) :
  let window := match_window (sub_hours now 24) now (message_logs d) in
  window <> [] ->
  Forall (fun doc => forall ms, timestamp_ms doc = Some ms -> four_digit_year ms = true)
         window ->
  exists series : list (Z * Z),
    update_message_volume d now
      = Ok [Scatter (map (fun p => VDate (fst p)) series)
                    (map (fun p => VInt (snd p)) series)] /\
    NoDup (map fst series) /\
    (forall h, In h (map fst series) <-> exists doc, In doc window /\ in_hour h doc = true) /\
    (forall h c, In (h, c) series ->
                 c = Z.of_nat (length (List.filter (in_hour h) window))) /\
    fold_right Z.add 0 (map snd series) = Z.of_nat (length window) /\
    (length series <= 25)%nat.
Proof.
  cbv zeta. set (window := match_window (sub_hours now 24) now (message_logs d)).
  intros Hne Hyears.
  assert (Forall (fun doc => in_window (sub_hours now 24) now doc = true) window) as Hwin.
  { apply List.Forall_forall. intros doc Hdoc. apply filter_In in Hdoc. apply Hdoc. }
  (* the buckets of the pipeline *)
  destruct (group_spec hour_label window) as (groups & Hgroup & Hnd & Hkeys & Hcount & Htotal).
  set (leb := fun g g' : document => value_leb (id_of g) (id_of g')).
  pose proof (sort_by_perm leb (group_documents groups)) as Hperm.
  destruct (Permutation_map_inv _ _ Hperm) as (buckets & Hsorted & Hperm').
  fold (group_documents buckets) in Hsorted.
  assert (message_volume_pipeline (SumConst 1) (sub_hours now 24) now (message_logs d)
          = group_documents buckets) as Hpipe.
  { unfold message_volume_pipeline, sort_by_id.
    change (on_timestamp (fun ms => VStr (mongo_dateToString ms))) with hour_label.
    fold window. rewrite Hgroup. exact Hsorted. }
  assert (forall k c, In (k, c) buckets <-> In (k, c) groups) as Hin_buckets.
  { intros k c. split; apply Permutation_in; [symmetry |]; exact Hperm'. }
  assert (forall k, In k (map fst buckets) <-> In k (map hour_label window)) as Hkeys'.
  { intros k. rewrite <- Hkeys. split; apply Permutation_in;
      [symmetry |]; apply Permutation_map; exact Hperm'. }
  (* a sample of the window stands for each bucket *)
  assert (exists reps : list (Z * Z),
            buckets = map (fun r => (VStr (mongo_dateToString (fst r)), snd r)) reps /\
            Forall (fun r => four_digit_year (fst r) = true) reps /\
            Forall (fun r => bson_date (sub_hours now 24) <= fst r <= bson_date now) reps)
    as (reps & Hreps & Hfour & Hrange).
  { assert (Forall (fun b => In (fst b) (map hour_label window)) buckets) as Hall.
    { apply List.Forall_forall. intros [k c] Hb. apply Hkeys'.
      apply (in_map fst) in Hb. exact Hb. }
    clear -Hall Hwin Hyears.
    induction Hall as [| [k c] l Hk _ (reps & -> & Hfour & Hrange)].
    - exists []. split; [reflexivity | split; constructor].
    - cbn [fst] in Hk. apply in_map_iff in Hk as (doc & <- & Hdoc).
      rewrite List.Forall_forall in Hwin, Hyears.
      destruct (hour_label_in_window _ _ _ (Hwin doc Hdoc)) as (ms & Hms & ->).
      exists ((ms, c) :: reps). split; [reflexivity |].
      split; constructor; [apply (Hyears doc Hdoc), Hms | exact Hfour | | exact Hrange].
      destruct (in_window_inv _ _ _ (Hwin doc Hdoc)) as (ms' & Hms' & Hb).
      unfold timestamp_ms in Hms. rewrite Hms' in Hms. injection Hms as <-. exact Hb. }
  exists (map (fun r => (hour_start (fst r), snd r)) reps).
  assert (NoDup (map (fun r : Z * Z => hour_start (fst r)) reps)) as Hhours.
  { apply (NoDup_map_coarser (fun r : Z * Z => VStr (mongo_dateToString (fst r)))).
    - intros x y _ _ E. f_equal. apply label_of_hour. unfold hour_start in E. lia.
    - assert (NoDup (map fst buckets)) as Hnd' by (rewrite <- Hperm'; exact Hnd).
      rewrite Hreps, map_map in Hnd'. exact Hnd'. }
  rewrite List.Forall_forall in Hwin, Hyears, Hfour, Hrange.
  assert (forall doc ms ms', In doc window -> timestamp_ms doc = Some ms' ->
            four_digit_year ms = true ->
            value_eqb (hour_label doc) (VStr (mongo_dateToString ms))
            = in_hour (hour_start ms) doc) as Hsame.
  { intros doc ms ms' Hdoc Hms' Hfour_ms.
    destruct (hour_label_in_window _ _ _ (Hwin doc Hdoc)) as (ms1 & Hms1 & ->).
    unfold in_hour. rewrite Hms1. cbn [value_eqb].
    pose proof (Hyears doc Hdoc ms1 Hms1) as Hfour1.
    destruct (String.eqb_spec (mongo_dateToString ms1) (mongo_dateToString ms)) as [E | E];
      destruct (Z.eqb_spec (hour_start ms1) (hour_start ms)) as [E' | E']; try reflexivity.
    - exfalso. apply E'.
      pose proof (to_datetime_label ms1 Hfour1) as H1.
      rewrite E, (to_datetime_label ms Hfour_ms) in H1. congruence.
    - exfalso. apply E, label_of_hour. unfold hour_start in E'. lia. }
  split; [| split; [| split; [| split; [| split]]]].
  - rewrite !map_map. cbn [fst snd].
    rewrite (update_message_volume_buckets d now buckets
               (map (fun r => VDate (hour_start (fst r))) reps) Hpipe).
    + rewrite Hreps, map_map. reflexivity.
    + intros Hnil. apply Hne. rewrite Hnil in Hperm'.
      apply Permutation_nil_r in Hperm'. rewrite Hperm' in Htotal.
      destruct window; [reflexivity | cbn in Htotal; lia].
    + rewrite Hreps, map_map. cbn [fst].
      apply (mapM_map_ok to_datetime
               (fun r : Z * Z => VStr (mongo_dateToString (fst r)))
               (fun r : Z * Z => VDate (hour_start (fst r)))).
      apply List.Forall_forall. intros r Hr. apply to_datetime_label, Hfour, Hr.
  - rewrite map_map. exact Hhours.
  - intros h. rewrite map_map. cbn [fst]. split.
    + intros Hin. apply in_map_iff in Hin as ([ms c] & <- & Hr). cbn [fst].
      assert (In (VStr (mongo_dateToString ms)) (map hour_label window)) as Hk.
      { apply Hkeys'. rewrite Hreps, map_map. apply in_map_iff.
        exists (ms, c). split; [reflexivity | exact Hr]. }
      apply in_map_iff in Hk as (doc & Hlabel & Hdoc).
      exists doc. split; [exact Hdoc |].
      destruct (hour_label_in_window _ _ _ (Hwin doc Hdoc)) as (ms1 & Hms1 & _).
      rewrite <- (Hsame doc ms ms1 Hdoc Hms1 (Hfour (ms, c) Hr)), Hlabel.
      apply value_eqb_refl.
    + intros (doc & Hdoc & Hh).
      destruct (hour_label_in_window _ _ _ (Hwin doc Hdoc)) as (ms1 & Hms1 & Hlabel).
      assert (In (hour_label doc) (map fst buckets)) as Hk
        by (apply Hkeys', in_map, Hdoc).
      rewrite Hreps, map_map in Hk. apply in_map_iff in Hk as ([ms c] & Hk & Hr).
      cbn [fst] in Hk. apply in_map_iff. exists (ms, c). split; [| exact Hr].
      cbn [fst]. unfold in_hour in Hh. rewrite Hms1 in Hh. apply Z.eqb_eq in Hh as <-.
      rewrite Hlabel in Hk. injection Hk as Hk.
      pose proof (to_datetime_label ms (Hfour (ms, c) Hr)) as H1.
      rewrite Hk, (to_datetime_label ms1 (Hyears doc Hdoc ms1 Hms1)) in H1. congruence.
  - intros h c Hin. apply in_map_iff in Hin as ([ms c'] & [= <- <-] & Hr).
    assert (In (VStr (mongo_dateToString ms), c') groups) as Hb.
    { apply Hin_buckets. rewrite Hreps. apply in_map_iff.
      exists (ms, c'). split; [reflexivity | exact Hr]. }
    rewrite (Hcount _ _ Hb). unfold count_key. do 2 f_equal.
    apply filter_ext_in. intros doc Hdoc.
    destruct (hour_label_in_window _ _ _ (Hwin doc Hdoc)) as (ms1 & Hms1 & _).
    apply (Hsame doc ms ms1 Hdoc Hms1 (Hfour (ms, c') Hr)).
  - rewrite map_map. cbn [snd]. rewrite <- Htotal, (total_perm _ _ Hperm').
    unfold total. rewrite Hreps, map_map. reflexivity.
  - rewrite length_map, <- (length_map (fun r : Z * Z => hour_start (fst r)) reps).
    set (q := bson_date (sub_hours now 24) / 3600000).
    change 25%nat with (length (map (fun k => (q + Z.of_nat k) * 3600000) (seq 0 25))).
    apply NoDup_incl_length; [apply NoDup_ListNoDup, Hhours |].
    intros h Hh. apply in_map_iff in Hh as (r & <- & Hr).
    pose proof (window_hours now (fst r) (Hrange r Hr)) as Hq. fold q in Hq.
    apply in_map_iff. exists (Z.to_nat (fst r / 3600000 - q)).
    split; [unfold hour_start; f_equal; lia | apply in_seq; lia].
Qed.

Lemma message_volume_plots_hours_witness :
  let now := mk_datetime 2024 1 1 12 0 0 0 in
  let d := mk_database [sample (mk_datetime 2024 1 1 9 13 0 0) 4;
                        sample (mk_datetime 2024 1 1 9 47 0 0) 6;
                        sample (mk_datetime 2024 1 1 10 5 0 0) 3] [] [] [] in
  let window := match_window (sub_hours now 24) now (message_logs d) in
  exists series : list (Z * Z),
    update_message_volume d now
      = Ok [Scatter (map (fun p => VDate (fst p)) series)
                    (map (fun p => VInt (snd p)) series)] /\
    NoDup (map fst series) /\
    (forall h, In h (map fst series) <-> exists doc, In doc window /\ in_hour h doc = true) /\
    (forall h c, In (h, c) series ->
                 c = Z.of_nat (length (List.filter (in_hour h) window))) /\
    fold_right Z.add 0 (map snd series) = Z.of_nat (length window) /\
    (length series <= 25)%nat.
Proof.
  cbv zeta. apply message_volume_plots_hours.
  - vm_compute. discriminate.
  - set (w := match_window _ _ _). vm_compute in w. subst w.
    repeat constructor; intros ms H; vm_compute in H; injection H as <-;
      vm_compute; reflexivity.
Defined.

(** ** The activity heatmap *)

Lemma lookup_col_replace_ne (k k' : value) (c : list value)
    (cols : list (value * list value)) :
  value_eqb k k' = false ->
  lookup_col k (replace_col k' c cols) = lookup_col k cols.
Proof.
  intros Hne. induction cols as [| [k1 c1] cols IH]; cbn [replace_col lookup_col].
  - rewrite Hne. reflexivity.
  - destruct (value_eqb k' k1) eqn:E; cbn [lookup_col]; [| rewrite IH; reflexivity].
    apply value_eqb_eq in E as <-. rewrite Hne. reflexivity.
Qed.

Lemma dedup_In (x : value) (l : list value) : In x (dedup l) <-> In x l.
Proof.
  induction l as [| y l IH]; cbn [dedup In]; [tauto |].
  rewrite filter_In, IH. split; [tauto |].
  intros [-> | Hin]; [tauto |].
  destruct (value_eqb y x) eqn:E; [apply value_eqb_eq in E; tauto | tauto].
Qed.

Lemma NoDup_List_filter {A} (p : A -> bool) (l : list A) :
  NoDup l -> NoDup (List.filter p l).
Proof.
  induction 1 as [| x l Hnotin _ IH]; cbn [List.filter]; [constructor |].
  destruct (p x); [| exact IH]. constructor; [| exact IH].
  rewrite list_elem_of_In, filter_In. rewrite list_elem_of_In in Hnotin. tauto.
Qed.

Lemma dedup_NoDup (l : list value) : NoDup (dedup l).
Proof.
  induction l as [| y l IH]; cbn [dedup]; constructor.
  - rewrite list_elem_of_In, filter_In, value_eqb_refl. cbn. intros [_ H]. discriminate.
  - apply NoDup_List_filter, IH.
Qed.

(** The sorted distinct values of a column of integers. *)
Lemma sort_uniq_ints (l : list Z) :
  exists l', sort_uniq (map VInt l) = map VInt l' /\
             StronglySorted Z.lt l' /\ (forall x, In x l' <-> In x l).
Proof.
  unfold sort_uniq.
  pose proof (sort_by_perm value_leb (dedup (map VInt l))) as Hperm.
  pose proof (sort_by_sorted value_leb value_leb_total (dedup (map VInt l))) as Hsorted.
  assert (NoDup (sort_by value_leb (dedup (map VInt l)))) as Hnd
    by (rewrite Hperm; apply dedup_NoDup).
  assert (forall v, In v (sort_by value_leb (dedup (map VInt l))) <-> In v (map VInt l))
    as Hin.
  { intros v. rewrite <- (dedup_In v (map VInt l)).
    split; apply Permutation_in; [| symmetry]; exact Hperm. }
  revert Hsorted Hnd Hin. generalize (sort_by value_leb (dedup (map VInt l))) as vs.
  intros vs Hsorted Hnd Hin.
  assert (exists l', vs = map VInt l') as [l' ->].
  { assert (Forall (fun v => exists n, v = VInt n) vs) as Hall.
    { apply List.Forall_forall. intros v Hv. apply Hin, in_map_iff in Hv as (n & <- & _).
      eauto. }
    clear -Hall. induction Hall as [| v vs (n & ->) _ (l' & ->)];
      [exists [] | exists (n :: l')]; reflexivity. }
  exists l'. split; [reflexivity |]. split.
  - assert (Sorted Z.le l') as Hle.
    { clear -Hsorted. induction l' as [| x l' IH]; [constructor |].
      cbn [map] in Hsorted. apply Sorted_inv in Hsorted as [Hs Hhd].
      constructor; [apply IH, Hs |].
      destruct l' as [| y l']; constructor.
      cbn [map] in Hhd. apply HdRel_inv in Hhd. cbn in Hhd. lia. }
    apply Sorted_StronglySorted in Hle; [| intros a b c; lia].
    clear -Hle Hnd. induction Hle as [| x l' Hs IH Hall]; constructor.
    + apply IH. cbn [map] in Hnd. apply NoDup_cons in Hnd. apply Hnd.
    + cbn [map] in Hnd. apply NoDup_cons in Hnd as [Hnotin _].
      rewrite List.Forall_forall in *. intros y Hy.
      specialize (Hall y Hy).
      assert (x <> y); [| lia].
      intros ->. apply Hnotin, list_elem_of_In, in_map, Hy.
  - assert (forall (l0 : list Z) x, In x l0 <-> In (VInt x) (map VInt l0)) as Hinj.
    { intros l0 x. rewrite in_map_iff. split.
      - intros Hx. exists x. auto.
      - intros (y & [= ->] & Hy). exact Hy. }
    intros x. rewrite (Hinj l' x), (Hinj l x). apply Hin.
Qed.

Lemma map_seq_nth {A B} (G : A -> B) (d : A) (l : list A) :
  map (fun i => G (nth i l d)) (seq 0 (length l)) = map G l.
Proof.
  induction l as [| x l IH]; cbn [length seq map nth]; [reflexivity |].
  f_equal. rewrite <- seq_shift, map_map. exact IH.
Qed.

(** The rows of a pivoted frame after [fillna]. *)
Lemma df_values_pivoted (F : value -> value -> value) (x : value)
    (rows colkeys : list value) :
  df_values (fillna (mk_df rows (map (fun cl => (cl, map (fun rw => F rw cl) rows)) colkeys)) x)
  = map (fun rw => map (fun cl => if is_na (F rw cl) then x else F rw cl) colkeys) rows.
Proof.
  unfold df_values, fillna. cbn [df_index df_columns].
  rewrite <- (map_seq_nth
                (fun rw => map (fun cl => if is_na (F rw cl) then x else F rw cl) colkeys)
                VNull rows).
  apply map_ext_in. intros i Hi. apply in_seq in Hi.
  rewrite !map_map. apply map_ext. intros cl.
  rewrite map_map.
  rewrite (nth_indep _ nan (if is_na (F VNull cl) then x else F VNull cl))
    by (rewrite length_map; lia).
  apply (map_nth (fun rw => if is_na (F rw cl) then x else F rw cl)).
Qed.

Lemma getitem_setitem_eq (df : DataFrame) (k : string) (c : list value) :
  getitem (setitem df k c) k = Ok c.
Proof. unfold getitem, setitem. cbn [df_columns]. rewrite lookup_col_replaced. reflexivity. Qed.

Lemma getitem_setitem_ne (df : DataFrame) (k k' : string) (c : list value) :
  String.eqb k k' = false -> getitem (setitem df k' c) k = getitem df k.
Proof.
  intros Hne. unfold getitem, setitem. cbn [df_columns].
  rewrite lookup_col_replace_ne by exact Hne. reflexivity.
Qed.

Lemma cell_key_eqb (h w h' w' : Z) :
  value_eqb (cell_key h' w') (cell_key h w) = (h' =? h) && (w' =? w).
Proof.
  unfold cell_key. cbn [value_eqb].
  change (String.eqb "hour" "hour") with true. change (String.eqb "day" "day") with true.
  cbn [andb]. rewrite andb_true_r. reflexivity.
Qed.

Lemma lookup_cell_tally (cells : list (Z * Z * Z)) (h w : Z) :
  NoDup (map (fun t => cell_key (fst (fst t)) (snd (fst t))) cells) ->
  (if is_na (lookup_cell (VInt h) (VInt w)
                (map (fun t => (VInt (fst (fst t)), VInt (snd (fst t)), VInt (snd t))) cells))
   then VInt 0
   else lookup_cell (VInt h) (VInt w)
          (map (fun t => (VInt (fst (fst t)), VInt (snd (fst t)), VInt (snd t))) cells))
  = VInt (tally (cell_key h w)
                (map (fun t => (cell_key (fst (fst t)) (snd (fst t)), snd t)) cells)).
Proof.
  induction cells as [| [[h' w'] c'] cells IH]; cbn [map fst snd lookup_cell tally];
    intros Hnd; [reflexivity |].
  apply NoDup_cons in Hnd as [Hnotin Hnd].
  rewrite cell_key_eqb. cbn [value_eqb].
  rewrite (Z.eqb_sym h h'), (Z.eqb_sym w w').
  destruct ((h' =? h) && (w' =? w)) eqn:E.
  - apply andb_true_iff in E as [Eh Ew]. apply Z.eqb_eq in Eh as ->, Ew as ->.
    rewrite tally_absent.
    + cbn [is_na]. f_equal. lia.
    + rewrite map_map. cbn [fst]. intros Hin. apply Hnotin, list_elem_of_In, Hin.
  - rewrite (IH Hnd). f_equal.
Qed.

Lemma has_duplicate_cells (cells : list (Z * Z * Z)) :
  NoDup (map (fun t => cell_key (fst (fst t)) (snd (fst t))) cells) ->
  has_duplicate (map (fun t => (VInt (fst (fst t)), VInt (snd (fst t)), VInt (snd t))) cells)
  = false.
Proof.
  induction cells as [| [[h w] c] cells IH]; cbn [map fst snd has_duplicate];
    intros Hnd; [reflexivity |].
  apply NoDup_cons in Hnd as [Hnotin Hnd]. rewrite (IH Hnd), orb_false_r.
  destruct (existsb _ _) eqn:E; [| reflexivity].
  exfalso. apply Hnotin, list_elem_of_In.
  apply existsb_exists in E as ([[r' c'] v'] & Hin & E).
  apply in_map_iff in Hin as ([[h' w'] c''] & [= <- <- <-] & Hin).
  cbn [fst snd value_eqb] in E. apply andb_true_iff in E as [Eh Ew].
  apply Z.eqb_eq in Eh as ->, Ew as ->.
  apply in_map_iff. exists (h', w', c''). split; [reflexivity | exact Hin].
Qed.

Lemma combine_map {A B C} (f : A -> B) (g : A -> C) (l : list A) :
  combine (map f l) (map g l) = map (fun x => (f x, g x)) l.
Proof. induction l as [| x l IH]; cbn [map combine]; [| rewrite IH]; reflexivity. Qed.

Lemma list_eq_nil_dec {A} (l : list A) : l = [] \/ l <> [].
Proof. destruct l; [left; reflexivity | right; discriminate]. Qed.

Lemma StronglySorted_lt_NoDup (l : list Z) : StronglySorted Z.lt l -> List.NoDup l.
Proof.
  induction 1 as [| x l _ IH Hall]; constructor; [| exact IH].
  intros Hin. rewrite List.Forall_forall in Hall. specialize (Hall x Hin). lia.
Qed.

(** The window of a chart covers two days at most. *)
Lemma window_days (now : datetime) (ms : Z) :
  bson_date (sub_hours now 24) <= ms <= bson_date now ->
  ms / 86400000 = bson_date (sub_hours now 24) / 86400000 \/
  ms / 86400000 = bson_date (sub_hours now 24) / 86400000 + 1.
Proof.
  unfold bson_date, sub_hours. rewrite to_micros_from_micros.
  intros H. Z.div_mod_to_equations. lia.
Qed.

Lemma group_tally_spec (key : document -> value) (docs : list document) :
  exists groups,
    group key (SumConst 1) docs = group_documents groups /\
    NoDup (map fst groups) /\
    (forall k, In k (map fst groups) <-> In k (map key docs)) /\
    (forall k, tally k groups = count_key key k docs).
Proof.
  destruct (fold_bump_spec key docs []) as (Hnd & Hkeys & Htally & _).
  eexists. split; [reflexivity |]. split; [apply Hnd; constructor |]. split.
  - intros k. rewrite Hkeys. cbn [map In]. tauto.
  - intros k. rewrite Htally. cbn [tally]. lia.
Qed.

(** X18. [update_activity_heatmap] never raises.  Its grid has one row for
    each hour of the day in which the window has a sample and one column for
    each day of the week ([$dayOfWeek], 1 for Sunday) on which it has one,
    both in increasing order, and a cell holds the number of samples of the
    window in that hour of that day, 0 where there is none.  So the grid has
    at most 24 rows and, the window being 24 hours long, at most 2 columns. *)
Theorem heatmap_counts_samples (d : database) (now : datetime) :
  let window := match_window (sub_hours now 24) now (user_activity d) in
  exists hours days : list Z,
    update_activity_heatmap d now
      = Ok [Heatmap
              (map (fun h =>
                      map (fun w => VInt (Z.of_nat (length (List.filter (in_cell h w) window))))
                          days)
                   hours)
              day_labels hour_labels] /\
    StronglySorted Z.lt hours /\ StronglySorted Z.lt days /\
    (forall h, In h hours <->
               exists doc ms, In doc window /\ timestamp_ms doc = Some ms /\ mongo_hour ms = h) /\
    (forall w, In w days <->
               exists doc ms, In doc window /\ timestamp_ms doc = Some ms /\
                              mongo_dayOfWeek ms = w) /\
    (length hours <= 24)%nat /\ (length days <= 2)%nat.
Proof.
  cbv zeta. set (window := match_window (sub_hours now 24) now (user_activity d)).
  assert (forall doc, In doc window ->
            exists ms, field "timestamp" doc = Some (VDate ms)) as Hwin.
  { intros doc Hdoc. apply filter_In in Hdoc as [_ Hdoc].
    destruct (in_window_inv _ _ _ Hdoc) as (ms & Hms & _). eauto. }
  assert (forall doc ms, In doc window -> timestamp_ms doc = Some ms ->
            bson_date (sub_hours now 24) <= ms <= bson_date now) as Hbounds.
  { intros doc ms Hdoc Hms. apply filter_In in Hdoc as [_ Hdoc].
    destruct (in_window_inv _ _ _ Hdoc) as (ms' & Hms' & Hb).
    unfold timestamp_ms in Hms. rewrite Hms' in Hms. injection Hms as <-. exact Hb. }
  set (key := fun doc : document =>
                VDoc [("hour", on_timestamp (fun ms => VInt (mongo_hour ms)) doc);
                      ("day", on_timestamp (fun ms => VInt (mongo_dayOfWeek ms)) doc)]).
  assert (forall doc ms, field "timestamp" doc = Some (VDate ms) ->
            key doc = cell_key (mongo_hour ms) (mongo_dayOfWeek ms)) as Hkey.
  { intros doc ms Hms. unfold key, on_timestamp, cell_key. rewrite Hms. reflexivity. }
  destruct (group_tally_spec key window) as (groups & Hgroup & Hnd & Hkeys & Htally).
  assert (exists cells : list (Z * Z * Z),
            groups = map (fun t => (cell_key (fst (fst t)) (snd (fst t)), snd t)) cells)
    as [cells Hcells].
  { assert (Forall (fun g => In (fst g) (map key window)) groups) as Hall.
    { apply List.Forall_forall. intros [k c] Hg. apply Hkeys.
      apply (in_map fst) in Hg. exact Hg. }
    clear -Hall Hwin Hkey. induction Hall as [| [k c] l Hk _ (cells & ->)].
    - exists []. reflexivity.
    - cbn [fst] in Hk. apply in_map_iff in Hk as (doc & <- & Hdoc).
      destruct (Hwin doc Hdoc) as (ms & Hms).
      exists ((mongo_hour ms, mongo_dayOfWeek ms, c) :: cells).
      cbn [map fst snd]. rewrite (Hkey doc ms Hms). reflexivity. }
  assert (forall h w, In (cell_key h w) (map fst groups) <->
            exists doc ms, In doc window /\ timestamp_ms doc = Some ms /\
                           mongo_hour ms = h /\ mongo_dayOfWeek ms = w) as Hcell.
  { intros h w. rewrite Hkeys, in_map_iff. split.
    - intros (doc & Hk & Hdoc). destruct (Hwin doc Hdoc) as (ms & Hms).
      rewrite (Hkey doc ms Hms) in Hk. injection Hk as Hh Hw.
      exists doc, ms. unfold timestamp_ms. rewrite Hms. auto.
    - intros (doc & ms & Hdoc & Hms & <- & <-). exists doc. split; [| exact Hdoc].
      apply Hkey. unfold timestamp_ms in Hms.
      destruct (field "timestamp" doc) as [[| | | | ms' |] |]; try discriminate.
      congruence. }
  assert (forall h w, count_key key (cell_key h w) window
                      = Z.of_nat (length (List.filter (in_cell h w) window))) as Hcount.
  { intros h w. unfold count_key. do 2 f_equal. apply filter_ext_in. intros doc Hdoc.
    destruct (Hwin doc Hdoc) as (ms & Hms).
    rewrite (Hkey doc ms Hms), cell_key_eqb.
    unfold in_cell, timestamp_ms. rewrite Hms. reflexivity. }
  destruct (sort_uniq_ints (map (fun t : Z * Z * Z => fst (fst t)) cells))
    as (hours & Hrows & Hhours & Hin_hours).
  destruct (sort_uniq_ints (map (fun t : Z * Z * Z => snd (fst t)) cells))
    as (days & Hcols & Hdays & Hin_days).
  exists hours, days.
  split; [| split; [exact Hhours | split; [exact Hdays | split; [| split; [| split]]]]].
  - unfold update_activity_heatmap, heatmap_pipeline. cbv zeta.
    fold window. change (fun d0 : document =>
                           VDoc [("hour", on_timestamp (fun ms => VInt (mongo_hour ms)) d0);
                                 ("day", on_timestamp (fun ms => VInt (mongo_dayOfWeek ms)) d0)])
      with key.
    rewrite Hgroup.
    destruct (list_eq_nil_dec cells) as [-> | Hne].
    + rewrite Hcells. cbn [map] in Hin_hours.
      destruct hours as [| h0 hours']; [reflexivity |].
      exfalso. apply (Hin_hours h0). left. reflexivity.
    + assert (existsb (has_field "_id") (group_documents groups) = true) as Hid
        by (rewrite Hcells; destruct cells; [contradiction | reflexivity]).
      assert (existsb (has_field "count") (group_documents groups) = true) as Hcnt
        by (rewrite Hcells; destruct cells; [contradiction | reflexivity]).
      assert (map (cell_of "_id") (group_documents groups)
              = map (fun t => cell_key (fst (fst t)) (snd (fst t))) cells) as Eid.
      { rewrite Hcells. unfold group_documents. rewrite !map_map. reflexivity. }
      assert (map (cell_of "count") (group_documents groups)
              = map (fun t : Z * Z * Z => VInt (snd t)) cells) as Ecount.
      { rewrite Hcells. unfold group_documents. rewrite !map_map. reflexivity. }
      assert (NoDup (map (fun t : Z * Z * Z => cell_key (fst (fst t)) (snd (fst t))) cells))
        as Hnd'.
      { rewrite Hcells, map_map in Hnd. exact Hnd. }
      rewrite (df_empty_pd_DataFrame _ "_id" Hid). cbn [negb].
      rewrite getitem_pd_DataFrame, Hid. cbn [rbind]. rewrite Eid.
      rewrite (mapM_map_ok (fun x => getitem_value x "hour")
                 (fun t : Z * Z * Z => cell_key (fst (fst t)) (snd (fst t)))
                 (fun t : Z * Z * Z => VInt (fst (fst t))))
        by (apply List.Forall_forall; intros t _; reflexivity).
      cbn [rbind].
      rewrite (getitem_setitem_ne _ "_id" "hour") by reflexivity.
      rewrite getitem_pd_DataFrame, Hid. cbn [rbind]. rewrite Eid.
      rewrite (mapM_map_ok (fun x => getitem_value x "day")
                 (fun t : Z * Z * Z => cell_key (fst (fst t)) (snd (fst t)))
                 (fun t : Z * Z * Z => VInt (snd (fst t))))
        by (apply List.Forall_forall; intros t _; reflexivity).
      cbn [rbind]. unfold pivot.
      rewrite (getitem_setitem_ne _ "hour" "day") by reflexivity.
      rewrite getitem_setitem_eq. cbn [rbind].
      rewrite getitem_setitem_eq. cbn [rbind].
      rewrite (getitem_setitem_ne _ "count" "day") by reflexivity.
      rewrite (getitem_setitem_ne _ "count" "hour") by reflexivity.
      rewrite getitem_pd_DataFrame, Hcnt. cbn [rbind]. rewrite Ecount.
      rewrite !combine_map, (has_duplicate_cells cells Hnd'). cbn [rbind].
      rewrite df_values_pivoted.
      rewrite map_map in Hrows, Hcols. rewrite Hrows, Hcols, map_map.
      do 3 f_equal. apply map_ext. intros h. rewrite map_map. apply map_ext. intros w.
      rewrite (lookup_cell_tally cells h w Hnd'), <- Hcells, Htally, Hcount. reflexivity.
  - intros h. rewrite Hin_hours, in_map_iff. split.
    + intros ([[h' w] c] & <- & Ht). cbn [fst].
      destruct (proj1 (Hcell h' w)) as (doc & ms & Hdoc & Hms & Hh & _); [| eauto].
      rewrite Hcells, map_map. apply in_map_iff.
      exists (h', w, c). split; [reflexivity | exact Ht].
    + intros (doc & ms & Hdoc & Hms & Hh).
      assert (In (cell_key h (mongo_dayOfWeek ms)) (map fst groups)) as Hin
        by (apply Hcell; eauto 6).
      rewrite Hcells, map_map in Hin. apply in_map_iff in Hin as (t & Ht & Hin).
      cbn [fst] in Ht. injection Ht as Hh' _. eauto.
  - intros w. rewrite Hin_days, in_map_iff. split.
    + intros ([[h w'] c] & <- & Ht). cbn [fst snd].
      destruct (proj1 (Hcell h w')) as (doc & ms & Hdoc & Hms & _ & Hw); [| eauto].
      rewrite Hcells, map_map. apply in_map_iff.
      exists (h, w', c). split; [reflexivity | exact Ht].
    + intros (doc & ms & Hdoc & Hms & Hw).
      assert (In (cell_key (mongo_hour ms) w) (map fst groups)) as Hin
        by (apply Hcell; eauto 6).
      rewrite Hcells, map_map in Hin. apply in_map_iff in Hin as (t & Ht & Hin).
      cbn [fst] in Ht. injection Ht as _ Hw'. eauto.
  - change 24%nat with (length (map Z.of_nat (seq 0 24))).
    apply NoDup_incl_length; [apply StronglySorted_lt_NoDup, Hhours |].
    intros h Hh. apply Hin_hours, in_map_iff in Hh as ([[h' w] c] & <- & Ht). cbn [fst].
    destruct (proj1 (Hcell h' w)) as (doc & ms & _ & _ & <- & _).
    { rewrite Hcells, map_map. apply in_map_iff.
      exists (h', w, c). split; [reflexivity | exact Ht]. }
    apply in_map_iff. exists (Z.to_nat (mongo_hour ms)).
    assert (0 <= mongo_hour ms < 24) by (unfold mongo_hour; Z.div_mod_to_equations; lia).
    split; [lia | apply in_seq; lia].
  - set (q := bson_date (sub_hours now 24) / 86400000).
    change 2%nat with (length [(q + 4) mod 7 + 1; (q + 5) mod 7 + 1]).
    apply NoDup_incl_length; [apply StronglySorted_lt_NoDup, Hdays |].
    intros w Hw. apply Hin_days, in_map_iff in Hw as ([[h w'] c] & <- & Ht). cbn [fst snd].
    destruct (proj1 (Hcell h w')) as (doc & ms & Hdoc & Hms & _ & <-).
    { rewrite Hcells, map_map. apply in_map_iff.
      exists (h, w', c). split; [reflexivity | exact Ht]. }
    destruct (window_days now ms (Hbounds doc ms Hdoc Hms)) as [E | E];
      unfold mongo_dayOfWeek; rewrite E; fold q; [left; reflexivity | right; left].
    f_equal. f_equal. lia.
Qed.

(** ** The keys of the fast store *)

(** X19. The generator writes the keys [total_messages], [active_users],
    [api_cost] and [rate_limit] of the fast store and no other: along every
    interleaving of the loops, any other key holds what it held when the
    generator was started. *)
Theorem generator_writes_four_keys (repr_float : float -> string)
    (redis : gmap string string) (d : database) (s : AnalyticsCollector) (k : string) :
  rtc (step repr_float) (init redis d) s ->
  k <> "total_messages" -> k <> "active_users" -> k <> "api_cost" -> k <> "rate_limit" ->
  redis_client s !! k = redis !! k.
Proof.
  intros Hrun Hm Hu Hc Hr.
  apply (rtc_ind_r (R := step repr_float)
           (fun s => redis_client s !! k = redis !! k) (init redis d)); [| | exact Hrun].
  - reflexivity.
  - intros s1 s2 _ Hstep IH.
    destruct Hstep as [s1 t1 t2 r w | s1 t1 t2 t3 r w s2 Htick | s1 t1 t2 r w | s1 t1 t2 r w].
    + cbn [collect_messages_tick redis_client].
      destruct w; cbn [redis_set]; try rewrite lookup_insert_ne by congruence; exact IH.
    + invert_user_tick Htick. cbn [redis_client].
      destruct w; cbn [redis_set]; try rewrite lookup_insert_ne by congruence; exact IH.
    + cbn [collect_api_costs_tick redis_client].
      destruct w; cbn [redis_set]; try rewrite lookup_insert_ne by congruence; exact IH.
    + cbn [collect_rate_limits_tick redis_client].
      destruct w; cbn [redis_set]; try rewrite lookup_insert_ne by congruence; exact IH.
Qed.

Lemma generator_writes_four_keys_witness :
  let t := mk_datetime 2024 1 1 9 13 0 0 in
  let redis : gmap string string := <["session" := "abc"]> ∅ in
  redis_client (collect_rate_limits_tick
                  (collect_messages_tick (init redis empty_db) t t 7 Written)
                  t t 3 InsertRaises) !! "session"
  = redis !! "session".
Proof.
  cbv zeta.
  apply (generator_writes_four_keys (fun _ => "") _ empty_db _ "session");
    [| discriminate | discriminate | discriminate | discriminate].
  eapply rtc_l; [apply step_messages |].
  eapply rtc_l; [apply step_rate_limits |].
  apply rtc_refl.
Defined.
